(** * SuperCommand: the extension build-and-execution pipeline

    A shallow embedding of
      - [src/main/extension-runner.ts]      (discovery, build cache, compiler)
      - [src/renderer/src/smart-calculator.ts], the part headed
        "Extension View" (sandbox loader, lifecycle)
    together with the properties the specification states about them.

    Conventions of the embedding.
      - A JavaScript value is a finite tree ([JS.jsval]).  An object lists
        the data properties a read finds on it; members inherited from
        [Object.prototype] are added by [JS.get_prop] and [Loader.js_in].
      - A call that may throw returns an [JS.outcome].
      - Code outside the repository (the bundle being executed, the bundler,
        [npm install], [JSON.parse], platform built-ins) enters as a
        [Variable] of the section that uses it. *)

From Stdlib Require Import ZArith String List Bool Lia.
From Stdlib Require QArith.
From stdpp Require Import base option list gmap strings.

Set Warnings "-register-all".
Open Scope string_scope.
Open Scope list_scope.

(* ================================================================== *)
(** * JavaScript values *)
(* ================================================================== *)

Module JS.

(** What evaluating an expression or a call yields. *)
Inductive outcome (A : Type) : Type :=
| Returns (v : A)
| Throws (e : A).
Arguments Returns {A} v.
Arguments Throws {A} e.

(** IEEE doubles, as far as the code looks at them: only whether a number
    is zero or NaN is ever tested. *)
Inductive number : Type :=
| NaN
| Infinity (negative : bool)
| Finite (q : QArith_base.Q).

(** The functions the loader itself defines for its stub tables
    (section "Node.js built-in stubs" of the extension view).  Stub members whose
    body calls a string, URL, JSON, typed-array or random-number built-in
    are not listed; they are [FForeign] functions named after their place
    in the table. *)
Inductive stub_fn : Type :=
| noop | noopAsync | noopCb
| fs_existsSync | fs_readFileSync | fs_readdirSync | fs_statSync
| stat_isFile | stat_isDirectory
| fsp_readdir | fsp_stat
| path_parse | path_normalize | path_relative
| os_homedir | os_tmpdir | os_platform | os_type | os_hostname
| os_cpus | os_totalmem | os_freemem
| cp_spawn
| tp_setTimeout | tp_setImmediate
| buf_isBuffer | buf_concat
| util_promisify
| assert
| tty_isatty
| module_createRequire | created_require
| process_cwd | process_nextTick.

Inductive fnref : Type :=
| FStub (f : stub_fn)
| FForeign (name : string).

Inductive jsval : Type :=
| VUndefined
| VNull
| VBool (b : bool)
| VNum (x : number)
| VStr (s : string)
| VArr (items : list jsval)
| VObj (props : list (string * jsval))
| VFun (f : fnref) (props : list (string * jsval))
| VElement (type : string)
| VPromiseFulfilled (v : jsval)
| VPromiseRejected (e : jsval)
| VPromisePending
| VBytes (bytes : list Z)
| VDate (ms : Z).

Definition number_truthy (x : number) : bool :=
  match x with
  | NaN => false
  | Infinity _ => true
  | Finite q => negb (QArith_base.Qnum q =? 0)%Z
  end.

(** ToBoolean. *)
Definition truthy (v : jsval) : bool :=
  match v with
  | VUndefined | VNull => false
  | VBool b => b
  | VNum x => number_truthy x
  | VStr s => negb (String.eqb s "")
  | _ => true
  end.

(** [typeof v === 'function'] *)
Definition is_function (v : jsval) : bool :=
  match v with VFun _ _ => true | _ => false end.

(** [v === null] *)
Definition is_null (v : jsval) : bool :=
  match v with VNull => true | _ => false end.

Fixpoint lookup_prop (k : string) (props : list (string * jsval)) : option jsval :=
  match props with
  | [] => None
  | (k', v) :: rest => if String.eqb k k' then Some v else lookup_prop k rest
  end.

Fixpoint remove_prop (k : string) (props : list (string * jsval)) : list (string * jsval) :=
  match props with
  | [] => []
  | (k', v) :: rest =>
      if String.eqb k k' then remove_prop k rest else (k', v) :: remove_prop k rest
  end.

(** The members every ordinary object inherits from [Object.prototype]. *)
Definition object_prototype_keys : list string :=
  [ "constructor"; "__defineGetter__"; "__defineSetter__"; "hasOwnProperty";
    "__lookupGetter__"; "__lookupSetter__"; "isPrototypeOf";
    "propertyIsEnumerable"; "toString"; "valueOf"; "__proto__";
    "toLocaleString" ].

Definition inherited_member (k : string) : option jsval :=
  if existsb (String.eqb k) object_prototype_keys then
    if String.eqb k "__proto__" then Some (VObj [])
    else Some (VFun (FForeign ("Object.prototype." +:+ k)) [])
  else None.

Definition read_props (k : string) (props : list (string * jsval)) : jsval :=
  match lookup_prop k props with
  | Some v => v
  | None => default VUndefined (inherited_member k)
  end.

Definition TypeError (msg : string) : jsval :=
  VObj [("name", VStr "TypeError"); ("message", VStr msg)].

Definition Error (msg : string) : jsval :=
  VObj [("name", VStr "Error"); ("message", VStr msg)].

(** [v.k] *)
Definition get_prop (v : jsval) (k : string) : outcome jsval :=
  match v with
  | VUndefined | VNull =>
      Throws (TypeError ("Cannot read properties of " +:+
                         (if is_null v then "null" else "undefined")))
  | VObj props | VFun _ props => Returns (read_props k props)
  | VPromiseFulfilled _ | VPromiseRejected _ | VPromisePending =>
      if String.eqb k "then"
      then Returns (VFun (FForeign "Promise.prototype.then") [])
      else Returns VUndefined
  | _ => Returns VUndefined
  end.

(** [v?.k]: the read of a nullish value is [undefined] instead of a throw. *)
Definition get_prop_opt (v : jsval) (k : string) : jsval :=
  match get_prop v k with
  | Returns x => x
  | Throws _ => VUndefined
  end.

(** [a || b] *)
Definition js_or (a b : jsval) : jsval := if truthy a then a else b.

(** [React.isValidElement] *)
Definition isValidElement (v : jsval) : bool :=
  match v with VElement _ => true | _ => false end.

End JS.

(* ================================================================== *)
(** * Command lifecycle controller ("Extension View") *)
(* ================================================================== *)

Module Lifecycle.
Import JS.

(** ** Mode classification: [SafeViewRenderer] and [isNoView] *)

(** The body of the [useMemo] callback of [SafeViewRenderer] (lines
    716-727); [call] is what the single invocation [Component()] did. *)
Definition SafeViewRenderer_element (call : outcome jsval) : jsval :=
  match call with
  | Returns result =>
      if truthy result then
        match get_prop result "then" with
        | Returns t => if is_function t then VNull else result
        | Throws _ => VUndefined
        end
      else result
  | Throws _ => VUndefined
  end.

(** What [SafeViewRenderer] hands to React (lines 736-744). *)
Inductive rendered : Type :=
| RenderNothing                      (* [return null] *)
| RenderElement (element : jsval)    (* [return element] *)
| RenderComponent.                   (* [return <Component />] *)

Definition SafeViewRenderer_render (element : jsval) (fallback : bool) : rendered :=
  if is_null element || fallback then RenderNothing
  else if isValidElement element then RenderElement element
  else RenderComponent.

(** The state of [ExtensionView] that classification and navigation use:
    [calls] counts the invocations of the entry function made by the
    probe, [closes] the calls of [onClose]. *)
Record view : Type := mkView {
  mode : string;
  detectedNoView : bool;
  navStack : list jsval;
  calls : nat;
  closes : nat
}.

Definition open_view (declared : string) : view :=
  mkView declared false [] 0 0.

(** Line 761. *)
Definition isNoView (v : view) : bool :=
  String.eqb (mode v) "no-view" || String.eqb (mode v) "menu-bar" || detectedNoView v.

(** [useEffect] of [SafeViewRenderer] (lines 729-734): [onNoView] is
    [() => setDetectedNoView(true)]. *)
Definition SafeViewRenderer_effect (element : jsval) (v : view) : view :=
  if is_null element
  then mkView (mode v) true (navStack v) (calls v) (closes v)
  else v.

(** First render of a view-mode command whose navigation stack is empty:
    the probe runs, the effect follows. [Component] gives the outcome of
    the k-th invocation of the entry function. *)
Definition render_view (Component : nat -> outcome jsval) (v : view) : view * rendered :=
  let element := SafeViewRenderer_element (Component (calls v)) in
  let v1 := mkView (mode v) (detectedNoView v) (navStack v) (S (calls v)) (closes v) in
  (SafeViewRenderer_effect element v1, SafeViewRenderer_render element false).

(** [result && typeof result.then === 'function'] *)
Definition is_thenable (result : jsval) : bool :=
  truthy result &&
  match get_prop result "then" with
  | Returns t => is_function t
  | Throws _ => false
  end.

(** ** Navigation: [push] and [pop] (lines 764-775) *)

(** [setNavStack((prev) => [...prev, element])] *)
Definition push (element : jsval) (v : view) : view :=
  mkView (mode v) (detectedNoView v) (navStack v ++ [element]) (calls v) (closes v).

(** [prev.length > 0 ? prev.slice(0, -1) : (onClose(), prev)] *)
Definition pop (v : view) : view :=
  if (0 <? length (navStack v))%nat
  then mkView (mode v) (detectedNoView v) (removelast (navStack v)) (calls v) (closes v)
  else mkView (mode v) (detectedNoView v) (navStack v) (calls v) (S (closes v)).

Inductive nav_op : Type :=
| Push (element : jsval)
| Pop.

Definition nav_step (v : view) (op : nav_op) : view :=
  match op with
  | Push e => push e v
  | Pop => pop v
  end.

Definition nav_run (ops : list nav_op) (v : view) : view :=
  fold_left nav_step ops v.

(** [navStack.length > 0 ? navStack[navStack.length - 1] : null] *)
Definition currentView (v : view) : option jsval := last (navStack v).

(** ** No-view execution: the effect of [NoViewRunner] (lines 657-676) *)

Inductive run_status : Type := running | done | error.

(** [outstanding] tells whether the awaited call has not settled yet,
    [timers] holds the delays of the pending
    [setTimeout(() => onClose(), d)] calls, and [runner_closes] counts the
    calls of [onClose]. *)
Record runner : Type := mkRunner {
  status : run_status;
  errorMsg : jsval;
  cancelled : bool;
  outstanding : bool;
  timers : list nat;
  runner_closes : nat
}.

(** [useState('running')], [useState('')], [let cancelled = false]. *)
Definition runner_init : runner := mkRunner running (VStr "") false true [] 0.

(** The statements after [await fn()] in the [try] block (lines 663-666). *)
Definition on_resolved (r : runner) : runner :=
  if cancelled r
  then mkRunner (status r) (errorMsg r) (cancelled r) false (timers r) (runner_closes r)
  else mkRunner done (errorMsg r) (cancelled r) false (timers r ++ [600%nat])
                (runner_closes r).

(** The [catch (e)] block (lines 667-672). *)
Definition on_rejected (e : jsval) (r : runner) : runner :=
  if cancelled r
  then mkRunner (status r) (errorMsg r) (cancelled r) false (timers r) (runner_closes r)
  else mkRunner error (js_or (get_prop_opt e "message") (VStr "Command failed"))
                (cancelled r) false (timers r) (runner_closes r).

(** The effect body up to the first suspension: [fn()] is called; a
    synchronous throw reaches the [catch] block at once, anything returned
    is awaited. *)
Definition effect_start (call : outcome jsval) : runner :=
  match call with
  | Throws e => on_rejected e runner_init
  | Returns _ => runner_init
  end.

(** The cleanup returned by the effect: [cancelled = true]. *)
Definition effect_cleanup (r : runner) : runner :=
  mkRunner (status r) (errorMsg r) true (outstanding r) (timers r) (runner_closes r).

Inductive runner_event : Type :=
| Settled (result : outcome jsval)   (* the awaited value resolved / rejected *)
| Teardown                           (* React runs the effect's cleanup *)
| TimerFires.                        (* the oldest pending timer runs *)

(** A call settles once: [Settled] means nothing when no call is
    outstanding. *)
Definition runner_step (r : runner) (ev : runner_event) : runner :=
  match ev with
  | Settled result =>
      if outstanding r then
        match result with
        | Returns _ => on_resolved r
        | Throws e => on_rejected e r
        end
      else r
  | Teardown => effect_cleanup r
  | TimerFires =>
      match timers r with
      | [] => r
      | _ :: rest =>
          mkRunner (status r) (errorMsg r) (cancelled r) (outstanding r) rest
                   (S (runner_closes r))
      end
  end.

Definition runner_run (evs : list runner_event) (r : runner) : runner :=
  fold_left runner_step evs r.

(** ** What [ExtensionView] shows (lines 797-864) *)

Inductive panel : Type :=
| ErrorPanel (msg : jsval)            (* [if (error)] *)
| LoadFailedPanel                     (* [if (!ExtExport)] *)
| NoViewPanel (fn : jsval)            (* [<NoViewRunner fn={ExtExport} />] *)
| ViewPanel (current : option jsval). (* [currentView || <SafeViewRenderer />] *)

Definition ExtensionView_render (err : option jsval) (ExtExport : option jsval)
    (v : view) : panel :=
  match err with
  | Some msg => ErrorPanel msg
  | None =>
      match ExtExport with
      | None => LoadFailedPanel
      | Some fn =>
          if isNoView v then NoViewPanel fn else ViewPanel (currentView v)
      end
  end.

End Lifecycle.

(* ================================================================== *)
(** * Sandbox loader ("Extension View") *)
(* ================================================================== *)

Module Loader.
Import JS.

Definition fn (f : stub_fn) : jsval := VFun (FStub f) [].
Definition foreign (name : string) : jsval := VFun (FForeign name) [].

(** ** The stub tables (lines 410-563) *)

Definition fsStub_promises : jsval :=
  VObj [ ("readFile", fn noopAsync);
         ("writeFile", fn noopAsync);
         ("mkdir", fn noopAsync);
         ("readdir", fn fsp_readdir);
         ("stat", fn fsp_stat);
         ("access", fn noopAsync);
         ("unlink", fn noopAsync);
         ("rm", fn noopAsync) ].

Definition fsStub : jsval :=
  VObj [ ("existsSync", fn fs_existsSync);
         ("readFileSync", fn fs_readFileSync);
         ("writeFileSync", fn noop);
         ("mkdirSync", fn noop);
         ("readdirSync", fn fs_readdirSync);
         ("statSync", fn fs_statSync);
         ("unlinkSync", fn noop);
         ("rmdirSync", fn noop);
         ("rmSync", fn noop);
         ("readFile", fn noopCb);
         ("writeFile", fn noopCb);
         ("mkdir", fn noopCb);
         ("access", fn noopCb);
         ("promises", fsStub_promises) ].

Definition pathStub : jsval :=
  VObj [ ("join", foreign "pathStub.join");
         ("resolve", foreign "pathStub.resolve");
         ("dirname", foreign "pathStub.dirname");
         ("basename", foreign "pathStub.basename");
         ("extname", foreign "pathStub.extname");
         ("sep", VStr "/");
         ("parse", fn path_parse);
         ("isAbsolute", foreign "pathStub.isAbsolute");
         ("normalize", fn path_normalize);
         ("relative", fn path_relative) ].

Definition osStub : jsval :=
  VObj [ ("homedir", fn os_homedir);
         ("tmpdir", fn os_tmpdir);
         ("platform", fn os_platform);
         ("type", fn os_type);
         ("hostname", fn os_hostname);
         ("cpus", fn os_cpus);
         ("totalmem", fn os_totalmem);
         ("freemem", fn os_freemem);
         ("EOL", VStr (String (Ascii.ascii_of_nat 10) EmptyString)) ].

Definition cryptoStub : jsval :=
  VObj [ ("randomUUID", foreign "cryptoStub.randomUUID");
         ("createHash", foreign "cryptoStub.createHash");
         ("randomBytes", foreign "cryptoStub.randomBytes") ].

(** [eventsStub.default = eventsStub.EventEmitter] is applied. *)
Definition eventsStub : jsval :=
  VObj [ ("EventEmitter", foreign "eventsStub.EventEmitter");
         ("default", foreign "eventsStub.EventEmitter") ].

Definition childProcessStub : jsval :=
  VObj [ ("exec", fn noopCb);
         ("execSync", foreign "childProcessStub.execSync");
         ("spawn", fn cp_spawn) ].

Definition timersPromisesStub : jsval :=
  VObj [ ("setTimeout", fn tp_setTimeout);
         ("setInterval", fn noop);
         ("setImmediate", fn tp_setImmediate) ].

Definition bufferStub_Buffer : jsval :=
  VObj [ ("from", foreign "bufferStub.Buffer.from");
         ("alloc", foreign "bufferStub.Buffer.alloc");
         ("isBuffer", fn buf_isBuffer);
         ("concat", fn buf_concat) ].

Definition bufferStub : jsval := VObj [ ("Buffer", bufferStub_Buffer) ].

Definition processStub : jsval :=
  VObj [ ("env", VObj []);
         ("cwd", fn process_cwd);
         ("platform", VStr "darwin");
         ("version", VStr "v18.0.0");
         ("argv", VArr []);
         ("exit", fn noop);
         ("on", fn noop);
         ("nextTick", fn process_nextTick) ].

Section Tables.

(** [builtin k] is the value of [globalThis.k] (or of the global binding
    [k]) when the module is initialised. *)
Variable builtin : string -> jsval.

Definition utilStub : jsval :=
  VObj [ ("promisify", fn util_promisify);
         ("format", foreign "utilStub.format");
         ("inspect", foreign "utilStub.inspect");
         ("TextDecoder", builtin "TextDecoder");
         ("TextEncoder", builtin "TextEncoder") ].

(** The object literal [nodeBuiltinStubs], in source order. *)
Definition nodeBuiltinStubs_literal : list (string * jsval) :=
  [ ("fs", fsStub);
    ("fs/promises", fsStub_promises);
    ("path", pathStub);
    ("os", osStub);
    ("crypto", cryptoStub);
    ("events", eventsStub);
    ("child_process", childProcessStub);
    ("timers", VObj [ ("setTimeout", builtin "setTimeout");
                      ("setInterval", builtin "setInterval");
                      ("clearTimeout", builtin "clearTimeout");
                      ("clearInterval", builtin "clearInterval") ]);
    ("timers/promises", timersPromisesStub);
    ("buffer", bufferStub);
    ("util", utilStub);
    ("stream", VObj [ ("Readable", foreign "stream.Readable");
                      ("Writable", foreign "stream.Writable");
                      ("Transform", foreign "stream.Transform");
                      ("PassThrough", foreign "stream.PassThrough") ]);
    ("stream/promises", VObj []);
    ("url", VObj [ ("URL", builtin "URL");
                   ("URLSearchParams", builtin "URLSearchParams");
                   ("parse", foreign "url.parse") ]);
    ("querystring", VObj [ ("parse", foreign "querystring.parse");
                           ("stringify", foreign "querystring.stringify") ]);
    ("http", VObj [ ("request", fn noop); ("get", fn noop) ]);
    ("https", VObj [ ("request", fn noop); ("get", fn noop) ]);
    ("assert", fn assert);
    ("net", VObj []);
    ("tls", VObj []);
    ("dns", VObj []);
    ("dgram", VObj []);
    ("cluster", VObj []);
    ("tty", VObj [ ("isatty", fn tty_isatty) ]);
    ("v8", VObj []);
    ("vm", VObj []);
    ("worker_threads", VObj []);
    ("zlib", VObj []);
    ("module", VObj [ ("createRequire", fn module_createRequire) ]);
    ("readline", VObj []);
    ("perf_hooks", VObj [ ("performance", builtin "performance") ]);
    ("string_decoder", VObj [ ("StringDecoder", foreign "string_decoder.StringDecoder") ]);
    ("process", processStub) ].

(** [obj[k] = v] on a property list: an existing key keeps its place. *)
Fixpoint set_prop (k : string) (v : jsval) (props : list (string * jsval))
  : list (string * jsval) :=
  match props with
  | [] => [(k, v)]
  | (k', v') :: rest =>
      if String.eqb k k' then (k, v) :: rest else (k', v') :: set_prop k v rest
  end.

(** The table after the loop
    [for (const [key, val] of Object.entries({ ...nodeBuiltinStubs }))
       nodeBuiltinStubs[`node:${key}`] = val]. *)
Definition nodeBuiltinStubs : list (string * jsval) :=
  fold_left (fun table '(key, val) => set_prop ("node:" +:+ key) val table)
            nodeBuiltinStubs_literal nodeBuiltinStubs_literal.

(** [k in obj] for an ordinary object with the given own properties. *)
Definition js_in (k : string) (props : list (string * jsval)) : bool :=
  match lookup_prop k props with
  | Some _ => true
  | None => existsb (String.eqb k) object_prototype_keys
  end.

(** ** Module resolution: [fakeRequire] (lines 594-615) *)

Inductive console_entry : Type :=
| Warn (msg : string)
| LogError (msg : string).

(** [import_ m] is the namespace the renderer itself gets for module [m];
    [RaycastAPI] and [RaycastUtils] are both [import * from './raycast-api']. *)
Variable import_ : string -> jsval.

Definition React : jsval := import_ "react".
Definition RaycastAPI : jsval := import_ "./raycast-api".
Definition RaycastUtils : jsval := import_ "./raycast-api".

(** The one-character string holding a double quote. *)
Definition dquote : string := String (Ascii.ascii_of_nat 34) EmptyString.

Definition fakeRequire (name : string) : outcome jsval * list console_entry :=
  if String.eqb name "react" then (Returns React, [])
  else if String.eqb name "react/jsx-runtime" then (Returns (import_ "react/jsx-runtime"), [])
  else if String.eqb name "@raycast/api" then (Returns RaycastAPI, [])
  else if String.eqb name "@raycast/utils" then (Returns RaycastUtils, [])
  else if js_in name nodeBuiltinStubs
       then (Returns (read_props name nodeBuiltinStubs), [])
       else (Returns (VObj []),
             [Warn ("Extension tried to require unknown module: "
                    +:+ dquote +:+ name +:+ dquote)]).

(** ** Global injection: [ensureGlobals] (lines 567-577) *)

(** A property of the global object holds a value or the global object
    itself. *)
Inductive slot : Type :=
| Val (v : jsval)
| Self.

(** [!!globalThis[k]] *)
Definition global_truthy (g : gmap string slot) (k : string) : bool :=
  match g !! k with
  | Some (Val v) => truthy v
  | Some Self => true
  | None => false
  end.

Definition ensureGlobals (g : gmap string slot) : gmap string slot :=
  let g1 := if global_truthy g "process" then g
            else <["process" := Val (read_props "process" nodeBuiltinStubs)]> g in
  let g2 := if global_truthy g1 "Buffer" then g1
            else <["Buffer" := Val bufferStub_Buffer]> g1 in
  if global_truthy g2 "global" then g2
  else <["global" := Self]> g2.

(** ** [loadExtensionExport] (lines 583-643) *)

(** What running [new Function('exports', 'require', 'module', '__filename',
    '__dirname', code)] on [(moduleExports, fakeRequire, fakeModule, '', '')]
    does: it throws (a syntax error of [code] included), or it finishes and
    leaves a value in [fakeModule.exports]; it may write to the console and
    to the global object on the way. *)
Record execution : Type := mkExecution {
  completion : outcome jsval;
  globals_after : gmap string slot;
  output : list console_entry
}.

Variable run_bundle : string -> gmap string slot -> execution.

Record loaded : Type := mkLoaded {
  entry : option jsval;
  globals : gmap string slot;
  console : list console_entry
}.

Definition loadExtensionExport (code : string) (g : gmap string slot) : loaded :=
  let g0 := ensureGlobals g in
  let run := run_bundle code g0 in
  let failed := mkLoaded None (globals_after run)
                         (output run ++ [LogError "Failed to load extension:"]) in
  match completion run with
  | Throws _ => failed
  | Returns exports =>
      match get_prop exports "default" with
      | Throws _ => failed
      | Returns d =>
          let exported := js_or d exports in
          if is_function exported
          then mkLoaded (Some exported) (globals_after run) (output run)
          else mkLoaded None (globals_after run)
                 (output run ++ [LogError "Extension did not export a function"])
      end
  end.

End Tables.

(** ** What calling a stub does *)

Section Calls.

(** [foreign_call n args]: the call of the foreign function [n]. *)
Variable foreign_call : string -> list jsval -> outcome jsval.
(** The clock read by [new Date()]. *)
Variable now : Z.

Definition arg (i : nat) (args : list jsval) : jsval := nth i args VUndefined.

Definition stub_body (invoke_with_null : jsval -> outcome jsval)
    (f : stub_fn) (args : list jsval) : outcome jsval :=
  match f with
  | noop => Returns VUndefined
  | noopAsync => Returns (VPromiseFulfilled VUndefined)
  | noopCb =>
      match last args with
      | Some cb =>
          if is_function cb then
            match invoke_with_null cb with
            | Throws e => Throws e
            | Returns _ => Returns VUndefined
            end
          else Returns VUndefined
      | None => Returns VUndefined
      end
  | fs_existsSync => Returns (VBool false)
  | fs_readFileSync => Returns (VStr "")
  | fs_readdirSync => Returns (VArr [])
  | fs_statSync =>
      Returns (VObj [ ("isFile", fn stat_isFile);
                      ("isDirectory", fn stat_isDirectory);
                      ("mtime", VDate now) ])
  | stat_isFile | stat_isDirectory => Returns (VBool false)
  | fsp_readdir => Returns (VPromiseFulfilled (VArr []))
  | fsp_stat =>
      Returns (VPromiseFulfilled
                 (VObj [ ("isFile", fn stat_isFile);
                         ("isDirectory", fn stat_isDirectory) ]))
  | path_parse =>
      Returns (VObj [ ("dir", VStr ""); ("root", VStr ""); ("base", arg 0 args);
                      ("name", arg 0 args); ("ext", VStr "") ])
  | path_normalize => Returns (arg 0 args)
  | path_relative => Returns (VStr "")
  | os_homedir | os_tmpdir => Returns (VStr "/tmp")
  | os_platform => Returns (VStr "darwin")
  | os_type => Returns (VStr "Darwin")
  | os_hostname => Returns (VStr "localhost")
  | os_cpus => Returns (VArr [])
  | os_totalmem | os_freemem => Returns (VNum (Finite (QArith_base.Qmake 0 1)))
  | cp_spawn =>
      Returns (VObj [ ("on", fn noop);
                      ("stdout", VObj [ ("on", fn noop) ]);
                      ("stderr", VObj [ ("on", fn noop) ]);
                      ("kill", fn noop) ])
  | tp_setTimeout => Returns VPromisePending
  | tp_setImmediate => Returns (VPromiseFulfilled VUndefined)
  | buf_isBuffer => Returns (VBool false)
  | buf_concat => Returns (VBytes [])
  | util_promisify => Returns (arg 0 args)
  | assert =>
      if truthy (arg 0 args) then Returns VUndefined
      else Throws (Error "Assertion failed")
  | tty_isatty => Returns (VBool false)
  | module_createRequire => Returns (fn created_require)
  | created_require => Returns (VObj [])
  | process_cwd => Returns (VStr "/")
  | process_nextTick => Returns VPromisePending
  end.

(** [cb(null)], the one call [noopCb] makes.  A stub called this way has
    no function among its arguments, so it invokes nothing further. *)
Definition invoke_with_null (cb : jsval) : outcome jsval :=
  match cb with
  | VFun (FStub f) _ => stub_body (fun _ => Returns VUndefined) f [VNull]
  | VFun (FForeign n) _ => foreign_call n [VNull]
  | _ => Throws (TypeError "cb is not a function")
  end.

Definition call_stub (f : stub_fn) (args : list jsval) : outcome jsval :=
  stub_body invoke_with_null f args.

(** [callee(...args)] *)
Definition call_value (callee : jsval) (args : list jsval) : outcome jsval :=
  match callee with
  | VFun (FStub f) _ => call_stub f args
  | VFun (FForeign n) _ => foreign_call n args
  | _ => Throws (TypeError "callee is not a function")
  end.

(** [obj.k(...args)] *)
Definition call_member (obj : jsval) (k : string) (args : list jsval) : outcome jsval :=
  match get_prop obj k with
  | Returns callee => call_value callee args
  | Throws e => Throws e
  end.

End Calls.

End Loader.

(* ================================================================== *)
(** * Extension runner ([extension-runner.ts]) *)
(* ================================================================== *)

Module Runner.

(** ** Parsed manifests

    A [json] is what [JSON.parse] returned: the keys of an object are
    distinct. *)

Inductive json : Type :=
| JNull
| JBool (b : bool)
| JNum (q : QArith_base.Q)
| JStr (s : string)
| JArr (items : list json)
| JObj (fields : list (string * json)).

(** A call of the file system API, of [JSON.parse] or of [path.join], or a
    property read, either gives a value or throws. *)
Inductive result (A : Type) : Type :=
| Ok (a : A)
| Thrown.
Arguments Ok {A} a.
Arguments Thrown {A}.

Fixpoint lookup_field (k : string) (fields : list (string * json)) : option json :=
  match fields with
  | [] => None
  | (k', v) :: rest => if String.eqb k k' then Some v else lookup_field k rest
  end.

(** [j.k] for the keys the runner reads ([icon], [title], [commands],
    [name], [description], [mode], [dependencies], [devDependencies]);
    [None] is [undefined]. *)
Definition jget (j : json) (k : string) : result (option json) :=
  match j with
  | JNull => Thrown
  | JObj fields => Ok (lookup_field k fields)
  | _ => Ok None
  end.

Definition jtruthy (v : option json) : bool :=
  match v with
  | None | Some JNull => false
  | Some (JBool b) => b
  | Some (JNum q) => negb (QArith_base.Qnum q =? 0)%Z
  | Some (JStr s) => negb (String.eqb s "")
  | Some (JArr _) | Some (JObj _) => true
  end.

(** [v || d] *)
Definition jor (v : option json) (d : json) : json :=
  match v with
  | Some j => if jtruthy v then j else d
  | None => d
  end.

(** The one-character strings a [for ... of] over a string yields (none
    of them has a [name]). *)
Fixpoint characters (s : string) : list json :=
  match s with
  | EmptyString => []
  | String c rest => JStr (String c EmptyString) :: characters rest
  end.

(** The values [for (const cmd of v)] visits; a value that is not iterable
    throws. *)
Definition iterate (v : json) : result (list json) :=
  match v with
  | JArr items => Ok items
  | JStr s => Ok (characters s)
  | _ => Thrown
  end.

(** [Object.keys(v).length] *)
Definition keys_length (v : json) : nat :=
  match v with
  | JObj fields => length fields
  | JArr items => length items
  | JStr s => String.length s
  | _ => 0
  end.

(** ** The file system *)

(** A path holds a file or a directory; [None] as content marks one that
    exists but cannot be read (or listed). *)
Inductive node : Type :=
| NFile (mtime : Z) (data : option string)
| NDir (mtime : Z) (names : option (list string)).

Definition node_mtime (n : node) : Z :=
  match n with NFile m _ | NDir m _ => m end.

Definition isDirectory (n : node) : bool :=
  match n with NDir _ _ => true | NFile _ _ => false end.

Definition existsSync (fs : gmap string node) (p : string) : bool :=
  match fs !! p with Some _ => true | None => false end.

Definition statSync (fs : gmap string node) (p : string) : result node :=
  match fs !! p with Some n => Ok n | None => Thrown end.

Definition readFileSync (fs : gmap string node) (p : string) : result string :=
  match fs !! p with
  | Some (NFile _ (Some data)) => Ok data
  | _ => Thrown
  end.

Definition readdirSync (fs : gmap string node) (p : string) : result (list string) :=
  match fs !! p with
  | Some (NDir _ (Some names)) => Ok names
  | _ => Thrown
  end.

Record ExtensionCommandInfo : Type := mkInfo {
  id : string;
  title : string;
  extName : string;
  cmdName : string;
  description : string;
  mode : json;
  keywords : list string;
  iconDataUrl : option string
}.

(** Node.js built-in modules kept external by the build
    ([const nodeBuiltins] in [buildExtensionCommand]). *)
Definition nodeBuiltins : list string :=
  [ "assert"; "buffer"; "child_process"; "cluster"; "crypto";
    "dgram"; "dns"; "events"; "fs"; "fs/promises"; "http";
    "http2"; "https"; "module"; "net"; "os"; "path";
    "perf_hooks"; "process"; "querystring"; "readline";
    "stream"; "stream/promises"; "string_decoder"; "timers";
    "timers/promises"; "tls"; "tty"; "url"; "util"; "v8";
    "vm"; "worker_threads"; "zlib";
    "node:assert"; "node:buffer"; "node:child_process";
    "node:crypto"; "node:events"; "node:fs"; "node:fs/promises";
    "node:http"; "node:https"; "node:module"; "node:net";
    "node:os"; "node:path"; "node:process"; "node:querystring";
    "node:stream"; "node:timers"; "node:timers/promises";
    "node:url"; "node:util"; "node:vm"; "node:worker_threads";
    "node:zlib" ].

(** The [external] option handed to the bundler. *)
Definition external : list string :=
  [ "react"; "react-dom"; "react/jsx-runtime"; "@raycast/api"; "@raycast/utils" ]
  ++ nodeBuiltins.

Section Runner.

(** Library functions of the platform. *)
Variable path_join : list string -> string.
Variable path_extname : string -> string.
Variable toLowerCase : string -> string.
Variable base64 : string -> string.
Variable JSON_parse : string -> result json.
(** [app.getPath('userData')] *)
Variable userData : string.

Definition getExtensionsDir : string := path_join [userData; "extensions"].

(** ** Icon extraction: [getExtensionIconDataUrl] (lines 48-73) *)

Definition mime_of (ext : string) : string :=
  if String.eqb ext ".svg" then "image/svg+xml"
  else if String.eqb ext ".jpg" || String.eqb ext ".jpeg" then "image/jpeg"
  else "image/png".

(** One turn of the loop over the candidates: [Some url] is the [return],
    [None] the [continue] (also taken when the [try] block throws). *)
Definition icon_at (fs : gmap string node) (p : string) : option string :=
  if negb (existsSync fs p) then None
  else
    let ext := toLowerCase (path_extname p) in
    match readFileSync fs p with
    | Thrown => None
    | Ok data =>
        if (String.length data <? 50)%nat then None
        else Some ("data:" +:+ mime_of ext +:+ ";base64," +:+ base64 data)
    end.

Fixpoint first_icon (fs : gmap string node) (candidates : list string) : option string :=
  match candidates with
  | [] => None
  | p :: rest =>
      match icon_at fs p with
      | Some url => Some url
      | None => first_icon fs rest
      end
  end.

(** [path.join] rejects an argument that is not a string. *)
Definition getExtensionIconDataUrl (fs : gmap string node) (extPath : string)
    (iconFile : json) : result (option string) :=
  match iconFile with
  | JStr icon =>
      Ok (first_icon fs [ path_join [extPath; "assets"; icon];
                          path_join [extPath; icon] ])
  | _ => Thrown
  end.

(** ** Discovery: [discoverInstalledExtensionCommands] (lines 81-130) *)

(** [xs.filter(Boolean).map((s) => s.toLowerCase())]: a truthy element
    that is not a string has no [toLowerCase] and the call throws. *)
Fixpoint lower_keywords (xs : list json) : result (list string) :=
  match xs with
  | [] => Ok []
  | x :: rest =>
      if jtruthy (Some x) then
        match x with
        | JStr s =>
            match lower_keywords rest with
            | Ok ks => Ok (toLowerCase s :: ks)
            | Thrown => Thrown
            end
        | _ => Thrown
        end
      else lower_keywords rest
  end.

Definition text (j : json) : string :=
  match j with JStr s => s | _ => "" end.

(** One turn of the loop over the commands: [Ok None] is the [continue],
    [Ok (Some info)] the [results.push(info)].  The object literal throws
    only in its [keywords] entry, and if that entry is built then [name],
    [title] and [description] are strings; so the entry is evaluated first
    and the strings are read off with [text]. *)
Definition command_info (dir : string) (pkg : json) (icon : option string)
    (cmd : json) : result (option ExtensionCommandInfo) :=
  match jget cmd "name" with
  | Thrown => Thrown
  | Ok name =>
      if negb (jtruthy name) then Ok None
      else
        let name := jor name JNull in
        match jget cmd "title", jget cmd "description", jget cmd "mode",
              jget pkg "title" with
        | Ok ctitle, Ok cdesc, Ok cmode, Ok ptitle =>
            match lower_keywords [ JStr dir; jor ptitle (JStr ""); name;
                                   jor ctitle (JStr ""); jor cdesc (JStr "") ] with
            | Thrown => Thrown
            | Ok ks =>
                Ok (Some (mkInfo ("ext-" +:+ dir +:+ "-" +:+ text name)
                                 (text (jor ctitle name))
                                 dir
                                 (text name)
                                 (text (jor cdesc (JStr "")))
                                 (jor cmode (JStr "view"))
                                 ks
                                 icon))
            end
        | _, _, _, _ => Thrown
        end
  end.

(** The loop over the commands inside the [try] block of one extension:
    a throw ends the loop, and what was pushed before it stays pushed. *)
Fixpoint push_commands (dir : string) (pkg : json) (icon : option string)
    (cmds : list json) : list ExtensionCommandInfo :=
  match cmds with
  | [] => []
  | cmd :: rest =>
      match command_info dir pkg icon cmd with
      | Thrown => []
      | Ok None => push_commands dir pkg icon rest
      | Ok (Some info) => info :: push_commands dir pkg icon rest
      end
  end.

(** The [try] block of one extension; a throw anywhere in it is caught and
    dropped. *)
Definition manifest_commands (fs : gmap string node) (dir extPath pkgPath : string)
    : list ExtensionCommandInfo :=
  match readFileSync fs pkgPath with
  | Thrown => []
  | Ok source =>
      match JSON_parse source with
      | Thrown => []
      | Ok pkg =>
          match jget pkg "icon", jget pkg "commands" with
          | Ok icon, Ok commands =>
              match getExtensionIconDataUrl fs extPath (jor icon (JStr "icon.png")) with
              | Thrown => []
              | Ok iconDataUrl =>
                  match iterate (jor commands (JArr [])) with
                  | Thrown => []
                  | Ok cmds => push_commands dir pkg iconDataUrl cmds
                  end
              end
          | _, _ => []
          end
      end
  end.

(** What one turn of the loop over [fs.readdirSync(extDir)] pushes. *)
Definition extension_commands (fs : gmap string node) (dir : string)
    : list ExtensionCommandInfo :=
  let extPath := path_join [getExtensionsDir; dir] in
  let pkgPath := path_join [extPath; "package.json"] in
  match statSync fs extPath with
  | Thrown => []
  | Ok n =>
      if negb (isDirectory n) then []
      else if negb (existsSync fs pkgPath) then []
      else manifest_commands fs dir extPath pkgPath
  end.

Definition discoverInstalledExtensionCommands (fs : gmap string node)
    : result (list ExtensionCommandInfo) :=
  let extDir := getExtensionsDir in
  if negb (existsSync fs extDir) then Ok []
  else
    match readdirSync fs extDir with
    | Thrown => Thrown
    | Ok dirs =>
        Ok (fold_left (fun results dir => (results ++ extension_commands fs dir)%list)
                      dirs [])
    end.

(** ** Build: [buildExtensionCommand] and its helpers (lines 38-44,
    137-287) *)

(** The machine the build runs on: the files, the clock that stamps what
    is written, the entry points handed to [esbuild.build] so far, the
    directories [npm install] ran in, and the console. *)
Record world : Type := mkWorld {
  files : gmap string node;
  clock : Z;
  builds : list string;
  installs : list string;
  console : list string
}.

(** [npm install --production --ignore-scripts] in a directory: the files
    it leaves behind and whether it succeeded. *)
Variable npm_install : string -> gmap string node -> gmap string node * bool.
(** [esbuild.build] for an entry point and the [nodePaths] option, with
    the fixed options of [buildExtensionCommand]: the text of the bundle it
    writes to [outfile], or a throw. *)
Variable esbuild_build : gmap string node -> string -> list string -> result string.

Definition getBuildDir (extName : string) (w : world) : string * world :=
  let dir := path_join [getExtensionsDir; extName; ".sc-build"] in
  if negb (existsSync (files w) dir)
  then (dir, mkWorld (<[dir := NDir (clock w) (Some [])]> (files w))
                     (clock w) (builds w) (installs w) (console w))
  else (dir, w).

Definition resolveEntryFile (fs : gmap string node) (extPath cmdName : string)
    : option string :=
  find (existsSync fs)
       [ path_join [extPath; "src"; cmdName +:+ ".tsx"];
         path_join [extPath; "src"; cmdName +:+ ".ts"];
         path_join [extPath; "src"; cmdName +:+ ".jsx"];
         path_join [extPath; "src"; cmdName +:+ ".js"];
         path_join [extPath; "src"; "index.tsx"];
         path_join [extPath; "src"; "index.ts"] ].

(** [pkg[k] && Object.keys(pkg[k]).length > 0] *)
Definition declares (pkg : json) (k : string) : result bool :=
  match jget pkg k with
  | Thrown => Thrown
  | Ok v => Ok (jtruthy v && (0 <? keys_length (jor v JNull))%nat)
  end.

Definition hasDeps (pkg : json) : result bool :=
  match declares pkg "dependencies" with
  | Thrown => Thrown
  | Ok true => Ok true
  | Ok false => declares pkg "devDependencies"
  end.

Definition ensureDepsInstalled (extPath : string) (w : world) : world :=
  let nodeModules := path_join [extPath; "node_modules"] in
  let pkgPath := path_join [extPath; "package.json"] in
  if existsSync (files w) nodeModules then w
  else if negb (existsSync (files w) pkgPath) then w
  else
    match readFileSync (files w) pkgPath with
    | Thrown => w
    | Ok source =>
        match JSON_parse source with
        | Thrown => w
        | Ok pkg =>
            match hasDeps pkg with
            | Thrown | Ok false => w
            | Ok true =>
                let '(fs', ok) := npm_install extPath (files w) in
                mkWorld fs' (clock w) (builds w) (installs w ++ [extPath])
                  (console w ++
                   [ "Installing dependencies for extension at " +:+ extPath;
                     if ok then "Dependencies installed for " +:+ extPath
                     else "Failed to install deps for " +:+ extPath ])
            end
        end
    end.

(** The block "Use cached build if entry hasn't changed": [Some text] is
    its [return], [None] falls through to the build (also when a call in
    the [try] block throws). *)
Definition cached_build (fs : gmap string node) (entryFile outFile : string)
    : option string :=
  if existsSync fs outFile then
    match statSync fs entryFile, statSync fs outFile with
    | Ok src, Ok out =>
        if (node_mtime src <? node_mtime out)%Z then
          match readFileSync fs outFile with
          | Ok text => Some text
          | Thrown => None
          end
        else None
    | _, _ => None
    end
  else None.

(** The [try] block around [esbuild.build]. *)
Definition run_esbuild (extName cmdName extPath entryFile outFile : string)
    (w : world) : option string * world :=
  let extNodeModules := path_join [extPath; "node_modules"] in
  let nodePaths := if existsSync (files w) extNodeModules then [extNodeModules] else [] in
  match esbuild_build (files w) entryFile nodePaths with
  | Thrown =>
      (None, mkWorld (files w) (clock w) (builds w ++ [entryFile]) (installs w)
                     (console w ++ ["esbuild failed for " +:+ extName +:+ "/" +:+ cmdName]))
  | Ok bundle =>
      let fs' := <[outFile := NFile (clock w) (Some bundle)]> (files w) in
      let w' := mkWorld fs' (clock w) (builds w ++ [entryFile]) (installs w) (console w) in
      if existsSync fs' outFile then
        match readFileSync fs' outFile with
        | Ok text => (Some text, w')
        | Thrown =>
            (None, mkWorld fs' (clock w) (builds w ++ [entryFile]) (installs w)
                           (console w ++ ["esbuild failed for " +:+ extName +:+ "/" +:+ cmdName]))
        end
      else (None, w')
  end.

Definition buildExtensionCommand (extName cmdName : string) (w : world)
    : option string * world :=
  let extPath := path_join [getExtensionsDir; extName] in
  if negb (existsSync (files w) extPath) then (None, w)
  else
    let w1 := ensureDepsInstalled extPath w in
    match resolveEntryFile (files w1) extPath cmdName with
    | None =>
        (None, mkWorld (files w1) (clock w1) (builds w1) (installs w1)
                 (console w1 ++
                  ["No entry file found for extension " +:+ extName +:+ "/" +:+ cmdName]))
    | Some entryFile =>
        let '(buildDir, w2) := getBuildDir extName w1 in
        let outFile := path_join [buildDir; cmdName +:+ ".js"] in
        match cached_build (files w2) entryFile outFile with
        | Some text => (Some text, w2)
        | None => run_esbuild extName cmdName extPath entryFile outFile w2
        end
    end.

End Runner.

End Runner.

(* ================================================================== *)
(** * Bundle host ([extension-runner.ts], [getExtensionBundle]) *)
(* ================================================================== *)

Module BundleHost.
Import Runner.

Section BundleHost.

Variable path_join : list string -> string.
Variable JSON_parse : string -> result json.
Variable userData : string.
Variable npm_install : string -> gmap string node -> gmap string node * bool.
Variable esbuild_build : gmap string node -> string -> list string -> result string.

(** What [getExtensionBundle] resolves to when it is not [null]. *)
Record bundle : Type := mkBundle {
  code : string;
  bundle_title : json;
  bundle_mode : json
}.

(** [c.name === cmdName]: the read throws on [null]; only a string can be
    strictly equal to the command name. *)
Definition name_is (cmdName : string) (c : json) : result bool :=
  match jget c "name" with
  | Thrown => Thrown
  | Ok (Some (JStr s)) => Ok (String.eqb s cmdName)
  | Ok _ => Ok false
  end.

(** [cmds.find((c) => c.name === cmdName)] *)
Fixpoint find_command (cmdName : string) (cmds : list json) : result (option json) :=
  match cmds with
  | [] => Ok None
  | c :: rest =>
      match name_is cmdName c with
      | Thrown => Thrown
      | Ok true => Ok (Some c)
      | Ok false => find_command cmdName rest
      end
  end.

(** [(pkg.commands || []).find(...)]: of the values a manifest can hold
    only an array has a [find] method. *)
Definition lookup_command (pkg : json) (cmdName : string) : result (option json) :=
  match jget pkg "commands" with
  | Thrown => Thrown
  | Ok commands =>
      match jor commands (JArr []) with
      | JArr cmds => find_command cmdName cmds
      | _ => Thrown
      end
  end.

(** [cmd?.k], where [cmd] is [undefined] or an element [find] returned (an
    object, so the read does not throw). *)
Definition optional_get (cmd : option json) (k : string) : option json :=
  match cmd with
  | None => None
  | Some c =>
      match jget c k with
      | Ok v => v
      | Thrown => None
      end
  end.

(** The [try] block of [getExtensionBundle] (lines 299-308): the title and
    the mode it leaves in [title] and [mode]. *)
Definition bundle_metadata (fs : gmap string node) (extName cmdName : string)
    : json * json :=
  let defaults := (JStr cmdName, JStr "view") in
  let pkgPath := path_join [getExtensionsDir path_join userData; extName; "package.json"] in
  match readFileSync fs pkgPath with
  | Thrown => defaults
  | Ok source =>
      match JSON_parse source with
      | Thrown => defaults
      | Ok pkg =>
          match lookup_command pkg cmdName with
          | Thrown => defaults
          | Ok cmd =>
              (jor (optional_get cmd "title") (JStr cmdName),
               jor (optional_get cmd "mode") (JStr "view"))
          end
      end
  end.

(** Lines 292-311.  [!code] holds for [null] and for the empty text. *)
Definition getExtensionBundle (extName cmdName : string) (w : world)
    : option bundle * world :=
  let '(built, w') :=
    buildExtensionCommand path_join JSON_parse userData npm_install esbuild_build
      extName cmdName w in
  match built with
  | None => (None, w')
  | Some text =>
      if String.eqb text "" then (None, w')
      else
        let '(t, m) := bundle_metadata (files w') extName cmdName in
        (Some (mkBundle text t m), w')
  end.

End BundleHost.

End BundleHost.

(* ================================================================== *)
(** * The [path] stub on strings ("Extension View", lines 443-457) *)
(* ================================================================== *)

(** The members of [pathStub] whose bodies use string built-ins, for
    arguments that are strings.  A string is its sequence of code units;
    the bodies compare them with ['/'] and ['.'] only. *)
Module PathStub.

(** [s.split(c)] for a one-character separator: never the empty list. *)
Fixpoint split (c : Ascii.ascii) (s : string) : list string :=
  match s with
  | EmptyString => [EmptyString]
  | String a rest =>
      if Ascii.eqb a c then EmptyString :: split c rest
      else
        match split c rest with
        | [] => [String a EmptyString]
        | piece :: pieces => String a piece :: pieces
        end
  end.

Definition slash : Ascii.ascii := Ascii.ascii_of_nat 47.
Definition dot : Ascii.ascii := Ascii.ascii_of_nat 46.

(** [Boolean(s)] for a string. *)
Definition nonempty (s : string) : bool := negb (String.eqb s "").

(** [(...parts) => parts.filter(Boolean).join('/')] *)
Definition join (parts : list string) : string :=
  String.concat "/" (List.filter nonempty parts).

(** [resolve] has the body of [join]. *)
Definition resolve (parts : list string) : string := join parts.

(** [(p) => p.split('/').slice(0, -1).join('/')] *)
Definition dirname (p : string) : string :=
  String.concat "/" (removelast (split slash p)).

(** [s.endsWith(suffix)] *)
Definition endsWith (s suffix : string) : bool :=
  (String.length suffix <=? String.length s)%nat
  && String.eqb (String.substring (String.length s - String.length suffix)
                                  (String.length suffix) s)
                suffix.

(** [(p, ext) => { const base = p.split('/').pop() || '';
      return ext && base.endsWith(ext) ? base.slice(0, -ext.length) : base; }];
    [None] is a call without [ext]. *)
Definition basename (p : string) (ext : option string) : string :=
  let base := List.last (split slash p) "" in
  match ext with
  | Some e =>
      if nonempty e && endsWith base e
      then String.substring 0 (String.length base - String.length e) base
      else base
  | None => base
  end.

(** Whether every code unit of [s] is neither ['.'] nor ['/']. *)
Fixpoint plain (s : string) : bool :=
  match s with
  | EmptyString => true
  | String a rest => negb (Ascii.eqb a dot) && negb (Ascii.eqb a slash) && plain rest
  end.

(** [(p) => { const m = p.match(/\.[^./]+$/); return m ? m[0] : ''; }]:
    the leftmost position where a dot is followed, up to the end of the
    string, by one or more code units other than ['.'] and ['/']. *)
Fixpoint extname (p : string) : string :=
  match p with
  | EmptyString => EmptyString
  | String a rest =>
      if Ascii.eqb a dot && nonempty rest && plain rest then p
      else extname rest
  end.

(** [(p) => p.startsWith('/')] *)
Definition isAbsolute (p : string) : bool :=
  match p with
  | String a _ => Ascii.eqb a slash
  | EmptyString => false
  end.

End PathStub.

(* ================================================================== *)
(** * Smart calculator ([smart-calculator.ts], lines 1-345) *)
(* ================================================================== *)

Module Calculator.
Import JS.

(** ** Unit lookup: [UNIT_CATEGORIES] and [findUnit] (lines 29-116) *)

(** [toBase] holds the number literal of the source; at run time the
    factor is the double nearest to it. *)
Record UnitDef : Type := mkUnit {
  names : list string;
  label : string;
  symbol : string;
  toBase : QArith_base.Q
}.

Record UnitCategory : Type := mkCategory {
  name : string;
  units : list UnitDef
}.

Definition dec (numerator : Z) (denominator : positive) : QArith_base.Q :=
  QArith_base.Qmake numerator denominator.

Definition UNIT_CATEGORIES : list UnitCategory :=
  [ mkCategory "Length"
      [ mkUnit ["km"; "kilometer"; "kilometers"] "Kilometers" "km" (dec 1000 1);
        mkUnit ["m"; "meter"; "meters"; "metre"; "metres"] "Meters" "m" (dec 1 1);
        mkUnit ["cm"; "centimeter"; "centimeters"] "Centimeters" "cm" (dec 1 100);
        mkUnit ["mm"; "millimeter"; "millimeters"] "Millimeters" "mm" (dec 1 1000);
        mkUnit ["mi"; "mile"; "miles"] "Miles" "mi" (dec 1609344 1000);
        mkUnit ["ft"; "foot"; "feet"] "Feet" "ft" (dec 3048 10000);
        mkUnit ["in"; "inch"; "inches"] "Inches" "in" (dec 254 10000);
        mkUnit ["yd"; "yard"; "yards"] "Yards" "yd" (dec 9144 10000) ];
    mkCategory "Weight"
      [ mkUnit ["kg"; "kilogram"; "kilograms"] "Kilograms" "kg" (dec 1000 1);
        mkUnit ["g"; "gram"; "grams"] "Grams" "g" (dec 1 1);
        mkUnit ["mg"; "milligram"; "milligrams"] "Milligrams" "mg" (dec 1 1000);
        mkUnit ["lb"; "lbs"; "pound"; "pounds"] "Pounds" "lb" (dec 453592 1000);
        mkUnit ["oz"; "ounce"; "ounces"] "Ounces" "oz" (dec 283495 10000);
        mkUnit ["ton"; "tons"; "tonne"; "tonnes"] "Tonnes" "t" (dec 1000000 1) ];
    mkCategory "Data"
      [ mkUnit ["b"; "byte"; "bytes"] "Bytes" "B" (dec 1 1);
        mkUnit ["kb"; "kilobyte"; "kilobytes"] "Kilobytes" "KB" (dec 1024 1);
        mkUnit ["mb"; "megabyte"; "megabytes"] "Megabytes" "MB" (dec (1024 ^ 2) 1);
        mkUnit ["gb"; "gigabyte"; "gigabytes"] "Gigabytes" "GB" (dec (1024 ^ 3) 1);
        mkUnit ["tb"; "terabyte"; "terabytes"] "Terabytes" "TB" (dec (1024 ^ 4) 1);
        mkUnit ["pb"; "petabyte"; "petabytes"] "Petabytes" "PB" (dec (1024 ^ 5) 1) ];
    mkCategory "Volume"
      [ mkUnit ["l"; "liter"; "liters"; "litre"; "litres"] "Liters" "L" (dec 1 1);
        mkUnit ["ml"; "milliliter"; "milliliters"] "Milliliters" "mL" (dec 1 1000);
        mkUnit ["gal"; "gallon"; "gallons"] "Gallons" "gal" (dec 378541 100000);
        mkUnit ["qt"; "quart"; "quarts"] "Quarts" "qt" (dec 946353 1000000);
        mkUnit ["pt"; "pint"; "pints"] "Pints" "pt" (dec 473176 1000000);
        mkUnit ["cup"; "cups"] "Cups" "cup" (dec 236588 1000000);
        mkUnit ["floz"; "fl oz"] "Fluid Ounces" "fl oz" (dec 295735 10000000) ];
    mkCategory "Time"
      [ mkUnit ["ms"; "millisecond"; "milliseconds"] "Milliseconds" "ms" (dec 1 1000);
        mkUnit ["s"; "sec"; "second"; "seconds"] "Seconds" "s" (dec 1 1);
        mkUnit ["min"; "minute"; "minutes"] "Minutes" "min" (dec 60 1);
        mkUnit ["hr"; "hour"; "hours"] "Hours" "hr" (dec 3600 1);
        mkUnit ["day"; "days"] "Days" "days" (dec 86400 1);
        mkUnit ["week"; "weeks"] "Weeks" "weeks" (dec 604800 1) ];
    mkCategory "Speed"
      [ mkUnit ["mph"] "Miles/hour" "mph" (dec 44704 100000);
        mkUnit ["kmh"; "kph"; "km/h"] "Kilometers/hour" "km/h" (dec 277778 1000000);
        mkUnit ["m/s"; "mps"] "Meters/second" "m/s" (dec 1 1);
        mkUnit ["knot"; "knots"; "kn"] "Knots" "kn" (dec 514444 1000000) ] ].

(** [unit.names.includes(lower)] *)
Definition includes (xs : list string) (x : string) : bool :=
  existsb (String.eqb x) xs.

(** The inner loop of [findUnit] over the units of one category. *)
Fixpoint find_in_units (cat : UnitCategory) (us : list UnitDef) (lower : string)
  : option (UnitCategory * UnitDef) :=
  match us with
  | [] => None
  | u :: rest =>
      if includes (names u) lower then Some (cat, u)
      else find_in_units cat rest lower
  end.

(** The outer loop of [findUnit]. *)
Fixpoint find_in_categories (cats : list UnitCategory) (lower : string)
  : option (UnitCategory * UnitDef) :=
  match cats with
  | [] => None
  | cat :: rest =>
      match find_in_units cat (units cat) lower with
      | Some found => Some found
      | None => find_in_categories rest lower
      end
  end.

Section Units.

(** [String.prototype.toLowerCase] *)
Variable toLowerCase : string -> string.

Definition findUnit (unit_name : string) : option (UnitCategory * UnitDef) :=
  find_in_categories UNIT_CATEGORIES (toLowerCase unit_name).

(** ** Temperature: [TEMP_UNITS] and [convertTemp] (lines 100-137) *)

Definition TEMP_UNITS : list (string * string) :=
  [ ("c", "Celsius"); ("celsius", "Celsius");
    ("f", "Fahrenheit"); ("fahrenheit", "Fahrenheit");
    ("k", "Kelvin"); ("kelvin", "Kelvin") ].

Fixpoint own_label (key : string) (table : list (string * string)) : option string :=
  match table with
  | [] => None
  | (k, v) :: rest => if String.eqb key k then Some v else own_label key rest
  end.

(** Whether [TEMP_UNITS[key]] is truthy: an own entry (a non-empty label)
    or a member inherited from [Object.prototype]. *)
Definition temp_known (key : string) : bool :=
  match own_label key TEMP_UNITS with
  | Some v => negb (String.eqb v "")
  | None => existsb (String.eqb key) object_prototype_keys
  end.

(** [TEMP_UNITS[f] ? f[0] : null] *)
Definition temp_key (f : string) : option Ascii.ascii :=
  if temp_known f then
    match f with
    | String c _ => Some c
    | EmptyString => None
    end
  else None.

(** Doubles and their arithmetic; [lit q] is the double a literal
    denotes. *)
Variable num : Type.
Variable add sub mul div : num -> num -> num.
Variable lit : QArith_base.Q -> num.

Definition letter_c : Ascii.ascii := Ascii.ascii_of_nat 99.
Definition letter_f : Ascii.ascii := Ascii.ascii_of_nat 102.

Definition convertTemp (value : num) (from to : string) : option num :=
  let f := toLowerCase from in
  let t := toLowerCase to in
  match temp_key f, temp_key t with
  | Some fromKey, Some toKey =>
      if Ascii.eqb fromKey toKey then None
      else
        let celsius :=
          if Ascii.eqb fromKey letter_c then value
          else if Ascii.eqb fromKey letter_f
               then div (mul (sub value (lit (dec 32 1))) (lit (dec 5 1))) (lit (dec 9 1))
               else sub value (lit (dec 27315 100)) in
        if Ascii.eqb toKey letter_c then Some celsius
        else if Ascii.eqb toKey letter_f
             then Some (add (div (mul celsius (lit (dec 9 1))) (lit (dec 5 1)))
                            (lit (dec 32 1)))
             else Some (add celsius (lit (dec 27315 100)))
  | _, _ => None
  end.

End Units.

(** ** The expression parser (lines 211-283)

    The parser state [expr], [pos] is kept as the code units of [expr]
    from [pos] on: [expr[pos]] is the head, [pos++] drops it, and
    [pos === expr.length] holds for the empty list.  A string is the list
    of its UTF-16 code units. *)

Definition units_of (s : string) : list N :=
  map Ascii.N_of_ascii (list_ascii_of_string s).

Definition c_plus : N := 43.
Definition c_minus : N := 45.
Definition c_star : N := 42.
Definition c_slash : N := 47.
Definition c_percent : N := 37.
Definition c_caret : N := 94.
Definition c_lparen : N := 40.
Definition c_rparen : N := 41.
Definition c_dot : N := 46.

(** The code units [\s] matches: white space and line terminators. *)
Definition is_space (c : N) : bool :=
  existsb (N.eqb c)
    [ 9; 10; 11; 12; 13; 32; 160; 5760; 8232; 8233; 8239; 8287; 12288; 65279 ]%N
  || ((8192 <=? c) && (c <=? 8202))%N.

(** [expr[pos] >= '0' && expr[pos] <= '9' || expr[pos] === '.'] *)
Definition num_char (c : N) : bool :=
  ((48 <=? c) && (c <=? 57) || (c =? c_dot))%N.

(** The [while] loop of [parseAtom]: the code units consumed and the
    rest. *)
Fixpoint scan_number (input : list N) : list N * list N :=
  match input with
  | c :: rest =>
      if num_char c then
        let '(digits, rest') := scan_number rest in (c :: digits, rest')
      else ([], input)
  | [] => ([], [])
  end.

Section Parser.

Variable num : Type.
Variable add sub mul div rem pow : num -> num -> num.
Variable neg : num -> num.
(** [parseFloat] on the code units of a string. *)
Variable parseFloat : list N -> num.

(** A parsing function returns a number and moves [pos], or throws
    [Error('Unexpected character')]; [OutOfFuel] marks a run the model cut
    short. *)
Inductive parsed : Type :=
| Value (v : num) (rest : list N)
| Unexpected
| OutOfFuel.

Section Level.

(** [parseAddSub], as called for a parenthesis. *)
Variable parseAddSub_inner : list N -> parsed.

Definition parseAtom (input : list N) : parsed :=
  match input with
  | c :: rest =>
      if (c =? c_lparen)%N then
        match parseAddSub_inner rest with
        | Value result rest' =>
            match rest' with
            | c' :: rest'' =>
                if (c' =? c_rparen)%N then Value result rest'' else Value result rest'
            | [] => Value result rest'
            end
        | failure => failure
        end
      else
        match scan_number input with
        | ([], _) => Unexpected
        | (digits, rest') => Value (parseFloat digits) rest'
        end
  | [] => Unexpected
  end.

Fixpoint parseUnary (input : list N) : parsed :=
  match input with
  | c :: rest =>
      if (c =? c_minus)%N then
        match parseUnary rest with
        | Value v rest' => Value (neg v) rest'
        | failure => failure
        end
      else if (c =? c_plus)%N then parseUnary rest
      else parseAtom input
  | [] => parseAtom input
  end.

(** The [while] loop of [parsePower]; a turn of a loop takes one unit of
    fuel. *)
Fixpoint power_loop (fuel : nat) (base : num) (input : list N) : parsed :=
  let turn rest :=
    match fuel with
    | O => OutOfFuel
    | S fuel' =>
        match parseUnary rest with
        | Value exp rest' => power_loop fuel' (pow base exp) rest'
        | failure => failure
        end
    end in
  match input with
  | c :: rest =>
      if (c =? c_caret)%N then turn rest
      else if (c =? c_star)%N then
        match rest with
        | c' :: rest' => if (c' =? c_star)%N then turn rest' else Value base input
        | [] => Value base input
        end
      else Value base input
  | [] => Value base input
  end.

Definition parsePower (fuel : nat) (input : list N) : parsed :=
  match parseUnary input with
  | Value base rest => power_loop fuel base rest
  | failure => failure
  end.

Fixpoint muldiv_loop (fuel : nat) (lhs : num) (input : list N) : parsed :=
  match input with
  | c :: rest =>
      if ((c =? c_star) || (c =? c_slash) || (c =? c_percent))%N then
        match fuel with
        | O => OutOfFuel
        | S fuel' =>
            match parsePower fuel' rest with
            | Value rhs rest' =>
                muldiv_loop fuel'
                  (if (c =? c_star)%N then mul lhs rhs
                   else if (c =? c_slash)%N then div lhs rhs
                   else rem lhs rhs)
                  rest'
            | failure => failure
            end
        end
      else Value lhs input
  | [] => Value lhs input
  end.

Definition parseMulDiv (fuel : nat) (input : list N) : parsed :=
  match parsePower fuel input with
  | Value lhs rest => muldiv_loop fuel lhs rest
  | failure => failure
  end.

Fixpoint addsub_loop (fuel : nat) (lhs : num) (input : list N) : parsed :=
  match input with
  | c :: rest =>
      if ((c =? c_plus) || (c =? c_minus))%N then
        match fuel with
        | O => OutOfFuel
        | S fuel' =>
            match parseMulDiv fuel' rest with
            | Value rhs rest' =>
                addsub_loop fuel'
                  (if (c =? c_plus)%N then add lhs rhs else sub lhs rhs)
                  rest'
            | failure => failure
            end
        end
      else Value lhs input
  | [] => Value lhs input
  end.

Definition parseAddSub_level (fuel : nat) (input : list N) : parsed :=
  match parseMulDiv fuel input with
  | Value lhs rest => addsub_loop fuel lhs rest
  | failure => failure
  end.

End Level.

(** [parseAddSub]: a unit of fuel for each nesting of parentheses. *)
Fixpoint parseAddSub (fuel : nat) (input : list N) : parsed :=
  match fuel with
  | O => OutOfFuel
  | S fuel' => parseAddSub_level (parseAddSub fuel') fuel' input
  end.

(** What [parseExpression] does: it returns a number, returns [null], or
    lets the parser's exception through. *)
Inductive answer : Type :=
| Number (v : num)
| Null
| ThrowsUnexpected
| Unfinished.

(** [input.replace(/\s+/g, '')] *)
Definition strip_spaces (input : list N) : list N :=
  List.filter (fun c => negb (is_space c)) input.

Definition parseExpression (input : list N) : answer :=
  let expr := strip_spaces input in
  match parseAddSub (S (length expr)) expr with
  | Value result [] => Number result
  | Value _ (_ :: _) => Null
  | Unexpected => ThrowsUnexpected
  | OutOfFuel => Unfinished
  end.

End Parser.

(** ** [numberToWords] (lines 300-329) *)

Definition ones : list string :=
  [ ""; "One"; "Two"; "Three"; "Four"; "Five"; "Six"; "Seven"; "Eight"; "Nine";
    "Ten"; "Eleven"; "Twelve"; "Thirteen"; "Fourteen"; "Fifteen"; "Sixteen";
    "Seventeen"; "Eighteen"; "Nineteen" ].

Definition tens : list string :=
  [ ""; ""; "Twenty"; "Thirty"; "Forty"; "Fifty"; "Sixty"; "Seventy"; "Eighty";
    "Ninety" ].

Definition scales : list string := [ ""; " Thousand"; " Million"; " Billion" ].

(** [xs[i]] in a string concatenation: a missing element reads
    "undefined". *)
Definition word_at (xs : list string) (i : Z) : string :=
  nth (Z.to_nat i) xs "undefined".

(** The first three branches of [chunk], which is all [chunk(num % 100)]
    can reach. *)
Definition chunk_below_100 (n : Z) : string :=
  if (n =? 0)%Z then ""
  else if (n <? 20)%Z then word_at ones n
  else word_at tens (n / 10)
       +:+ (if (n mod 10 =? 0)%Z then "" else " " +:+ word_at ones (n mod 10)).

(** [chunk], for a non-negative integer. *)
Definition chunk (n : Z) : string :=
  if (n <? 100)%Z then chunk_below_100 n
  else word_at ones (n / 100) +:+ " Hundred"
       +:+ (if (n mod 100 =? 0)%Z then "" else " " +:+ chunk_below_100 (n mod 100)).

(** The [while (remaining > 0)] loop; [None] marks a run the model cut
    short. *)
Fixpoint words_loop (fuel : nat) (remaining : Z) (i : nat) (parts : list string)
  : option (list string) :=
  if (0 <? remaining)%Z then
    match fuel with
    | O => None
    | S fuel' =>
        let part := (remaining mod 1000)%Z in
        let parts' :=
          if (0 <? part)%Z then (chunk part +:+ nth i scales "undefined") :: parts
          else parts in
        words_loop fuel' (remaining / 1000) (S i) parts'
    end
  else Some parts.

(** [Number.isInteger(n)], with the integer. *)
Definition integer_value (n : number) : option Z :=
  match n with
  | Finite q =>
      if (QArith_base.Qnum q mod Zpos (QArith_base.Qden q) =? 0)%Z
      then Some (QArith_base.Qnum q / Zpos (QArith_base.Qden q))%Z
      else None
  | _ => None
  end.

(** The guard of the first line bounds the loop by four turns. *)
Definition numberToWords (n : number) : option string :=
  match integer_value n with
  | None => Some ""
  | Some z =>
      if (999999999999 <? Z.abs z)%Z then Some ""
      else if (Z.abs z =? 0)%Z then Some "Zero"
      else
        match words_loop 4 (Z.abs z) 0 [] with
        | Some parts =>
            Some ((if (z <? 0)%Z then "Negative " else "") +:+ String.concat " " parts)
        | None => None
        end
  end.

End Calculator.

(* ================================================================== *)
(** * The stub members that call built-ins ("Extension View", lines 443-558) *)
(* ================================================================== *)

(** The members of the stub tables that [Loader] lists as [FForeign]
    functions named after their place in the table: what their bodies do,
    for every argument list.  The built-ins and globals a body uses are
    the fields of [platform]. *)
Module StubBodies.
Import JS Loader.

(** What a conversion to a string yields: the string, or what the
    conversion throws. *)
Inductive converted : Type :=
| Text (s : string)
| Raises (e : jsval).

Definition ReferenceError (msg : string) : jsval :=
  VObj [("name", VStr "ReferenceError"); ("message", VStr msg)].

Definition RangeError (msg : string) : jsval :=
  VObj [("name", VStr "RangeError"); ("message", VStr msg)].

(** The classes of the tables with the names they carry: [EventEmitter],
    the four [class {}] of [stream], and the class of [string_decoder]. *)
Definition class_stubs : list (string * string) :=
  [ ("eventsStub.EventEmitter", "EventEmitter");
    ("stream.Readable", "Readable");
    ("stream.Writable", "Writable");
    ("stream.Transform", "Transform");
    ("stream.PassThrough", "PassThrough");
    ("string_decoder.StringDecoder", "StringDecoder") ].

Fixpoint class_name (name : string) (classes : list (string * string)) : option string :=
  match classes with
  | [] => None
  | (n, c) :: rest => if String.eqb name n then Some c else class_name name rest
  end.

(** [typeof v === 'string'] *)
Definition is_string (v : jsval) : bool :=
  match v with VStr _ => true | _ => false end.

(** Calling a class as a function. *)
Definition class_without_new (c : string) : jsval :=
  TypeError ("Class constructor " +:+ c +:+ " cannot be invoked without 'new'").

Definition not_a_function (what : string) : jsval :=
  TypeError (what +:+ " is not a function").

Definition not_a_constructor : jsval := TypeError "not a constructor".

(** The methods of [class EventEmitter] (lines 480-488) and of the
    [StringDecoder] class (line 556), as a property read of an instance
    finds them. *)
Definition EventEmitter_prototype : list (string * jsval) :=
  [ ("on", foreign "EventEmitter.prototype.on");
    ("off", foreign "EventEmitter.prototype.off");
    ("once", foreign "EventEmitter.prototype.once");
    ("emit", foreign "EventEmitter.prototype.emit");
    ("addListener", foreign "EventEmitter.prototype.addListener");
    ("removeListener", foreign "EventEmitter.prototype.removeListener");
    ("removeAllListeners", foreign "EventEmitter.prototype.removeAllListeners") ].

Definition StringDecoder_prototype : list (string * jsval) :=
  [ ("write", foreign "StringDecoder.prototype.write");
    ("end", foreign "StringDecoder.prototype.end") ].

(** The methods whose body is [return this]. *)
Definition returns_this : list string :=
  [ "EventEmitter.prototype.on"; "EventEmitter.prototype.off";
    "EventEmitter.prototype.once"; "EventEmitter.prototype.addListener";
    "EventEmitter.prototype.removeListener";
    "EventEmitter.prototype.removeAllListeners" ].

(** The function values found in a value, members of members included. *)
Fixpoint functions_of (v : jsval) : list fnref :=
  let members :=
    fix members (props : list (string * jsval)) : list fnref :=
      match props with
      | [] => []
      | (_, x) :: rest => functions_of x ++ members rest
      end in
  match v with
  | VObj props => members props
  | VFun f props => f :: members props
  | VArr items =>
      (fix elements (xs : list jsval) : list fnref :=
         match xs with
         | [] => []
         | x :: rest => functions_of x ++ elements rest
         end) items
  | _ => []
  end.

(** The built-ins and globals the bodies use, as they are at a call. *)
Record platform : Type := mkPlatform {
  (** [ToString] of a value that is no string, boolean, [undefined] or
      [null] *)
  ToString_other : jsval -> converted;
  (** the call of a function that is none of the loader's: a function of
      the platform or of the bundle *)
  foreign_call : string -> list jsval -> outcome jsval;
  (** [new f(...args)] for such a function *)
  foreign_construct : string -> list jsval -> outcome jsval;
  (** the rest of a [path] stub's body once its first argument, which is
      no string, has supplied the method the body calls ([split], [match],
      [startsWith]), and the rest of [basename] for a string and an [ext]
      that is truthy and no string *)
  duck_typed : string -> list jsval -> outcome jsval;
  (** [new URL(u)] *)
  new_URL : jsval -> outcome jsval;
  (** [new URLSearchParams(x)] *)
  new_URLSearchParams : jsval -> outcome jsval;
  (** [Object.fromEntries(x)] *)
  Object_fromEntries : jsval -> outcome jsval;
  (** [x.toString()] of a [URLSearchParams] *)
  URLSearchParams_toString : jsval -> outcome jsval;
  (** [new Uint8Array(n)] *)
  new_Uint8Array : jsval -> outcome jsval;
  (** [JSON.stringify(o)] *)
  JSON_stringify : jsval -> outcome jsval;
  (** [new TextEncoder().encode(s)] *)
  TextEncoder_encode : string -> list Z;
  (** [Math.random().toString(36).slice(2)] *)
  Math_random_text : string;
  (** [crypto.randomUUID?.()] *)
  crypto_randomUUID : outcome jsval;
  (** the global [Buffer]; [None] when there is no such binding *)
  global_Buffer : option jsval;
  (** the clock read by [new Date()] *)
  now : Z
}.

Section Platform.

Variable host : platform.

(** ** String conversion *)

Definition ToString (v : jsval) : converted :=
  match v with
  | VUndefined => Text "undefined"
  | VNull => Text "null"
  | VBool true => Text "true"
  | VBool false => Text "false"
  | VStr s => Text s
  | _ => ToString_other host v
  end.

(** An element in [Array.prototype.join]: [undefined] and [null] count as
    the empty string. *)
Definition join_element (v : jsval) : converted :=
  match v with
  | VUndefined | VNull => Text ""
  | _ => ToString v
  end.

(** [items.join(sep)]: the elements are converted from left to right. *)
Fixpoint Array_join (sep : string) (items : list jsval) : converted :=
  match items with
  | [] => Text ""
  | v :: rest =>
      match join_element v with
      | Raises e => Raises e
      | Text s =>
          match rest with
          | [] => Text s
          | _ :: _ =>
              match Array_join sep rest with
              | Raises e => Raises e
              | Text t => Text (s +:+ sep +:+ t)
              end
          end
      end
  end.

Definition as_string (c : converted) : outcome jsval :=
  match c with
  | Text s => Returns (VStr s)
  | Raises e => Throws e
  end.

(** ** [pathStub] (lines 443-457) *)

(** [(...parts) => parts.filter(Boolean).join('/')], the body of [join]
    and of [resolve]. *)
Definition pathStub_join (args : list jsval) : outcome jsval :=
  as_string (Array_join "/" (List.filter truthy args)).

(** [p.method(...)] for a [p] that is no string: the read of the member
    throws on [undefined] and [null]; a member that is no function cannot
    be called. *)
Definition without_string (name method : string) (args : list jsval) : outcome jsval :=
  match get_prop (arg 0 args) method with
  | Throws e => Throws e
  | Returns m =>
      if is_function m then duck_typed host name args
      else Throws (not_a_function ("p." +:+ method))
  end.

(** [(p) => p.split('/').slice(0, -1).join('/')] *)
Definition pathStub_dirname (args : list jsval) : outcome jsval :=
  match arg 0 args with
  | VStr p => Returns (VStr (PathStub.dirname p))
  | _ => without_string "pathStub.dirname" "split" args
  end.

(** [(p, ext) => { const base = p.split('/').pop() || '';
      return ext && base.endsWith(ext) ? base.slice(0, -ext.length) : base; }] *)
Definition pathStub_basename (args : list jsval) : outcome jsval :=
  match arg 0 args with
  | VStr p =>
      match arg 1 args with
      | VStr ext => Returns (VStr (PathStub.basename p (Some ext)))
      | ext =>
          if truthy ext then duck_typed host "pathStub.basename" args
          else Returns (VStr (PathStub.basename p None))
      end
  | _ => without_string "pathStub.basename" "split" args
  end.

(** [(p) => { const m = p.match(/\.[^./]+$/); return m ? m[0] : ''; }] *)
Definition pathStub_extname (args : list jsval) : outcome jsval :=
  match arg 0 args with
  | VStr p => Returns (VStr (PathStub.extname p))
  | _ => without_string "pathStub.extname" "match" args
  end.

(** [(p) => p.startsWith('/')] *)
Definition pathStub_isAbsolute (args : list jsval) : outcome jsval :=
  match arg 0 args with
  | VStr p => Returns (VBool (PathStub.isAbsolute p))
  | _ => without_string "pathStub.isAbsolute" "startsWith" args
  end.

(** ** [cryptoStub] (lines 471-477) *)

(** [() => crypto.randomUUID?.() || Math.random().toString(36).slice(2)] *)
Definition cryptoStub_randomUUID (args : list jsval) : outcome jsval :=
  match crypto_randomUUID host with
  | Throws e => Throws e
  | Returns uuid => Returns (js_or uuid (VStr (Math_random_text host)))
  end.

(** [() => ({ update: () => ({ digest: () => Math.random()... }) })] *)
Definition cryptoStub_createHash (args : list jsval) : outcome jsval :=
  Returns (VObj [("update", foreign "cryptoStub.createHash.update")]).

Definition createHash_update (args : list jsval) : outcome jsval :=
  Returns (VObj [("digest", foreign "cryptoStub.createHash.digest")]).

Definition createHash_digest (args : list jsval) : outcome jsval :=
  Returns (VStr (Math_random_text host)).

(** [(n) => new Uint8Array(n)], the body of [cryptoStub.randomBytes] and
    of [Buffer.alloc]. *)
Definition typed_array_of (args : list jsval) : outcome jsval :=
  new_Uint8Array host (arg 0 args).

(** ** [bufferStub] (lines 507-514) *)

(** [(s) => (typeof s === 'string' ? new TextEncoder().encode(s)
                                   : new Uint8Array())] *)
Definition Buffer_from (args : list jsval) : outcome jsval :=
  match arg 0 args with
  | VStr s => Returns (VBytes (TextEncoder_encode host s))
  | _ => Returns (VBytes [])
  end.

(** ** [utilStub] (lines 516-522) *)

(** [(...args) => args.join(' ')] *)
Definition utilStub_format (args : list jsval) : outcome jsval :=
  as_string (Array_join " " args).

(** [(o) => JSON.stringify(o)] *)
Definition utilStub_inspect (args : list jsval) : outcome jsval :=
  JSON_stringify host (arg 0 args).

(** ** [url] and [querystring] (lines 538-539) *)

(** [(u) => new URL(u)] *)
Definition url_parse (args : list jsval) : outcome jsval :=
  new_URL host (arg 0 args).

(** [(s) => Object.fromEntries(new URLSearchParams(s))] *)
Definition querystring_parse (args : list jsval) : outcome jsval :=
  match new_URLSearchParams host (arg 0 args) with
  | Throws e => Throws e
  | Returns params => Object_fromEntries host params
  end.

(** [(o) => new URLSearchParams(o).toString()] *)
Definition querystring_stringify (args : list jsval) : outcome jsval :=
  match new_URLSearchParams host (arg 0 args) with
  | Throws e => Throws e
  | Returns params => URLSearchParams_toString host params
  end.

(** ** The classes (lines 480-488, 537, 556) *)

(** A method of a class stub, called on [this]. *)
Definition prototype_method (name : string) (this : jsval) (args : list jsval)
  : option (outcome jsval) :=
  if existsb (String.eqb name) returns_this then Some (Returns this)
  else if String.eqb name "EventEmitter.prototype.emit" then Some (Returns (VBool false))
  else if String.eqb name "StringDecoder.prototype.write"
       then Some (as_string (ToString (arg 0 args)))
  else if String.eqb name "StringDecoder.prototype.end" then Some (Returns (VStr ""))
  else None.

(** ** The call of a loader function by its name *)

(** The arrow functions of the tables (but [execSync]) and the classes
    called as functions. *)
Definition body_of (name : string) : option (list jsval -> outcome jsval) :=
  if String.eqb name "pathStub.join" then Some pathStub_join
  else if String.eqb name "pathStub.resolve" then Some pathStub_join
  else if String.eqb name "pathStub.dirname" then Some pathStub_dirname
  else if String.eqb name "pathStub.basename" then Some pathStub_basename
  else if String.eqb name "pathStub.extname" then Some pathStub_extname
  else if String.eqb name "pathStub.isAbsolute" then Some pathStub_isAbsolute
  else if String.eqb name "cryptoStub.randomUUID" then Some cryptoStub_randomUUID
  else if String.eqb name "cryptoStub.createHash" then Some cryptoStub_createHash
  else if String.eqb name "cryptoStub.createHash.update" then Some createHash_update
  else if String.eqb name "cryptoStub.createHash.digest" then Some createHash_digest
  else if String.eqb name "cryptoStub.randomBytes" then Some typed_array_of
  else if String.eqb name "bufferStub.Buffer.from" then Some Buffer_from
  else if String.eqb name "bufferStub.Buffer.alloc" then Some typed_array_of
  else if String.eqb name "utilStub.format" then Some utilStub_format
  else if String.eqb name "utilStub.inspect" then Some utilStub_inspect
  else if String.eqb name "url.parse" then Some url_parse
  else if String.eqb name "querystring.parse" then Some querystring_parse
  else if String.eqb name "querystring.stringify" then Some querystring_stringify
  else match class_name name class_stubs with
       | Some c => Some (fun _ => Throws (class_without_new c))
       | None => None
       end.

(** [f.call(this, ...args)] for the function named [name], [execSync]
    apart. *)
Definition loader_base (name : string) (this : jsval) (args : list jsval)
  : outcome jsval :=
  match prototype_method name this args with
  | Some result => result
  | None =>
      match body_of name with
      | Some body => body args
      | None => foreign_call host name args
      end
  end.

Definition execSync_name : string := "childProcessStub.execSync".

(** [() => Buffer.from('')], with the global [Buffer] (line 495).  Were
    [Buffer.from] this very function, the call would end only by
    exhausting the stack. *)
Definition childProcessStub_execSync : outcome jsval :=
  match global_Buffer host with
  | None => Throws (ReferenceError "Buffer is not defined")
  | Some buffer =>
      match get_prop buffer "from" with
      | Throws e => Throws e
      | Returns (VFun (FForeign name) _) =>
          if String.eqb name execSync_name
          then Throws (RangeError "Maximum call stack size exceeded")
          else loader_base name buffer [VStr ""]
      | Returns (VFun (FStub f) _) =>
          stub_body (now host) (fun _ => Returns VUndefined) f [VStr ""]
      | Returns _ => Throws (not_a_function "Buffer.from")
      end
  end.

Definition loader_call (name : string) (this : jsval) (args : list jsval)
  : outcome jsval :=
  if String.eqb name execSync_name then childProcessStub_execSync
  else loader_base name this args.

(** [f(...args)]: a method called this way has [this === undefined]. *)
Definition loader_foreign (name : string) (args : list jsval) : outcome jsval :=
  loader_call name VUndefined args.

(** The names of the functions the loader writes. *)
Definition loader_defined (name : string) : bool :=
  String.eqb name execSync_name
  || match body_of name with Some _ => true | None => false end
  || match prototype_method name VUndefined [] with Some _ => true | None => false end.

(** A function the loader writes: one of [stub_fn] or one with a body
    above. *)
Definition loader_function (r : fnref) : bool :=
  match r with
  | FStub _ => true
  | FForeign name => loader_defined name
  end.

(** [callee(...args)] *)
Definition call (callee : jsval) (args : list jsval) : outcome jsval :=
  call_value loader_foreign (now host) callee args.

(** [obj.k(...args)]: the function is called on [obj]. *)
Definition call_method (obj : jsval) (k : string) (args : list jsval) : outcome jsval :=
  match get_prop obj k with
  | Throws e => Throws e
  | Returns (VFun (FForeign name) _) => loader_call name obj args
  | Returns callee => call callee args
  end.

(** [new callee(...args)]: a class stub has no constructor of its own, so
    an instance is made whatever the arguments; the arrow functions and the
    methods of the tables cannot be constructed. *)
Definition construct (callee : jsval) (args : list jsval) : outcome jsval :=
  match callee with
  | VFun (FForeign name) _ =>
      if String.eqb name "eventsStub.EventEmitter"
      then Returns (VObj EventEmitter_prototype)
      else if String.eqb name "string_decoder.StringDecoder"
      then Returns (VObj StringDecoder_prototype)
      else match class_name name class_stubs with
           | Some _ => Returns (VObj [])
           | None =>
               if loader_defined name then Throws not_a_constructor
               else foreign_construct host name args
           end
  | _ => Throws not_a_constructor
  end.

Section Table.

(** As in [Loader]: the value of the global [k] when the module is
    initialised. *)
Variable builtin : string -> jsval.

(** [require(module)] for a module of the table. *)
Definition stub_module (module : string) : jsval :=
  read_props module (nodeBuiltinStubs builtin).

(** [require(module).member] *)
Definition stub_member (module member : string) : outcome jsval :=
  get_prop (stub_module module) member.

(** [require(module).member(...args)] *)
Definition stub_call (module member : string) (args : list jsval) : outcome jsval :=
  call_method (stub_module module) member args.

(** [new (require(module).member)(...args)] *)
Definition stub_new (module member : string) (args : list jsval) : outcome jsval :=
  match stub_member module member with
  | Throws e => Throws e
  | Returns callee => construct callee args
  end.

End Table.

End Platform.

End StubBodies.

(* ================================================================== *)
(** * Properties of the command lifecycle controller *)
(* ================================================================== *)

Module LifecycleProps.
Import JS Lifecycle.

(** ** Navigation *)

Lemma view_eta (v : view) :
  mkView (mode v) (detectedNoView v) (navStack v) (calls v) (closes v) = v.
Proof. destruct v; reflexivity. Qed.

Lemma pop_push (e : jsval) (v : view) : pop (push e v) = v.
Proof.
  unfold pop, push; simpl.
  rewrite length_app; simpl.
  replace (0 <? length (navStack v) + 1)%nat with true
    by (symmetry; apply Nat.ltb_lt; lia).
  rewrite removelast_last. apply view_eta.
Qed.

Lemma nav_run_app (ops1 ops2 : list nav_op) (v : view) :
  nav_run (ops1 ++ ops2) v = nav_run ops2 (nav_run ops1 v).
Proof. apply fold_left_app. Qed.

Lemma nav_run_pushes (frames : list jsval) (v : view) :
  nav_run (map Push frames) v =
  mkView (mode v) (detectedNoView v) (navStack v ++ frames) (calls v) (closes v).
Proof.
  revert v. induction frames as [|e frames IH]; intros v; simpl.
  - rewrite app_nil_r. symmetry. apply view_eta.
  - unfold nav_run in IH. rewrite IH. unfold push; simpl.
    rewrite <- app_assoc. reflexivity.
Qed.

Lemma push_all_pop_all (frames : list jsval) (v : view) :
  nav_run (map Push frames ++ repeat Pop (length frames)) v = v.
Proof.
  revert v. induction frames as [|e frames IH] using rev_ind; intros v.
  - reflexivity.
  - rewrite map_app, length_app. simpl map. simpl length.
    replace (length frames + 1)%nat with (S (length frames)) by lia.
    simpl repeat. rewrite <- app_assoc. simpl app.
    rewrite nav_run_app.
    change (Push e :: Pop :: repeat Pop (length frames))
      with ([Push e; Pop] ++ repeat Pop (length frames)).
    rewrite nav_run_app.
    set (w := nav_run (map Push frames) v).
    change (nav_run [Push e; Pop] w) with (pop (push e w)).
    rewrite pop_push. subst w. rewrite <- nav_run_app. apply IH.
Qed.

(** C6.  [push] appends a frame to the navigation stack and [pop] removes
    the top frame of a non-empty stack, neither closing the session; [pop]
    on an empty stack leaves it empty and calls [onClose] once.  Hence,
    from any state, pushing N frames and popping N times gives the state
    back; in a session opened with an empty stack these 2N operations
    leave the stack empty with no close, and the (N+1)-th pop closes. *)
Theorem navigation_push_pop :
  forall (m : string) (d : bool) (stack frames : list jsval) (e : jsval) (c k : nat),
    push e (mkView m d stack c k) = mkView m d (stack ++ [e]) c k
    /\ pop (mkView m d (stack ++ [e]) c k) = mkView m d stack c k
    /\ pop (mkView m d [] c k) = mkView m d [] c (S k)
    /\ nav_run (map Push frames ++ repeat Pop (length frames)) (mkView m d stack c k)
       = mkView m d stack c k
    /\ (let v := nav_run (map Push frames ++ repeat Pop (length frames)) (open_view m) in
        navStack v = [] /\ closes v = 0%nat /\ currentView v = None
        /\ navStack (pop v) = [] /\ closes (pop v) = 1%nat).
Proof.
  intros m d stack frames e c k.
  split; [reflexivity|].
  split; [exact (pop_push e (mkView m d stack c k))|].
  split; [reflexivity|].
  split; [apply push_all_pop_all|].
  rewrite push_all_pop_all. cbn. repeat split; reflexivity.
Qed.

(** ** No-view execution *)

Lemma timer_fires_without_timers (n : nat) (r : runner) :
  timers r = [] -> runner_run (repeat TimerFires n) r = r.
Proof.
  intros H. induction n as [|n IH]; [reflexivity|].
  simpl. unfold runner_run in IH. simpl. rewrite H. exact IH.
Qed.

(** Once the flag is set and no timer is pending, an event changes at most
    the [outstanding] mark. *)
Lemma cancelled_is_final (evs : list runner_event) (r : runner) :
  cancelled r = true -> timers r = [] ->
  let r' := runner_run evs r in
  status r' = status r /\ errorMsg r' = errorMsg r /\ cancelled r' = true
  /\ timers r' = [] /\ runner_closes r' = runner_closes r.
Proof.
  revert r. induction evs as [|ev evs IH]; intros r Hc Ht; [simpl; auto|].
  change (runner_run (ev :: evs) r) with (runner_run evs (runner_step r ev)).
  assert (Hstep : status (runner_step r ev) = status r
                  /\ errorMsg (runner_step r ev) = errorMsg r
                  /\ cancelled (runner_step r ev) = true
                  /\ timers (runner_step r ev) = []
                  /\ runner_closes (runner_step r ev) = runner_closes r).
  { destruct ev as [[v|e]| |]; simpl;
      unfold on_resolved, on_rejected; rewrite ?Hc, ?Ht;
      try destruct (outstanding r); simpl; auto. }
  destruct Hstep as (H1 & H2 & H3 & H4 & H5).
  specialize (IH (runner_step r ev) H3 H4). cbv zeta in IH.
  rewrite H1, H2, H5 in IH. exact IH.
Qed.

(** An error without a truthy [message] is shown as "Command failed". *)
Lemma rejection_without_message (p e : jsval) :
  truthy (get_prop_opt e "message") = false ->
  runner_run [Settled (Throws e)] (effect_start (Returns p))
  = mkRunner error (VStr "Command failed") false false [] 0.
Proof.
  intros H. cbn. unfold on_rejected; simpl. unfold js_or. rewrite H. reflexivity.
Qed.

(** Whatever is thrown or rejected, the status becomes [error], the
    message shown is [e?.message || 'Command failed'], and nothing is
    scheduled. *)
Lemma rejection_captured (p e : jsval) :
  runner_run [Settled (Throws e)] (effect_start (Returns p))
  = mkRunner error (js_or (get_prop_opt e "message") (VStr "Command failed"))
             false false [] 0
  /\ effect_start (Throws e)
     = mkRunner error (js_or (get_prop_opt e "message") (VStr "Command failed"))
                false false [] 0.
Proof. split; reflexivity. Qed.

(** C7.  [NoViewRunner] calls the entry function and awaits it.
    (1) When the awaited value resolves, the status becomes [done] and one
        timer of 600 ms is pending, whose firing is the only call of
        [onClose].
    (2) When it rejects with any value [e], or when the call itself throws
        [e], the status becomes [error], the message captured is
        [e?.message] if that is truthy and "Command failed" if not, and no
        timer is pending, so that no number of timer ticks closes the
        session.  So every thrown object that carries the non-empty string
        [msg] as its [message] (an [Error], a [TypeError], an object of
        any other shape) has [msg] captured; in particular the message
        "boom" is captured as "boom".
    (3) When the effect is torn down while the call is outstanding, the
        flag is set, and neither the settlement of the call nor any later
        event changes the status, the message, the timers or the number
        of closes. *)
Theorem no_view_execution :
  forall (p v e : jsval) (props : list (string * jsval)) (c : Ascii.ascii)
         (s : string) (n : nat) (o : outcome jsval) (evs : list runner_event),
    let msg := String c s in
    (let r := runner_run [Settled (Returns v)] (effect_start (Returns p)) in
     effect_start (Returns p) = runner_init
     /\ status r = done /\ timers r = [600%nat] /\ runner_closes r = 0%nat
     /\ runner_run [TimerFires] r = mkRunner done (VStr "") false false [] 1)
    /\ (let r := runner_run [Settled (Throws e)] (effect_start (Returns p)) in
        r = mkRunner error
              (if truthy (get_prop_opt e "message") then get_prop_opt e "message"
               else VStr "Command failed")
              false false [] 0
        /\ effect_start (Throws e) = r
        /\ runner_run (repeat TimerFires n) r = r)
    /\ (lookup_prop "message" props = Some (VStr msg) ->
        runner_run [Settled (Throws (VObj props))] (effect_start (Returns p))
        = mkRunner error (VStr msg) false false [] 0
        /\ effect_start (Throws (VObj props)) = mkRunner error (VStr msg) false false [] 0)
    /\ (let r := runner_run [Settled (Throws (Error msg))] (effect_start (Returns p)) in
        r = mkRunner error (VStr msg) false false [] 0
        /\ effect_start (Throws (Error msg)) = r
        /\ effect_start (Throws (TypeError msg)) = r
        /\ runner_run (repeat TimerFires n) r = r)
    /\ runner_run [Settled (Throws (Error "boom"))] (effect_start (Returns p))
       = mkRunner error (VStr "boom") false false [] 0
    /\ (let r := runner_run (Teardown :: Settled o :: evs) (effect_start (Returns p)) in
        outstanding (runner_run [Teardown] (effect_start (Returns p))) = true
        /\ cancelled (runner_run [Teardown] (effect_start (Returns p))) = true
        /\ status r = running /\ errorMsg r = VStr "" /\ timers r = []
        /\ runner_closes r = 0%nat).
Proof.
  intros p v e props c s n o evs msg.
  split; [cbn; repeat split; reflexivity|].
  split.
  { destruct (rejection_captured p e) as [H1 H2]. cbv zeta.
    rewrite H1, H2. unfold js_or.
    split; [reflexivity|]. split; [reflexivity|].
    apply timer_fires_without_timers. reflexivity. }
  split.
  { intros Hmsg.
    destruct (rejection_captured p (VObj props)) as [H1 H2].
    rewrite H1, H2. unfold js_or, get_prop_opt, get_prop, read_props.
    rewrite Hmsg. split; reflexivity. }
  split.
  - split; [reflexivity|]. split; [reflexivity|]. split; [reflexivity|].
    apply timer_fires_without_timers. reflexivity.
  - split; [reflexivity|]. cbv zeta.
    split; [reflexivity|]. split; [reflexivity|].
    change (runner_run (Teardown :: Settled o :: evs) (effect_start (Returns p)))
      with (runner_run (Settled o :: evs) (effect_cleanup runner_init)).
    pose proof (cancelled_is_final (Settled o :: evs) (effect_cleanup runner_init)
                  eq_refl eq_refl) as H.
    cbv zeta in H. destruct H as (H1 & H2 & _ & H4 & H5).
    rewrite H1, H2, H4, H5. repeat split; reflexivity.
Qed.

(** ** Mode classification *)

Lemma probe_calls_once (Component : nat -> outcome jsval) (v : view) :
  calls (fst (render_view Component v)) = S (calls v).
Proof.
  unfold render_view, SafeViewRenderer_effect; simpl.
  destruct (is_null _); reflexivity.
Qed.

Lemma element_of_thenable (result : jsval) :
  is_thenable result = true ->
  SafeViewRenderer_element (Returns result) = VNull.
Proof.
  unfold is_thenable, SafeViewRenderer_element.
  destruct (truthy result); simpl; [|discriminate].
  destruct (get_prop result "then") as [t|err]; [|discriminate].
  intros ->. reflexivity.
Qed.

Lemma element_of_other (result : jsval) :
  is_thenable result = false ->
  SafeViewRenderer_element (Returns result) = result.
Proof.
  unfold is_thenable, SafeViewRenderer_element.
  destruct (truthy result) eqn:Ht; simpl; [|reflexivity].
  destruct result; simpl in *; try discriminate; try reflexivity;
    try (intros ->; reflexivity).
Qed.

(** A view-declared entry whose invocation returns a thenable is
    reclassified as no-view, after a single invocation. *)
Lemma thenable_becomes_no_view (Component : nat -> outcome jsval) (result : jsval) :
  Component 0%nat = Returns result ->
  is_thenable result = true ->
  let '(v, out) := render_view Component (open_view "view") in
  isNoView (open_view "view") = false /\ isNoView v = true
  /\ calls v = 1%nat /\ out = RenderNothing.
Proof.
  intros Hc Ht. unfold render_view; simpl. rewrite Hc.
  rewrite (element_of_thenable _ Ht). repeat split; reflexivity.
Qed.

(** A view-declared entry that returns a React element stays in view mode
    and the element is rendered. *)
Lemma element_stays_view (Component : nat -> outcome jsval) (ty : string) :
  Component 0%nat = Returns (VElement ty) ->
  let '(v, out) := render_view Component (open_view "view") in
  isNoView v = false /\ calls v = 1%nat /\ out = RenderElement (VElement ty).
Proof.
  intros Hc. unfold render_view; simpl. rewrite Hc. repeat split; reflexivity.
Qed.

(** Any result other than [null] and a thenable keeps the command in view
    mode. *)
Lemma non_null_result_stays_view (Component : nat -> outcome jsval) (result : jsval) :
  Component 0%nat = Returns result ->
  is_thenable result = false ->
  is_null result = false ->
  isNoView (fst (render_view Component (open_view "view"))) = false.
Proof.
  intros Hc Ht Hn. unfold render_view; simpl. rewrite Hc.
  rewrite (element_of_other _ Ht).
  unfold SafeViewRenderer_effect. rewrite Hn. reflexivity.
Qed.

(** An entry whose invocation throws stays in view mode and is rendered as
    a component. *)
Lemma throwing_probe_stays_view (Component : nat -> outcome jsval) (e : jsval) :
  Component 0%nat = Throws e ->
  let '(v, out) := render_view Component (open_view "view") in
  isNoView v = false /\ calls v = 1%nat /\ out = RenderComponent.
Proof.
  intros Hc. unfold render_view; simpl. rewrite Hc. repeat split; reflexivity.
Qed.

(** C3 at the entry function [() => null].  [null] is not a thenable, yet
    the probe's result for it is the very value the probe uses to report a
    thenable, so [onNoView] fires: the view-declared command is reclassified
    as no-view, nothing is rendered, and the controller goes on to run the
    entry function as a no-view command. *)
Theorem null_result_is_reclassified :
  let Component := fun _ : nat => Returns VNull in
  let fn := VFun (FForeign "Command") [] in
  let '(v, out) := render_view Component (open_view "view") in
  is_thenable VNull = false
  /\ ExtensionView_render None (Some fn) (open_view "view") = ViewPanel None
  /\ isNoView v = true
  /\ out = RenderNothing
  /\ ExtensionView_render None (Some fn) v = NoViewPanel fn.
Proof. cbn. repeat split; reflexivity. Qed.

End LifecycleProps.

(* ================================================================== *)
(** * Properties of the sandbox loader *)
(* ================================================================== *)

Module LoaderProps.
Import JS Loader.

Section Resolution.

Variable builtin : string -> jsval.
Variable import_ : string -> jsval.

(** ** Module resolution *)

(** The resolution function returns a value for every name. *)
Lemma fakeRequire_total (name : string) :
  exists v, fst (fakeRequire builtin import_ name) = Returns v.
Proof.
  unfold Loader.fakeRequire.
  repeat (destruct (String.eqb name _); [eexists; reflexivity|]).
  destruct (js_in name _); eexists; reflexivity.
Qed.

Lemma fakeRequire_ui_library :
  fakeRequire builtin import_ "react" = (Returns (import_ "react"), [])
  /\ fakeRequire builtin import_ "react/jsx-runtime" = (Returns (import_ "react/jsx-runtime"), []).
Proof. split; reflexivity. Qed.

Lemma fakeRequire_host_api :
  fakeRequire builtin import_ "@raycast/api" = (Returns (import_ "./raycast-api"), [])
  /\ fakeRequire builtin import_ "@raycast/utils" = (Returns (import_ "./raycast-api"), []).
Proof. split; reflexivity. Qed.

(** The name a [node:]-prefixed spelling stands for. *)
Definition bare (name : string) : string :=
  if String.prefix "node:" name
  then String.substring 5 (String.length name - 5) name
  else name.

Definition resolves_to_its_stub (name : string) : Prop :=
  exists stub,
    lookup_prop (bare name) (nodeBuiltinStubs_literal builtin) = Some stub
    /\ fakeRequire builtin import_ name = (Returns stub, []).

(** Every name of the build's allowlist but [http2] resolves to the stub
    written for it, silently. *)
Lemma allowlist_resolution :
  Forall (fun name => name = "http2" \/ resolves_to_its_stub name)
         Runner.nodeBuiltins.
Proof.
  unfold Runner.nodeBuiltins.
  repeat (constructor;
          [first [ left; reflexivity
                 | right; eexists; split; vm_compute; reflexivity ]|]).
  constructor.
Qed.

(** A name that is no special case, no key of the table and no member of
    [Object.prototype] resolves to a fresh empty object, with a warning. *)
Lemma fakeRequire_unknown (name : string) :
  String.eqb name "react" = false ->
  String.eqb name "react/jsx-runtime" = false ->
  String.eqb name "@raycast/api" = false ->
  String.eqb name "@raycast/utils" = false ->
  lookup_prop name (nodeBuiltinStubs builtin) = None ->
  existsb (String.eqb name) object_prototype_keys = false ->
  fakeRequire builtin import_ name =
    (Returns (VObj []),
     [Warn ("Extension tried to require unknown module: " +:+ dquote +:+ name +:+ dquote)]).
Proof.
  intros H1 H2 H3 H4 Hown Hproto. unfold Loader.fakeRequire, js_in.
  rewrite H1, H2, H3, H4, Hown, Hproto. reflexivity.
Qed.

(** C1 at the names [http2] and [toString].  [http2] is on the build's
    allowlist of host built-ins, so a bundle keeps its [require("http2")]
    for the loader to resolve, but the stub table has no entry for it:
    it resolves like an unknown dependency, to a fresh empty object with a
    warning.  [toString] is on no list, but the table's membership test
    follows the prototype chain: it resolves to a member of
    [Object.prototype], which is not an empty object, and nothing is
    logged. *)
Theorem http2_and_toString_resolution :
  In "http2" Runner.nodeBuiltins
  /\ In "http2" Runner.external
  /\ lookup_prop "http2" (nodeBuiltinStubs builtin) = None
  /\ fakeRequire builtin import_ "http2" =
       (Returns (VObj []),
        [Warn ("Extension tried to require unknown module: " +:+ dquote +:+ "http2" +:+ dquote)])
  /\ lookup_prop "toString" (nodeBuiltinStubs builtin) = None
  /\ fakeRequire builtin import_ "toString" =
       (Returns (VFun (FForeign "Object.prototype.toString") []), []).
Proof.
  split; [unfold Runner.nodeBuiltins; do 11 right; left; reflexivity|].
  split; [unfold Runner.external, Runner.nodeBuiltins; do 16 right; left; reflexivity|].
  repeat split; vm_compute; reflexivity.
Qed.

(** ** Global injection *)

Definition slot_truthy (s : slot) : bool :=
  match s with Val v => truthy v | Self => true end.

Lemma global_truthy_insert (g : gmap string slot) (k k' : string) (s : slot) :
  global_truthy (<[k := s]> g) k' =
  if decide (k = k') then slot_truthy s else global_truthy g k'.
Proof.
  unfold global_truthy. rewrite lookup_insert.
  destruct (decide (k = k')); [destruct s|]; reflexivity.
Qed.

Lemma process_entry : read_props "process" (nodeBuiltinStubs builtin) = processStub.
Proof. vm_compute. reflexivity. Qed.

(** What a read of the global object finds after [ensureGlobals]. *)
Lemma ensureGlobals_lookup (g : gmap string slot) (k : string) :
  ensureGlobals builtin g !! k =
  if String.eqb k "global" && negb (global_truthy g "global") then Some Self
  else if String.eqb k "Buffer" && negb (global_truthy g "Buffer")
       then Some (Val bufferStub_Buffer)
  else if String.eqb k "process" && negb (global_truthy g "process")
       then Some (Val processStub)
  else g !! k.
Proof.
  unfold Loader.ensureGlobals. rewrite process_entry.
  destruct (global_truthy g "process") eqn:Hp;
    repeat (rewrite ?global_truthy_insert; simpl);
    destruct (global_truthy g "Buffer") eqn:Hb;
    repeat (rewrite ?global_truthy_insert; simpl);
    destruct (global_truthy g "global") eqn:Hg;
    repeat (rewrite ?global_truthy_insert; simpl);
    rewrite ?andb_false_r, ?andb_true_r;
    rewrite ?lookup_insert;
    repeat (case_decide; subst; simpl; try reflexivity; try congruence);
    repeat match goal with
           | H : ?a <> ?b |- _ =>
               lazymatch goal with
               | |- context [String.eqb b a] =>
                   replace (String.eqb b a) with false
                     by (symmetry; apply String.eqb_neq; congruence)
               end
           end; reflexivity.
Qed.

Lemma ensureGlobals_fixed (g : gmap string slot) :
  global_truthy g "process" = true ->
  global_truthy g "Buffer" = true ->
  global_truthy g "global" = true ->
  ensureGlobals builtin g = g.
Proof.
  intros Hp Hb Hg. unfold ensureGlobals. rewrite Hp, Hb, Hg. reflexivity.
Qed.

Lemma ensureGlobals_truthy (g : gmap string slot) (k : string) :
  k = "process" \/ k = "Buffer" \/ k = "global" ->
  global_truthy (ensureGlobals builtin g) k = true.
Proof.
  intros Hk. unfold global_truthy at 1. rewrite ensureGlobals_lookup.
  destruct Hk as [-> | [-> | ->]]; simpl;
    repeat match goal with
           | |- context [global_truthy g ?x] =>
               let H := fresh in destruct (global_truthy g x) eqn:H; simpl
           end;
    try reflexivity;
    match goal with
    | H : global_truthy g ?x = true |- _ => exact H
    end.
Qed.

(** C4, as the code has it.  In a realm whose global object is bound to
    [globalThis], after [ensureGlobals] the four globals [process],
    [Buffer], [global] and [globalThis] are present; a global that was
    truthy keeps its value, a global that was absent or falsy receives the
    stub ([process], [Buffer]) or the global object ([global]); no other
    property of the global object changes; a second [ensureGlobals]
    changes nothing; and a load that starts from the injected globals runs
    the bundle exactly as the load that injected them. *)
Theorem ensureGlobals_presence_gated :
  forall g : gmap string slot,
    g !! "globalThis" = Some Self ->
    let g' := ensureGlobals builtin g in
    (global_truthy g' "process" = true /\ global_truthy g' "Buffer" = true
     /\ global_truthy g' "global" = true /\ g' !! "globalThis" = Some Self)
    /\ (forall k, global_truthy g k = true -> g' !! k = g !! k)
    /\ (forall k, k <> "process" -> k <> "Buffer" -> k <> "global" -> g' !! k = g !! k)
    /\ (global_truthy g "process" = false -> g' !! "process" = Some (Val processStub))
    /\ (global_truthy g "Buffer" = false -> g' !! "Buffer" = Some (Val bufferStub_Buffer))
    /\ (global_truthy g "global" = false -> g' !! "global" = Some Self)
    /\ ensureGlobals builtin g' = g'
    /\ (forall run_bundle code,
          loadExtensionExport builtin run_bundle code g'
          = loadExtensionExport builtin run_bundle code g).
Proof.
  intros g Hself g'. subst g'.
  split.
  { repeat split; try (apply ensureGlobals_truthy; tauto).
    rewrite ensureGlobals_lookup. exact Hself. }
  split.
  { intros k Hk. rewrite ensureGlobals_lookup.
    repeat match goal with
           | |- context [String.eqb ?y ?x] =>
               is_var y; destruct (String.eqb_spec y x); [subst y|];
               simpl; rewrite ?Hk; simpl
           end.
    all: reflexivity. }
  split.
  { intros k H1 H2 H3. rewrite ensureGlobals_lookup.
    apply String.eqb_neq in H1, H2, H3. rewrite H1, H2, H3. reflexivity. }
  split; [intros H; rewrite ensureGlobals_lookup; simpl; rewrite H|].
  { simpl. destruct (global_truthy g "global"), (global_truthy g "Buffer"); reflexivity. }
  split; [intros H; rewrite ensureGlobals_lookup; simpl; rewrite H|].
  { simpl. destruct (global_truthy g "global"); reflexivity. }
  split; [intros H; rewrite ensureGlobals_lookup; simpl; rewrite H; reflexivity|].
  assert (Hfix : ensureGlobals builtin (ensureGlobals builtin g) = ensureGlobals builtin g)
    by (apply ensureGlobals_fixed; apply ensureGlobals_truthy; tauto).
  split; [exact Hfix|].
  intros run_bundle code. unfold loadExtensionExport. rewrite Hfix. reflexivity.
Qed.

(** ** Loading *)

Variable run_bundle : string -> gmap string slot -> execution.

(** C8.  The loader returns [null] or a callable.  When the execution of
    the bundle throws, or when reading [default] off what it left in
    [fakeModule.exports] throws, the load fails with the message of the
    [catch] block.  Otherwise the exported value is the [default] export if
    that is truthy and the whole exports object if not; a callable one is
    returned and nothing is logged, any other one fails the load with the
    message "Extension did not export a function". *)
Theorem loadExtensionExport_outcome :
  forall (code : string) (g : gmap string slot),
    let run := run_bundle code (ensureGlobals builtin g) in
    let r := loadExtensionExport builtin run_bundle code g in
    let failure := fun msg =>
      mkLoaded None (globals_after run) (output run ++ [LogError msg]) in
    match entry r with
    | Some f =>
        is_function f = true
        /\ exists exports, completion run = Returns exports
           /\ (f = exports \/ get_prop exports "default" = Returns f)
    | None => True
    end
    /\ match completion run with
       | Throws _ => r = failure "Failed to load extension:"
       | Returns exports =>
           match get_prop exports "default" with
           | Throws _ => r = failure "Failed to load extension:"
           | Returns d =>
               let exported := if truthy d then d else exports in
               if is_function exported
               then r = mkLoaded (Some exported) (globals_after run) (output run)
               else r = failure "Extension did not export a function"
           end
       end.
Proof.
  intros code g. cbv zeta. unfold loadExtensionExport.
  destruct (completion (run_bundle code (ensureGlobals builtin g))) as [exports|e];
    [|split; [exact I|reflexivity]].
  destruct (get_prop exports "default") as [d|e] eqn:Hd;
    [|split; [exact I|reflexivity]].
  unfold js_or.
  destruct (truthy d) eqn:Ht;
    match goal with
    | |- context [is_function ?x] => destruct (is_function x) eqn:Hf
    end; simpl; (split; [|reflexivity]); try exact I;
    (split; [exact Hf|]); exists exports; (split; [reflexivity|]); auto.
Qed.

(** C10.  Whenever the [default] read off the exports object is falsy --
    absent or present -- the loader goes by the whole exports object: it is
    returned if callable and the load fails if not.  So a callable assigned
    to [module.exports] that carries no [default] property is returned; a
    callable whose [default] property is present but falsy is returned just
    the same; and a plain exports object fails the load whether its
    [default] is falsy or missing. *)
Theorem falsy_default_falls_back :
  forall (code : string) (g : gmap string slot) (exports : jsval),
    completion (run_bundle code (ensureGlobals builtin g)) = Returns exports ->
    let r := entry (loadExtensionExport builtin run_bundle code g) in
    (forall d, get_prop exports "default" = Returns d -> truthy d = false ->
       r = if is_function exports then Some exports else None)
    /\ (forall f props, exports = VFun f props ->
          lookup_prop "default" props = None -> r = Some exports)
    /\ (forall f props d, exports = VFun f props ->
          lookup_prop "default" props = Some d -> truthy d = false -> r = Some exports)
    /\ (forall props d, exports = VObj props ->
          lookup_prop "default" props = Some d -> truthy d = false -> r = None)
    /\ (forall props, exports = VObj props ->
          lookup_prop "default" props = None -> r = None).
Proof.
  intros code g exports Hrun r.
  assert (Hmain : forall d, get_prop exports "default" = Returns d -> truthy d = false ->
                    r = if is_function exports then Some exports else None).
  { intros d Hd Ht. subst r. unfold loadExtensionExport.
    rewrite Hrun, Hd. unfold js_or. rewrite Ht.
    destruct (is_function exports); reflexivity. }
  split; [exact Hmain|].
  repeat split.
  - intros f props -> Hno.
    apply (Hmain VUndefined); [|reflexivity].
    simpl. unfold read_props. rewrite Hno. reflexivity.
  - intros f props d -> Hd Ht.
    apply (Hmain d); [|exact Ht].
    simpl. unfold read_props. rewrite Hd. reflexivity.
  - intros props d -> Hd Ht.
    apply (Hmain d); [|exact Ht].
    simpl. unfold read_props. rewrite Hd. reflexivity.
  - intros props -> Hno.
    apply (Hmain VUndefined); [|reflexivity].
    simpl. unfold read_props. rewrite Hno. reflexivity.
Qed.

End Resolution.

(** The global object of a fresh realm, as far as the loader reads it. *)
Definition fresh_realm : gmap string slot := {[ "globalThis" := Self ]}.

Definition no_builtin : string -> jsval := fun _ => VUndefined.

Lemma ensureGlobals_presence_gated_witness :
  fresh_realm !! "globalThis" = Some Self
  /\ ensureGlobals no_builtin (ensureGlobals no_builtin fresh_realm)
     = ensureGlobals no_builtin fresh_realm.
Proof.
  split; [reflexivity|].
  apply (ensureGlobals_presence_gated no_builtin fresh_realm). reflexivity.
Defined.

(** The claim of C4 fails for a global that is present with a falsy value:
    [process] bound to [false] is overwritten with the stub. *)
Lemma falsy_global_is_overwritten :
  let g : gmap string slot := <["process" := Val (VBool false)]> fresh_realm in
  g !! "process" = Some (Val (VBool false))
  /\ ensureGlobals no_builtin g !! "process" = Some (Val processStub).
Proof. split; vm_compute; reflexivity. Qed.

(** A bundle [module.exports = Command; Command.default = 0]. *)
Definition bundle_with_falsy_default : string -> gmap string slot -> execution :=
  fun _ g =>
    mkExecution
      (Returns (VFun (FForeign "Command")
                     [("default", VNum (Finite (QArith_base.Qmake 0 1)))]))
      g [].

Lemma falsy_default_falls_back_witness :
  let exports := VFun (FForeign "Command")
                      [("default", VNum (Finite (QArith_base.Qmake 0 1)))] in
  completion (bundle_with_falsy_default "" (ensureGlobals no_builtin fresh_realm))
    = Returns exports
  /\ entry (loadExtensionExport no_builtin bundle_with_falsy_default "" fresh_realm)
     = Some exports.
Proof.
  split; [reflexivity|].
  refine (proj1 (proj2 (proj2
            (falsy_default_falls_back no_builtin bundle_with_falsy_default
               "" fresh_realm _ eq_refl))) _ _ _ eq_refl eq_refl eq_refl).
Defined.

(** ** The stub surface *)

Section Stubs.

Variable foreign_call : string -> list jsval -> outcome jsval.
Variable now : Z.

(** A stub called with [null] alone invokes no callback. *)
Lemma stub_body_with_null (inv1 inv2 : jsval -> outcome jsval) (f : stub_fn) :
  stub_body now inv1 f [VNull] = stub_body now inv2 f [VNull].
Proof. destruct f; reflexivity. Qed.

(** The only throws of a function of [stub_fn]. *)
Lemma stub_throws_only (f : stub_fn) (args : list jsval) (e : jsval) :
  call_stub foreign_call now f args = Throws e ->
  (f = assert /\ truthy (arg 0 args) = false /\ e = Error "Assertion failed")
  \/ (f = noopCb /\ exists cb, last args = Some cb /\ is_function cb = true
                  /\ invoke_with_null foreign_call now cb = Throws e).
Proof.
  unfold call_stub. destruct f; simpl; try discriminate.
  - destruct (last args) as [cb|] eqn:Hl; [|discriminate].
    destruct (is_function cb) eqn:Hf; [|discriminate].
    destruct (invoke_with_null foreign_call now cb) as [v|e'] eqn:Hi; [discriminate|].
    intros [= <-]. right. split; [reflexivity|]. exists cb. auto.
  - destruct (truthy (arg 0 args)) eqn:Ht; [discriminate|].
    intros [= <-]. left. auto.
Qed.

End Stubs.

Import StubBodies.

(** The modules of the table that are empty objects. *)
Definition empty_modules : list string :=
  [ "stream/promises"; "net"; "tls"; "dns"; "dgram"; "cluster"; "v8"; "vm";
    "worker_threads"; "zlib"; "readline" ].

(** The members of the table that are the platform's own values: the
    module, and the name of the member and of the global. *)
Definition passed_through : list (string * string) :=
  [ ("timers", "setTimeout"); ("timers", "setInterval");
    ("timers", "clearTimeout"); ("timers", "clearInterval");
    ("util", "TextDecoder"); ("util", "TextEncoder");
    ("url", "URL"); ("url", "URLSearchParams");
    ("perf_hooks", "performance") ].

(** The members of the table that are classes, with the name of the
    class. *)
Definition class_members : list (string * string * string) :=
  [ ("events", "EventEmitter", "EventEmitter");
    ("events", "default", "EventEmitter");
    ("stream", "Readable", "Readable");
    ("stream", "Writable", "Writable");
    ("stream", "Transform", "Transform");
    ("stream", "PassThrough", "PassThrough");
    ("string_decoder", "StringDecoder", "StringDecoder") ].

(** The members of the table that are [noop], [noopAsync] and [noopCb]. *)
Definition noop_members : list (string * string) :=
  [ ("fs", "writeFileSync"); ("fs", "mkdirSync"); ("fs", "unlinkSync");
    ("fs", "rmdirSync"); ("fs", "rmSync");
    ("timers/promises", "setInterval");
    ("http", "request"); ("http", "get");
    ("https", "request"); ("https", "get");
    ("process", "exit"); ("process", "on") ].

Definition noopAsync_members : list (string * string) :=
  [ ("fs/promises", "readFile"); ("fs/promises", "writeFile");
    ("fs/promises", "mkdir"); ("fs/promises", "access");
    ("fs/promises", "unlink"); ("fs/promises", "rm");
    ("timers/promises", "setImmediate") ].

Definition noopCb_members : list (string * string) :=
  [ ("fs", "readFile"); ("fs", "writeFile"); ("fs", "mkdir"); ("fs", "access");
    ("child_process", "exec") ].

(** The [path] members that call a method of their first argument. *)
Definition string_methods : list string :=
  [ "pathStub.dirname"; "pathStub.basename"; "pathStub.extname";
    "pathStub.isAbsolute" ].

(** The methods of an [EventEmitter] that return it. *)
Definition chaining_methods : list string :=
  [ "on"; "off"; "once"; "addListener"; "removeListener"; "removeAllListeners" ].

Definition zero : jsval := VNum (Finite (QArith_base.Qmake 0 1)).

Section Surface.

Variable host : platform.
Variable builtin : string -> jsval.

Lemma Array_join_strings (sep : string) (ss : list string) :
  Array_join host sep (map VStr ss) = Text (String.concat sep ss).
Proof.
  induction ss as [|s ss IH]; [reflexivity|].
  destruct ss as [|s' ss]; [reflexivity|].
  cbn [map] in *. cbn [Array_join join_element ToString] in *.
  rewrite IH. reflexivity.
Qed.

Lemma filter_truthy_strings (ss : list string) :
  List.filter truthy (map VStr ss) = map VStr (List.filter PathStub.nonempty ss).
Proof.
  induction ss as [|s ss IH]; [reflexivity|].
  cbn [map List.filter truthy]. unfold PathStub.nonempty at 1.
  destruct (negb (String.eqb s "")); cbn [map]; rewrite IH; reflexivity.
Qed.

Lemma join_of_strings (parts : list string) :
  pathStub_join host (map VStr parts) = Returns (VStr (PathStub.join parts)).
Proof.
  unfold pathStub_join, PathStub.join.
  rewrite filter_truthy_strings, Array_join_strings. reflexivity.
Qed.

Lemma as_string_throws (c : converted) (e : jsval) :
  as_string c = Throws e -> c = Raises e.
Proof. destruct c; [discriminate|]. intros [= <-]. reflexivity. Qed.

(** One step of the case analysis on the name of a function. *)
Ltac name_case name s :=
  let E := fresh "E" in
  destruct (String.eqb name s) eqn:E;
  [ apply String.eqb_eq in E | ];
  cbn [orb]; cbv beta iota.

(** A member of a list of names written out: the goal is settled by
    evaluation at each. *)
Ltac member_cases H :=
  cbv [In passed_through empty_modules noop_members noopAsync_members
       chaining_methods] in H;
  repeat (destruct H as [H|H];
          [first [ injection H as <- <- | subst ]; vm_compute; reflexivity|]);
  contradiction.

(** What [execSync] returns when the global [Buffer] is the loader's. *)
Lemma execSync_with_loader_Buffer :
  global_Buffer host = Some bufferStub_Buffer ->
  childProcessStub_execSync host = Returns (VBytes (TextEncoder_encode host "")).
Proof. intros Hb. unfold childProcessStub_execSync. rewrite Hb. reflexivity. Qed.

(** The only throws of a function called by its name. *)
Lemma loader_throws_only (name : string) (this : jsval) (args : list jsval) (e : jsval) :
  loader_call host name this args = Throws e ->
  (exists c, class_name name class_stubs = Some c /\ e = class_without_new c)
  \/ ((name = "pathStub.join" \/ name = "pathStub.resolve")
      /\ Array_join host "/" (List.filter truthy args) = Raises e)
  \/ (name = "utilStub.format" /\ Array_join host " " args = Raises e)
  \/ (name = "StringDecoder.prototype.write" /\ ToString host (arg 0 args) = Raises e)
  \/ (In name string_methods
      /\ (is_string (arg 0 args) = false
          \/ (name = "pathStub.basename" /\ truthy (arg 1 args) = true
              /\ is_string (arg 1 args) = false)))
  \/ (name = "cryptoStub.randomUUID" /\ crypto_randomUUID host = Throws e)
  \/ ((name = "cryptoStub.randomBytes" \/ name = "bufferStub.Buffer.alloc")
      /\ new_Uint8Array host (arg 0 args) = Throws e)
  \/ (name = "utilStub.inspect" /\ JSON_stringify host (arg 0 args) = Throws e)
  \/ (name = "url.parse" /\ new_URL host (arg 0 args) = Throws e)
  \/ (name = "querystring.parse"
      /\ (new_URLSearchParams host (arg 0 args) = Throws e
          \/ exists params, new_URLSearchParams host (arg 0 args) = Returns params
                            /\ Object_fromEntries host params = Throws e))
  \/ (name = "querystring.stringify"
      /\ (new_URLSearchParams host (arg 0 args) = Throws e
          \/ exists params, new_URLSearchParams host (arg 0 args) = Returns params
                            /\ URLSearchParams_toString host params = Throws e))
  \/ (name = execSync_name /\ global_Buffer host <> Some bufferStub_Buffer)
  \/ (loader_defined host name = false /\ foreign_call host name args = Throws e).
Proof.
  unfold loader_call, loader_defined.
  destruct (String.eqb name execSync_name) eqn:E0.
  { apply String.eqb_eq in E0. intros H. do 11 right. left. split; [exact E0|].
    intros Hb. rewrite (execSync_with_loader_Buffer Hb) in H. discriminate. }
  unfold loader_base, prototype_method, body_of.
  cbn [existsb returns_this class_name class_stubs].
  name_case name "EventEmitter.prototype.on"; [discriminate|].
  name_case name "EventEmitter.prototype.off"; [discriminate|].
  name_case name "EventEmitter.prototype.once"; [discriminate|].
  name_case name "EventEmitter.prototype.addListener"; [discriminate|].
  name_case name "EventEmitter.prototype.removeListener"; [discriminate|].
  name_case name "EventEmitter.prototype.removeAllListeners"; [discriminate|].
  name_case name "EventEmitter.prototype.emit"; [discriminate|].
  name_case name "StringDecoder.prototype.write".
  { intros H%as_string_throws. do 3 right. left. auto. }
  name_case name "StringDecoder.prototype.end"; [discriminate|].
  name_case name "pathStub.join".
  { intros H%as_string_throws. right. left. auto. }
  name_case name "pathStub.resolve".
  { intros H%as_string_throws. right. left. auto. }
  name_case name "pathStub.dirname".
  { intros H. do 4 right. left. split; [subst name; cbn; auto|]. left.
    unfold pathStub_dirname in H. destruct (arg 0 args); try reflexivity. discriminate. }
  name_case name "pathStub.basename".
  { intros H. do 4 right. left. split; [subst name; cbn; auto|].
    unfold pathStub_basename in H.
    destruct (arg 0 args); try (left; reflexivity).
    right. split; [assumption|].
    destruct (arg 1 args) as [| |b|x|t|items|props|f props| | | | | |] eqn:Hext;
      try discriminate; try (split; reflexivity);
      (destruct (truthy (arg 1 args)) eqn:Ht; rewrite Hext in Ht; rewrite Ht in H;
       [split; [exact Ht|reflexivity]|discriminate]). }
  name_case name "pathStub.extname".
  { intros H. do 4 right. left. split; [subst name; cbn; auto|]. left.
    unfold pathStub_extname in H. destruct (arg 0 args); try reflexivity. discriminate. }
  name_case name "pathStub.isAbsolute".
  { intros H. do 4 right. left. split; [subst name; cbn; auto 6|]. left.
    unfold pathStub_isAbsolute in H. destruct (arg 0 args); try reflexivity. discriminate. }
  name_case name "cryptoStub.randomUUID".
  { unfold cryptoStub_randomUUID. intros H. do 5 right. left. split; [assumption|].
    destruct (crypto_randomUUID host); [discriminate|exact H]. }
  name_case name "cryptoStub.createHash"; [discriminate|].
  name_case name "cryptoStub.createHash.update"; [discriminate|].
  name_case name "cryptoStub.createHash.digest"; [discriminate|].
  name_case name "cryptoStub.randomBytes".
  { intros H. do 6 right. left. auto. }
  name_case name "bufferStub.Buffer.from".
  { unfold Buffer_from. destruct (arg 0 args); discriminate. }
  name_case name "bufferStub.Buffer.alloc".
  { intros H. do 6 right. left. auto. }
  name_case name "utilStub.format".
  { intros H%as_string_throws. do 2 right. left. auto. }
  name_case name "utilStub.inspect".
  { intros H. do 7 right. left. auto. }
  name_case name "url.parse".
  { intros H. do 8 right. left. auto. }
  name_case name "querystring.parse".
  { unfold querystring_parse. intros H. do 9 right. left. split; [assumption|].
    destruct (new_URLSearchParams host (arg 0 args)) as [params|e'];
      [right; exists params; auto|left; exact H]. }
  name_case name "querystring.stringify".
  { unfold querystring_stringify. intros H. do 10 right. left. split; [assumption|].
    destruct (new_URLSearchParams host (arg 0 args)) as [params|e'];
      [right; exists params; auto|left; exact H]. }
  name_case name "eventsStub.EventEmitter".
  { intros [= <-]. left. eexists. split; reflexivity. }
  name_case name "stream.Readable".
  { intros [= <-]. left. eexists. split; reflexivity. }
  name_case name "stream.Writable".
  { intros [= <-]. left. eexists. split; reflexivity. }
  name_case name "stream.Transform".
  { intros [= <-]. left. eexists. split; reflexivity. }
  name_case name "stream.PassThrough".
  { intros [= <-]. left. eexists. split; reflexivity. }
  name_case name "string_decoder.StringDecoder".
  { intros [= <-]. left. eexists. split; reflexivity. }
  intros H. do 12 right. split; [reflexivity|exact H].
Qed.

(** C5, as the code has it.  The functions the loader writes for the stub
    table return for every argument list, but in the cases listed:
    [assert] throws [Error("Assertion failed")] exactly when its argument
    is falsy; a callback-style stub calls a trailing function argument
    with [null] and throws exactly what that call throws; a member that
    hands its argument to a built-in ([new URL], [new URLSearchParams],
    [Object.fromEntries], [new Uint8Array], [JSON.stringify],
    [crypto.randomUUID], the conversion to a string in [join]) throws
    exactly what the built-in throws; [path.dirname], [basename],
    [extname] and [isAbsolute] throw only for an argument that is no
    string; [execSync] throws only if the global [Buffer] is not the
    loader's; a class throws when it is called without [new].  Every
    function in the table is one of these, the members taken over from
    the platform apart, and the [node:] names give the same modules.
    The synchronous members of [fs], [os], [tty], [http], [https],
    [process] and the others return their fixed, inert values whatever
    the arguments; the members of [fs.promises] return promises already
    fulfilled with [undefined], [[]] or an inert stat object; the
    [process] stub reports the platform "darwin" and an empty
    environment; and the [path] members compute on strings what
    [PathStub] says. *)
Theorem stub_surface_behaviour :
  forall (args : list jsval),
    let get := stub_member builtin in
    let call_in := stub_call host builtin in
    let new_in := stub_new host builtin in
    let on := call_method host in
    let stat := [ ("isFile", fn stat_isFile); ("isDirectory", fn stat_isDirectory) ] in
    (* the table *)
    (forallb (loader_function host)
             (functions_of (VObj (nodeBuiltinStubs (fun _ => VUndefined)))) = true
     /\ (forall module member, In (module, member) passed_through ->
           get module member = Returns (builtin member))
     /\ (forall module, In module (map fst (nodeBuiltinStubs_literal builtin)) ->
           stub_module builtin ("node:" +:+ module) = stub_module builtin module)
     /\ (forall module, In module empty_modules -> stub_module builtin module = VObj []))
    (* every throw *)
    /\ ((forall f props e,
           call host (VFun (FStub f) props) args = Throws e ->
           (f = assert /\ truthy (arg 0 args) = false /\ e = Error "Assertion failed")
           \/ (f = noopCb /\ exists cb, last args = Some cb /\ is_function cb = true
                 /\ invoke_with_null (loader_foreign host) (now host) cb = Throws e))
        /\ (forall name this e,
              loader_call host name this args = Throws e ->
              (exists c, class_name name class_stubs = Some c /\ e = class_without_new c)
              \/ ((name = "pathStub.join" \/ name = "pathStub.resolve")
                  /\ Array_join host "/" (List.filter truthy args) = Raises e)
              \/ (name = "utilStub.format" /\ Array_join host " " args = Raises e)
              \/ (name = "StringDecoder.prototype.write"
                  /\ ToString host (arg 0 args) = Raises e)
              \/ (In name string_methods
                  /\ (is_string (arg 0 args) = false
                      \/ (name = "pathStub.basename" /\ truthy (arg 1 args) = true
                          /\ is_string (arg 1 args) = false)))
              \/ (name = "cryptoStub.randomUUID" /\ crypto_randomUUID host = Throws e)
              \/ ((name = "cryptoStub.randomBytes" \/ name = "bufferStub.Buffer.alloc")
                  /\ new_Uint8Array host (arg 0 args) = Throws e)
              \/ (name = "utilStub.inspect" /\ JSON_stringify host (arg 0 args) = Throws e)
              \/ (name = "url.parse" /\ new_URL host (arg 0 args) = Throws e)
              \/ (name = "querystring.parse"
                  /\ (new_URLSearchParams host (arg 0 args) = Throws e
                      \/ exists params,
                           new_URLSearchParams host (arg 0 args) = Returns params
                           /\ Object_fromEntries host params = Throws e))
              \/ (name = "querystring.stringify"
                  /\ (new_URLSearchParams host (arg 0 args) = Throws e
                      \/ exists params,
                           new_URLSearchParams host (arg 0 args) = Returns params
                           /\ URLSearchParams_toString host params = Throws e))
              \/ (name = execSync_name /\ global_Buffer host <> Some bufferStub_Buffer)
              \/ (loader_defined host name = false
                  /\ foreign_call host name args = Throws e)))
    (* the synchronous members *)
    /\ (call_in "fs" "existsSync" args = Returns (VBool false)
        /\ call_in "fs" "readFileSync" args = Returns (VStr "")
        /\ call_in "fs" "readdirSync" args = Returns (VArr [])
        /\ call_in "fs" "statSync" args
           = Returns (VObj (stat ++ [("mtime", VDate (now host))]))
        /\ (forall f, In f stat -> call host (snd f) args = Returns (VBool false))
        /\ (forall module member, In (module, member) noop_members ->
              call_in module member args = Returns VUndefined)
        /\ call_in "os" "homedir" args = Returns (VStr "/tmp")
        /\ call_in "os" "tmpdir" args = Returns (VStr "/tmp")
        /\ call_in "os" "platform" args = Returns (VStr "darwin")
        /\ call_in "os" "type" args = Returns (VStr "Darwin")
        /\ call_in "os" "hostname" args = Returns (VStr "localhost")
        /\ call_in "os" "cpus" args = Returns (VArr [])
        /\ call_in "os" "totalmem" args = Returns zero
        /\ call_in "os" "freemem" args = Returns zero
        /\ call_in "tty" "isatty" args = Returns (VBool false)
        /\ call_in "path" "parse" args
           = Returns (VObj [ ("dir", VStr ""); ("root", VStr ""); ("base", arg 0 args);
                             ("name", arg 0 args); ("ext", VStr "") ])
        /\ call_in "path" "normalize" args = Returns (arg 0 args)
        /\ call_in "path" "relative" args = Returns (VStr "")
        /\ call_in "util" "promisify" args = Returns (arg 0 args)
        /\ call_in "child_process" "spawn" args
           = Returns (VObj [ ("on", fn noop); ("stdout", VObj [ ("on", fn noop) ]);
                             ("stderr", VObj [ ("on", fn noop) ]); ("kill", fn noop) ])
        /\ get "buffer" "Buffer" = Returns bufferStub_Buffer
        /\ on bufferStub_Buffer "isBuffer" args = Returns (VBool false)
        /\ on bufferStub_Buffer "concat" args = Returns (VBytes [])
        /\ call_in "module" "createRequire" args = Returns (fn created_require)
        /\ call host (fn created_require) args = Returns (VObj []))
    (* the promise-style members *)
    /\ (get "fs" "promises" = Returns (stub_module builtin "fs/promises")
        /\ (forall module member, In (module, member) noopAsync_members ->
              call_in module member args = Returns (VPromiseFulfilled VUndefined))
        /\ call_in "fs/promises" "readdir" args = Returns (VPromiseFulfilled (VArr []))
        /\ call_in "fs/promises" "stat" args = Returns (VPromiseFulfilled (VObj stat))
        /\ call_in "timers/promises" "setTimeout" args = Returns VPromisePending
        /\ call_in "process" "nextTick" args = Returns VPromisePending)
    (* the process stub *)
    /\ (get "process" "platform" = Returns (VStr "darwin")
        /\ get "process" "env" = Returns (VObj [])
        /\ get "process" "version" = Returns (VStr "v18.0.0")
        /\ get "process" "argv" = Returns (VArr [])
        /\ call_in "process" "cwd" args = Returns (VStr "/"))
    (* the callback-style members and [assert] *)
    /\ ((forall module member, In (module, member) noopCb_members ->
           call_in module member args
           = match last args with
             | Some cb =>
                 if is_function cb
                 then match invoke_with_null (loader_foreign host) (now host) cb with
                      | Throws e => Throws e
                      | Returns _ => Returns VUndefined
                      end
                 else Returns VUndefined
             | None => Returns VUndefined
             end)
        /\ call host (stub_module builtin "assert") args
           = if truthy (arg 0 args) then Returns VUndefined
             else Throws (Error "Assertion failed"))
    (* the members that call built-ins *)
    /\ (call_in "path" "join" args = as_string (Array_join host "/" (List.filter truthy args))
        /\ call_in "path" "resolve" args = call_in "path" "join" args
        /\ (forall parts, call_in "path" "join" (map VStr parts)
                          = Returns (VStr (PathStub.join parts)))
        /\ (forall p rest,
              call_in "path" "dirname" (VStr p :: rest) = Returns (VStr (PathStub.dirname p))
              /\ call_in "path" "extname" (VStr p :: rest) = Returns (VStr (PathStub.extname p))
              /\ call_in "path" "isAbsolute" (VStr p :: rest)
                 = Returns (VBool (PathStub.isAbsolute p))
              /\ call_in "path" "basename" [VStr p]
                 = Returns (VStr (PathStub.basename p None))
              /\ forall ext, call_in "path" "basename" (VStr p :: VStr ext :: rest)
                             = Returns (VStr (PathStub.basename p (Some ext))))
        /\ (forall member, In member ["dirname"; "basename"; "extname"; "isAbsolute"] ->
              call_in "path" member []
              = Throws (TypeError "Cannot read properties of undefined"))
        /\ call_in "util" "format" args = as_string (Array_join host " " args)
        /\ (forall ss, call_in "util" "format" (map VStr ss)
                       = Returns (VStr (String.concat " " ss)))
        /\ call_in "util" "inspect" args = JSON_stringify host (arg 0 args)
        /\ call_in "url" "parse" args = new_URL host (arg 0 args)
        /\ call_in "querystring" "parse" args
           = match new_URLSearchParams host (arg 0 args) with
             | Throws e => Throws e
             | Returns params => Object_fromEntries host params
             end
        /\ call_in "querystring" "stringify" args
           = match new_URLSearchParams host (arg 0 args) with
             | Throws e => Throws e
             | Returns params => URLSearchParams_toString host params
             end
        /\ call_in "crypto" "randomUUID" args
           = match crypto_randomUUID host with
             | Throws e => Throws e
             | Returns uuid => Returns (js_or uuid (VStr (Math_random_text host)))
             end
        /\ call_in "crypto" "randomBytes" args = new_Uint8Array host (arg 0 args)
        /\ on bufferStub_Buffer "alloc" args = new_Uint8Array host (arg 0 args)
        /\ (exists hash updated,
              call_in "crypto" "createHash" args = Returns hash
              /\ on hash "update" args = Returns updated
              /\ on updated "digest" args = Returns (VStr (Math_random_text host)))
        /\ on bufferStub_Buffer "from" args
           = Returns (VBytes match arg 0 args with
                             | VStr s => TextEncoder_encode host s
                             | _ => []
                             end)
        /\ (global_Buffer host = Some bufferStub_Buffer ->
            call_in "child_process" "execSync" args
            = Returns (VBytes (TextEncoder_encode host "")))
        /\ (global_Buffer host = None ->
            call_in "child_process" "execSync" args
            = Throws (ReferenceError "Buffer is not defined")))
    (* the classes *)
    /\ ((forall module member c, In (module, member, c) class_members ->
           call_in module member args = Throws (class_without_new c)
           /\ exists instance, new_in module member args = Returns instance)
        /\ (forall emitter, new_in "events" "EventEmitter" args = Returns emitter ->
              (forall method, In method chaining_methods ->
                 on emitter method args = Returns emitter)
              /\ on emitter "emit" args = Returns (VBool false))
        /\ (forall decoder, new_in "string_decoder" "StringDecoder" args = Returns decoder ->
              on decoder "write" args = as_string (ToString host (arg 0 args))
              /\ (forall s rest, on decoder "write" (VStr s :: rest) = Returns (VStr s))
              /\ on decoder "end" args = Returns (VStr ""))).
Proof.
  intros args get call_in new_in on stat.
  subst get call_in new_in on stat.
  split; [|split; [|split; [|split; [|split; [|split; [|split]]]]]].
  - (* the table *)
    split; [vm_compute; reflexivity|].
    split; [intros module member H; member_cases H|].
    split; [intros module H; cbn [map fst nodeBuiltinStubs_literal] in H; member_cases H|].
    intros module H; member_cases H.
  - (* every throw *)
    split.
    + intros f props e. apply stub_throws_only.
    + intros name this e. apply loader_throws_only.
  - (* the synchronous members *)
    repeat match goal with |- _ /\ _ => split end; try reflexivity.
    + intros f H; member_cases H.
    + intros module member H; member_cases H.
  - (* the promise-style members *)
    repeat match goal with |- _ /\ _ => split end; try reflexivity.
    intros module member H; member_cases H.
  - (* the process stub *)
    repeat split.
  - (* the callback-style members and [assert] *)
    split; [|reflexivity].
    intros module member H.
    cbv [In noopCb_members] in H.
    repeat (destruct H as [H|H]; [injection H as <- <-; reflexivity|]).
    contradiction.
  - (* the members that call built-ins *)
    split; [reflexivity|]. split; [reflexivity|].
    split; [intros parts; apply join_of_strings|].
    split; [intros p rest; repeat split; reflexivity|].
    split; [intros member H; member_cases H|].
    split; [reflexivity|].
    split.
    { intros ss. change (as_string (Array_join host " " (map VStr ss))
                         = Returns (VStr (String.concat " " ss))).
      rewrite Array_join_strings. reflexivity. }
    do 7 (split; [reflexivity|]).
    split; [do 2 eexists; repeat split; reflexivity|].
    split.
    { change (Buffer_from host args
              = Returns (VBytes match arg 0 args with
                                | VStr s => TextEncoder_encode host s
                                | _ => []
                                end)).
      unfold Buffer_from. destruct (arg 0 args); reflexivity. }
    split.
    + intros Hb. exact (execSync_with_loader_Buffer Hb).
    + intros Hb. change (childProcessStub_execSync host
                         = Throws (ReferenceError "Buffer is not defined")).
      unfold childProcessStub_execSync. rewrite Hb. reflexivity.
  - (* the classes *)
    split.
    { intros module member c H.
      cbv [In class_members] in H.
      repeat (destruct H as [H|H];
              [injection H as <- <- <-; split; [reflexivity|eexists; reflexivity]|]).
      contradiction. }
    split.
    + intros emitter H.
      change (Returns (VObj EventEmitter_prototype) = Returns emitter) in H.
      injection H as <-.
      split; [|reflexivity].
      intros method H; member_cases H.
    + intros decoder H.
      change (Returns (VObj StringDecoder_prototype) = Returns decoder) in H.
      injection H as <-.
      split; [reflexivity|]. split; [|reflexivity].
      intros s rest. reflexivity.
Qed.

End Surface.

(** The claim of C5 fails for the [assert] stub, an entry of the stub
    table: called on [false] it throws. *)
Lemma assert_stub_throws :
  lookup_prop "assert" (nodeBuiltinStubs no_builtin) = Some (fn assert)
  /\ call_member (fun _ _ => Returns VUndefined) 0
       (VObj (nodeBuiltinStubs no_builtin)) "assert" [VBool false]
     = Throws (Error "Assertion failed").
Proof. split; vm_compute; reflexivity. Qed.

End LoaderProps.

(* ================================================================== *)
(** * Properties of the extension runner *)
(* ================================================================== *)

Module RunnerProps.
Import Runner.

Section Discovery.

Variable path_join : list string -> string.
Variable path_extname : string -> string.
Variable toLowerCase : string -> string.
Variable base64 : string -> string.
Variable JSON_parse : string -> result json.
Variable userData : string.

Definition extDir : string := getExtensionsDir path_join userData.

Definition extPath_of (dir : string) : string := path_join [extDir; dir].
Definition pkgPath_of (dir : string) : string :=
  path_join [extPath_of dir; "package.json"].

Definition commands_of (fs : gmap string node) (dir : string)
  : list ExtensionCommandInfo :=
  extension_commands path_join path_extname toLowerCase base64 JSON_parse userData fs dir.

Definition discover (fs : gmap string node) : result (list ExtensionCommandInfo) :=
  discoverInstalledExtensionCommands
    path_join path_extname toLowerCase base64 JSON_parse userData fs.

(** The extensions root is absent, or it is a directory that can be
    listed. *)
Definition root_listable (fs : gmap string node) : Prop :=
  fs !! extDir = None \/ exists m dirs, fs !! extDir = Some (NDir m (Some dirs)).

(** The names [fs.readdirSync(extDir)] returns. *)
Definition root_entries (fs : gmap string node) : list string :=
  match fs !! extDir with
  | Some (NDir _ (Some dirs)) => dirs
  | _ => []
  end.

Lemma fold_left_push {A B : Type} (f : B -> list A) (xs : list B) (acc : list A) :
  fold_left (fun results x => results ++ f x) xs acc = acc ++ flat_map f xs.
Proof.
  revert acc. induction xs as [|x xs IH]; intros acc; simpl.
  - rewrite app_nil_r. reflexivity.
  - rewrite IH, <- app_assoc. reflexivity.
Qed.

Lemma discover_listable (fs : gmap string node) :
  root_listable fs ->
  discover fs = Ok (flat_map (commands_of fs) (root_entries fs)).
Proof.
  unfold discover, discoverInstalledExtensionCommands, root_entries,
    existsSync, readdirSync.
  fold extDir.
  intros [Hnone | (m & dirs & Hdir)].
  - rewrite Hnone. reflexivity.
  - rewrite Hdir. simpl. rewrite fold_left_push. reflexivity.
Qed.

Lemma lower_keywords_strings (xs : list json) (ks : list string) :
  lower_keywords toLowerCase xs = Ok ks ->
  forall x, In x xs -> jtruthy (Some x) = true -> exists s, x = JStr s.
Proof.
  revert ks. induction xs as [|y xs IH]; intros ks Hk x Hin Ht; [destruct Hin|].
  destruct Hin as [<- | Hin].
  - destruct y; simpl in Hk, Ht; rewrite ?Ht in Hk; try discriminate.
    eexists; reflexivity.
  - cbn [lower_keywords] in Hk.
    destruct (jtruthy (Some y)); [|exact (IH ks Hk x Hin Ht)].
    destruct y; try discriminate.
    destruct (lower_keywords toLowerCase xs) as [ks'|]; [|discriminate].
    exact (IH ks' eq_refl x Hin Ht).
Qed.

(** A descriptor names its extension and a declared command whose [name]
    is a non-empty string. *)
Definition well_formed (dir : string) (cmd : json) (info : ExtensionCommandInfo) : Prop :=
  extName info = dir
  /\ jget cmd "name" = Ok (Some (JStr (cmdName info)))
  /\ String.eqb (cmdName info) "" = false
  /\ id info = "ext-" +:+ dir +:+ "-" +:+ cmdName info.

Lemma command_info_well_formed (dir : string) (pkg : json) (icon : option string)
    (cmd : json) (info : ExtensionCommandInfo) :
  command_info toLowerCase dir pkg icon cmd = Ok (Some info) ->
  well_formed dir cmd info /\ iconDataUrl info = icon.
Proof.
  unfold command_info.
  destruct (jget cmd "name") as [name|] eqn:Hname; [|discriminate].
  destruct (jtruthy name) eqn:Ht; cbn [negb]; [|discriminate].
  destruct (jget cmd "title") as [ctitle|]; [|discriminate].
  destruct (jget cmd "description") as [cdesc|]; [|discriminate].
  destruct (jget cmd "mode") as [cmode|]; [|discriminate].
  destruct (jget pkg "title") as [ptitle|]; [|discriminate].
  cbv zeta.
  match goal with
  | |- context [lower_keywords toLowerCase ?l] =>
      destruct (lower_keywords toLowerCase l) as [ks|] eqn:Hk; [|discriminate]
  end.
  intros [= <-].
  destruct name as [j|]; [|discriminate].
  assert (Hj : jor (Some j) JNull = j) by (unfold jor; rewrite Ht; reflexivity).
  rewrite Hj in *.
  destruct (lower_keywords_strings _ _ Hk j) as [s ->]; [simpl; auto|exact Ht|].
  assert (Hs : String.eqb s "" = false)
    by (simpl in Ht; destruct (String.eqb s ""); [discriminate|reflexivity]).
  unfold well_formed; cbn. repeat split; auto.
Qed.

Lemma push_commands_in (dir : string) (pkg : json) (icon : option string)
    (cmds : list json) (info : ExtensionCommandInfo) :
  In info (push_commands toLowerCase dir pkg icon cmds) ->
  exists cmd, In cmd cmds /\ command_info toLowerCase dir pkg icon cmd = Ok (Some info).
Proof.
  induction cmds as [|cmd cmds IH]; simpl; [intros []|].
  destruct (command_info toLowerCase dir pkg icon cmd) as [[info'|]|] eqn:Hc.
  - intros [<- | Hin]; [exists cmd; auto|].
    destruct (IH Hin) as (c & Hc1 & Hc2). exists c; auto.
  - intros Hin. destruct (IH Hin) as (c & Hc1 & Hc2). exists c; auto.
  - intros [].
Qed.

(** A command without a truthy name is skipped and the loop goes on. *)
Lemma push_commands_skip (dir : string) (pkg : json) (icon : option string)
    (cmd : json) (rest : list json) (name : option json) :
  jget cmd "name" = Ok name -> jtruthy name = false ->
  push_commands toLowerCase dir pkg icon (cmd :: rest)
  = push_commands toLowerCase dir pkg icon rest.
Proof.
  intros Hn Ht. simpl. unfold command_info. rewrite Hn, Ht. reflexivity.
Qed.

(** The manifest a directory of the root holds, if it can be read and
    parsed. *)
Definition manifest (fs : gmap string node) (dir : string) : option json :=
  match readFileSync fs (pkgPath_of dir) with
  | Ok source =>
      match JSON_parse source with
      | Ok pkg => Some pkg
      | Thrown => None
      end
  | Thrown => None
  end.

Lemma commands_of_declared (fs : gmap string node) (dir : string)
    (info : ExtensionCommandInfo) :
  In info (commands_of fs dir) ->
  exists m names pkg cmds cmd,
    fs !! extPath_of dir = Some (NDir m names)
    /\ manifest fs dir = Some pkg
    /\ (exists commands, jget pkg "commands" = Ok commands
                         /\ iterate (jor commands (JArr [])) = Ok cmds)
    /\ In cmd cmds
    /\ well_formed dir cmd info.
Proof.
  unfold commands_of, extension_commands, manifest, statSync.
  fold extDir. fold (extPath_of dir). fold (pkgPath_of dir).
  destruct (fs !! extPath_of dir) as [[m d|m names]|] eqn:Hstat; simpl;
    try (intros []).
  destruct (existsSync fs (pkgPath_of dir)); simpl; [|intros []].
  unfold manifest_commands.
  destruct (readFileSync fs (pkgPath_of dir)) as [source|]; [|intros []].
  destruct (JSON_parse source) as [pkg|]; [|intros []].
  destruct (jget pkg "icon") as [icon|]; [|intros []].
  destruct (jget pkg "commands") as [commands|] eqn:Hcmds; [|intros []].
  destruct (getExtensionIconDataUrl _ _ _ _ _ _ _) as [url|]; [|intros []].
  destruct (iterate (jor commands (JArr []))) as [cmds|] eqn:Hit; [|intros []].
  intros Hin. destruct (push_commands_in _ _ _ _ _ Hin) as (cmd & Hc & Hinfo).
  exists m, names, pkg, cmds, cmd. repeat split; auto.
  - exists commands; auto.
  - apply (command_info_well_formed _ _ _ _ _ Hinfo).
  - apply (command_info_well_formed _ _ _ _ _ Hinfo).
  - apply (command_info_well_formed _ _ _ _ _ Hinfo).
  - apply (command_info_well_formed _ _ _ _ _ Hinfo).
Qed.

(** An entry of the root that is missing, that is no directory, that has
    no manifest, or whose manifest cannot be read or parsed, pushes
    nothing. *)
Lemma commands_of_broken (fs : gmap string node) (dir : string) :
  (fs !! extPath_of dir = None
   \/ (exists m d, fs !! extPath_of dir = Some (NFile m d))
   \/ fs !! pkgPath_of dir = None
   \/ manifest fs dir = None) ->
  commands_of fs dir = [].
Proof.
  unfold commands_of, extension_commands, manifest, statSync, existsSync.
  fold extDir. fold (extPath_of dir). fold (pkgPath_of dir).
  intros [H | [(m & d & H) | [H | H]]].
  - rewrite H. reflexivity.
  - rewrite H. reflexivity.
  - destruct (fs !! extPath_of dir) as [[]|]; simpl; try reflexivity.
    rewrite H. reflexivity.
  - destruct (fs !! extPath_of dir) as [[]|]; simpl; try reflexivity.
    destruct (fs !! pkgPath_of dir); simpl; [|reflexivity].
    unfold manifest_commands.
    destruct (readFileSync fs (pkgPath_of dir)) as [source|]; [|reflexivity].
    destruct (JSON_parse source); [discriminate|reflexivity].
Qed.

(** An icon file that cannot be read yields no icon and no throw. *)
Lemma unreadable_icon (fs : gmap string node) (p : string) (m : Z) :
  fs !! p = Some (NFile m None) ->
  icon_at path_extname toLowerCase base64 fs p = None.
Proof.
  intros H. unfold icon_at, existsSync, readFileSync. rewrite H. reflexivity.
Qed.

(** Fault isolation per extension.  When the extensions root is absent or
    can be listed, discovery does not throw: its result is the
    concatenation, over the entries of the root, of what each entry pushes
    by itself, so every descriptor of every extension is emitted whatever
    the other entries hold; an absent root gives the empty list; an entry
    that is missing, no directory, without manifest, or with a manifest
    that cannot be read or parsed pushes nothing; a command without a
    truthy name is skipped; and every descriptor pushed names its extension
    and a command the manifest declares under a non-empty string name. *)
Lemma discovery_fault_isolated :
  forall fs : gmap string node,
    root_listable fs ->
    discover fs = Ok (flat_map (commands_of fs) (root_entries fs))
    /\ (forall dir info, In dir (root_entries fs) -> In info (commands_of fs dir) ->
          exists results, discover fs = Ok results /\ In info results)
    /\ (fs !! extDir = None -> discover fs = Ok [])
    /\ (forall dir,
          (fs !! extPath_of dir = None
           \/ (exists m d, fs !! extPath_of dir = Some (NFile m d))
           \/ fs !! pkgPath_of dir = None
           \/ manifest fs dir = None) ->
          commands_of fs dir = [])
    /\ (forall dir pkg icon cmd rest name,
          jget cmd "name" = Ok name -> jtruthy name = false ->
          push_commands toLowerCase dir pkg icon (cmd :: rest)
          = push_commands toLowerCase dir pkg icon rest)
    /\ (forall dir info, In info (commands_of fs dir) ->
          exists m names pkg cmds cmd,
            fs !! extPath_of dir = Some (NDir m names)
            /\ manifest fs dir = Some pkg
            /\ (exists commands, jget pkg "commands" = Ok commands
                                 /\ iterate (jor commands (JArr [])) = Ok cmds)
            /\ In cmd cmds
            /\ well_formed dir cmd info).
Proof.
  intros fs Hroot.
  split; [apply discover_listable; exact Hroot|].
  split.
  { intros dir info Hdir Hinfo. eexists. split; [apply discover_listable; exact Hroot|].
    apply in_flat_map. exists dir. auto. }
  split.
  { intros Hnone. unfold discover, discoverInstalledExtensionCommands, existsSync.
    fold extDir. rewrite Hnone. reflexivity. }
  split; [intros dir; apply commands_of_broken|].
  split; [intros dir pkg icon cmd rest name; apply push_commands_skip|].
  intros dir info. apply commands_of_declared.
Qed.

End Discovery.

Section Build.

Variable path_join : list string -> string.
Variable JSON_parse : string -> result json.
Variable userData : string.
Variable npm_install : string -> gmap string node -> gmap string node * bool.
Variable esbuild_build : gmap string node -> string -> list string -> result string.

Definition build (extName cmdName : string) (w : world) : option string * world :=
  buildExtensionCommand path_join JSON_parse userData npm_install esbuild_build
    extName cmdName w.

(** The world in which the cache is checked: dependencies are provisioned
    and the build directory exists. *)
Definition at_cache_check (extName : string) (w : world) : world :=
  snd (getBuildDir path_join userData extName
         (ensureDepsInstalled path_join JSON_parse npm_install
            (path_join [getExtensionsDir path_join userData; extName]) w)).

Definition outFile_of (extName cmdName : string) : string :=
  path_join [path_join [getExtensionsDir path_join userData; extName; ".sc-build"];
             cmdName +:+ ".js"].

Lemma getBuildDir_path (extName : string) (w : world) :
  fst (getBuildDir path_join userData extName w)
  = path_join [getExtensionsDir path_join userData; extName; ".sc-build"].
Proof. unfold getBuildDir. destruct (negb _); reflexivity. Qed.

Lemma snoc_neq {A : Type} (l : list A) (x : A) : l ++ [x] = l -> False.
Proof.
  intros H. apply (f_equal (@length A)) in H.
  rewrite length_app in H. simpl in H. lia.
Qed.

(** C2.  Let the extension directory exist, let the entry file resolve,
    and let the cache path hold a readable file when the cache is checked.
    Then the build returns the cached text and leaves the machine as it is
    (no bundler run, no file written) if and only if the modification time
    of the cache file is strictly later than that of the entry file.  When
    the entry file's time is equal or later, the bundler is run once on
    the entry file, and if it succeeds its output is returned and written
    to the cache path. *)
Theorem cached_bundle_used_iff_newer :
  forall (extName cmdName : string) (w : world) (entryFile : string)
         (src : node) (outMtime : Z) (text : string),
    let extPath := path_join [getExtensionsDir path_join userData; extName] in
    let w1 := ensureDepsInstalled path_join JSON_parse npm_install extPath w in
    let w2 := at_cache_check extName w in
    let outFile := outFile_of extName cmdName in
    let nodePaths :=
      if existsSync (files w2) (path_join [extPath; "node_modules"])
      then [path_join [extPath; "node_modules"]] else [] in
    existsSync (files w) extPath = true ->
    resolveEntryFile path_join (files w1) extPath cmdName = Some entryFile ->
    files w2 !! entryFile = Some src ->
    files w2 !! outFile = Some (NFile outMtime (Some text)) ->
    (build extName cmdName w = (Some text, w2) <-> (node_mtime src < outMtime)%Z)
    /\ ((outMtime <= node_mtime src)%Z ->
        builds (snd (build extName cmdName w)) = builds w2 ++ [entryFile]
        /\ forall bundle,
             esbuild_build (files w2) entryFile nodePaths = Ok bundle ->
             fst (build extName cmdName w) = Some bundle
             /\ files (snd (build extName cmdName w))
                = <[outFile := NFile (clock w2) (Some bundle)]> (files w2)).
Proof.
  intros extName cmdName w entryFile src outMtime text extPath w1 w2 outFile
    nodePaths Hext Hentry Hsrc Hout.
  unfold build, buildExtensionCommand.
  fold extPath. rewrite Hext. cbn [negb]. fold w1. rewrite Hentry.
  assert (Hw2 : snd (getBuildDir path_join userData extName w1) = w2) by reflexivity.
  pose proof (getBuildDir_path extName w1) as Hdir.
  destruct (getBuildDir path_join userData extName w1) as [buildDir w2'].
  simpl in Hw2, Hdir. subst w2' buildDir. fold (outFile_of extName cmdName).
  fold outFile.
  unfold cached_build, existsSync, statSync, readFileSync.
  rewrite Hout, Hsrc. cbn [node_mtime].
  destruct (Z.ltb_spec (node_mtime src) outMtime) as [Hlt | Hge].
  - split; [split; auto|]. intros Hle. lia.
  - unfold run_esbuild. fold extPath. fold nodePaths.
    destruct (esbuild_build (files w2) entryFile nodePaths) as [bundle|] eqn:Hb.
    + unfold existsSync, readFileSync. rewrite lookup_insert_eq.
      split.
      * split; [|lia]. intros [= _ Hw]. exfalso.
        apply (f_equal builds) in Hw. simpl in Hw. exact (snoc_neq _ _ Hw).
      * intros _. split; [reflexivity|].
        intros bundle' [= <-]. split; reflexivity.
    + split.
      * split; [discriminate|lia].
      * intros _. split; [reflexivity|]. intros bundle' [=].
Qed.

End Build.

(** ** A concrete machine *)

Definition join (parts : list string) : string := String.concat "/" parts.

Definition manifest_G : json :=
  JObj [ ("title", JStr "tools");
         ("commands", JArr [ JObj [ ("name", JStr "foo"); ("mode", JStr "no-view") ];
                             JObj [ ("name", JStr "") ] ]) ].

(** A parser that knows one manifest and rejects every other text. *)
Definition parse_G (source : string) : result json :=
  if String.eqb source "G" then Ok manifest_G else Thrown.

Definition disk : gmap string node :=
  list_to_map
    [ ("/u/extensions", NDir 0 (Some ["bad"; "good"]));
      ("/u/extensions/bad", NDir 0 (Some ["package.json"]));
      ("/u/extensions/bad/package.json", NFile 0 (Some "{"));
      ("/u/extensions/good", NDir 0 (Some ["package.json"; "src"; "node_modules"]));
      ("/u/extensions/good/package.json", NFile 0 (Some "G"));
      ("/u/extensions/good/node_modules", NDir 0 (Some []));
      ("/u/extensions/good/src/foo.tsx", NFile 10 (Some "export default ..."));
      ("/u/extensions/good/.sc-build", NDir 5 (Some ["foo.js"]));
      ("/u/extensions/good/.sc-build/foo.js", NFile 20 (Some "cached bundle")) ].

Definition machine : world := mkWorld disk 30 [] [] [].

Definition no_install (cwd : string) (fs : gmap string node) : gmap string node * bool :=
  (fs, true).

Definition constant_bundler (fs : gmap string node) (entry : string)
    (nodePaths : list string) : result string :=
  Ok "fresh bundle".

(** On the concrete machine the broken extension [bad] pushes nothing and
    the command of [good] is listed. *)
Lemma discovery_example :
  root_listable join "/u" disk
  /\ discover join (fun p => "") (fun s => s) (fun s => s) parse_G "/u" disk
     = Ok [ mkInfo "ext-good-foo" "foo" "good" "foo" "" (JStr "no-view")
                   ["good"; "tools"; "foo"] None ].
Proof.
  assert (H : root_listable join "/u" disk).
  { right. exists 0%Z, ["bad"; "good"]. reflexivity. }
  split; [exact H|].
  rewrite (proj1 (discovery_fault_isolated join (fun p => "") (fun s => s)
                    (fun s => s) parse_G "/u" disk H)).
  vm_compute. reflexivity.
Qed.

(** The same disk with the extensions root made unreadable (a directory
    whose listing fails, as under mode 000). *)
Definition locked_disk : gmap string node :=
  <["/u/extensions" := NDir 0 None]> disk.

(** C9 at an extensions root that exists but cannot be listed:
    [fs.existsSync] answers [true], [fs.readdirSync] throws, and no
    [try] block is around it, so discovery throws. *)
Theorem unlistable_root_throws :
  existsSync locked_disk (getExtensionsDir join "/u") = true
  /\ readdirSync locked_disk (getExtensionsDir join "/u") = Thrown
  /\ discover join (fun p => "") (fun s => s) (fun s => s) parse_G "/u" locked_disk
     = Thrown.
Proof. repeat split; vm_compute; reflexivity. Qed.

(** A manifest whose second command entry is [null]. *)
Definition manifest_with_null_entry : json :=
  JObj [ ("commands", JArr [ JObj [ ("name", JStr "first") ];
                             JNull;
                             JObj [ ("name", JStr "third") ] ]) ].

(** A command entry that throws ends the loop of its extension: the
    entries before it are listed, the well-formed entries after it are
    not. *)
Lemma throwing_entry_ends_the_loop :
  map cmdName
      (push_commands (fun s => s) "ext" manifest_with_null_entry None
         [ JObj [ ("name", JStr "first") ]; JNull; JObj [ ("name", JStr "third") ] ])
  = ["first"].
Proof. vm_compute. reflexivity. Qed.

Lemma cached_bundle_used_iff_newer_witness :
  existsSync (files machine) (join [getExtensionsDir join "/u"; "good"]) = true
  /\ build join parse_G "/u" no_install constant_bundler "good" "foo" machine
     = (Some "cached bundle", machine).
Proof.
  split; [reflexivity|].
  apply (proj1 (cached_bundle_used_iff_newer join parse_G "/u" no_install
                  constant_bundler "good" "foo" machine
                  "/u/extensions/good/src/foo.tsx"
                  (NFile 10 (Some "export default ...")) 20 "cached bundle"
                  eq_refl eq_refl eq_refl eq_refl)).
  reflexivity.
Defined.

End RunnerProps.

(* ================================================================== *)
(** * Properties of the [path] stub *)
(* ================================================================== *)

Module StringFacts.

Lemma app_cons (a : Ascii.ascii) (s1 s2 : string) :
  String a s1 +:+ s2 = String a (s1 +:+ s2).
Proof. reflexivity. Qed.

Lemma app_nil_l (s : string) : "" +:+ s = s.
Proof. reflexivity. Qed.

Lemma app_nil_r (s : string) : s +:+ "" = s.
Proof. induction s as [|a s IH]; [reflexivity|]. rewrite app_cons, IH. reflexivity. Qed.

Lemma app_assoc (s1 s2 s3 : string) : (s1 +:+ s2) +:+ s3 = s1 +:+ s2 +:+ s3.
Proof.
  induction s1 as [|a s IH]; [reflexivity|]. rewrite !app_cons, IH. reflexivity.
Qed.

Lemma length_app (s1 s2 : string) :
  String.length (s1 +:+ s2) = (String.length s1 + String.length s2)%nat.
Proof.
  induction s1 as [|a s IH]; [reflexivity|]. rewrite app_cons. simpl. rewrite IH.
  reflexivity.
Qed.

Lemma app_eq_nil (s1 s2 : string) : s1 +:+ s2 = "" -> s1 = "" /\ s2 = "".
Proof. destruct s1; [rewrite app_nil_l; auto|rewrite app_cons; discriminate]. Qed.

Lemma substring_all (s : string) : String.substring 0 (String.length s) s = s.
Proof. induction s as [|a s IH]; [reflexivity|]. simpl. rewrite IH. reflexivity. Qed.

Lemma substring_prefix (s1 s2 : string) :
  String.substring 0 (String.length s1) (s1 +:+ s2) = s1.
Proof.
  induction s1 as [|a s IH].
  - rewrite app_nil_l. destruct s2; reflexivity.
  - rewrite app_cons. simpl. rewrite IH. reflexivity.
Qed.

Lemma substring_suffix (s1 s2 : string) :
  String.substring (String.length s1) (String.length s2) (s1 +:+ s2) = s2.
Proof.
  induction s1 as [|a s IH]; [apply substring_all|].
  rewrite app_cons. simpl. exact IH.
Qed.

End StringFacts.

Module PathStubProps.
Import PathStub StringFacts.

Definition sep : string := String slash EmptyString.

(** Whether ['/'] occurs in [s]. *)
Fixpoint has_slash (s : string) : bool :=
  match s with
  | EmptyString => false
  | String a rest => Ascii.eqb a slash || has_slash rest
  end.

Lemma split_not_nil (c : Ascii.ascii) (s : string) : split c s <> [].
Proof.
  induction s as [|a s IH]; cbn; [discriminate|].
  destruct (Ascii.eqb a c); [discriminate|].
  destruct (split c s); discriminate.
Qed.

Lemma concat_cons (x : string) (xs : list string) :
  xs <> [] -> String.concat sep (x :: xs) = x +:+ sep +:+ String.concat sep xs.
Proof. destruct xs; [congruence|reflexivity]. Qed.

(** Splitting at a separator and joining with it gives the string back. *)
Lemma concat_split (s : string) : String.concat sep (split slash s) = s.
Proof.
  induction s as [|a s IH]; [reflexivity|]. cbn [split].
  destruct (Ascii.eqb_spec a slash) as [->|Hne].
  - rewrite concat_cons by apply split_not_nil. rewrite IH. reflexivity.
  - pose proof (split_not_nil slash s) as Hnil.
    destruct (split slash s) as [|piece pieces]; [congruence|].
    destruct pieces as [|p' ps].
    + cbn in *. rewrite IH. reflexivity.
    + rewrite (concat_cons (String a piece)) by congruence.
      rewrite (concat_cons piece) in IH by congruence.
      rewrite app_cons. rewrite IH. reflexivity.
Qed.

Lemma split_plain (s : string) : has_slash s = false -> split slash s = [s].
Proof.
  induction s as [|a s IH]; [reflexivity|]. cbn.
  destruct (Ascii.eqb a slash); [discriminate|]. cbn. intros H.
  rewrite (IH H). reflexivity.
Qed.

Lemma split_app (s1 s2 : string) :
  split slash (s1 +:+ sep +:+ s2) = split slash s1 ++ split slash s2.
Proof.
  induction s1 as [|a s IH].
  - rewrite app_nil_l. change (sep +:+ s2) with (String slash s2).
    cbn [split]. rewrite Ascii.eqb_refl. reflexivity.
  - rewrite app_cons. cbn [split]. rewrite IH.
    destruct (Ascii.eqb a slash); [reflexivity|].
    pose proof (split_not_nil slash s) as Hnil.
    destruct (split slash s); [congruence|reflexivity].
Qed.

Lemma pieces_plain (s : string) :
  Forall (fun piece => has_slash piece = false) (split slash s).
Proof.
  induction s as [|a s IH]; cbn; [repeat constructor|].
  destruct (Ascii.eqb a slash) eqn:Ha; [constructor; [reflexivity|exact IH]|].
  destruct (split slash s) as [|piece pieces]; [repeat constructor; cbn; rewrite Ha; reflexivity|].
  inversion IH; subst. constructor; [cbn; rewrite Ha; assumption|assumption].
Qed.

Lemma split_single (s : string) :
  has_slash s = true -> exists piece pieces rest, split slash s = piece :: pieces :: rest.
Proof.
  induction s as [|a s IH]; cbn; [discriminate|].
  destruct (Ascii.eqb a slash); cbn.
  - intros _. pose proof (split_not_nil slash s).
    destruct (split slash s) as [|p ps]; [congruence|]. eauto.
  - intros H. destruct (IH H) as (p & q & r & ->). eauto.
Qed.

Lemma concat_snoc (xs : list string) (x : string) :
  xs <> [] -> String.concat sep (xs ++ [x]) = String.concat sep xs +:+ sep +:+ x.
Proof.
  induction xs as [|y ys IH]; [congruence|]. intros _.
  destruct ys as [|z zs]; [reflexivity|].
  change ((y :: z :: zs) ++ [x]) with (y :: ((z :: zs) ++ [x])).
  rewrite concat_cons by (simpl; congruence).
  rewrite IH by congruence.
  rewrite (concat_cons y (z :: zs)) by congruence.
  rewrite !app_assoc. reflexivity.
Qed.

(** X1.  A path is its [dirname], a slash if the path has one, and its
    [basename]; the [basename] has no slash, and a path without a slash
    has the empty [dirname] and is its own [basename]. *)
Theorem dirname_basename_decompose :
  forall p : string,
    p = dirname p +:+ (if has_slash p then sep else "") +:+ basename p None
    /\ has_slash (basename p None) = false
    /\ (has_slash p = false -> dirname p = "" /\ basename p None = p).
Proof.
  intros p. unfold dirname, basename.
  pose proof (concat_split p) as Hcat.
  pose proof (pieces_plain p) as Hplain.
  destruct (has_slash p) eqn:Hs.
  - destruct (split_single p Hs) as (x & y & r & Hsp).
    rewrite Hsp in *.
    destruct (exists_last (l := x :: y :: r)) as (init & b & Hinit); [discriminate|].
    rewrite Hinit in *. rewrite removelast_last, last_last.
    assert (Hne : init <> []) by (destruct init; [discriminate|discriminate]).
    split; [rewrite <- Hcat at 1; apply concat_snoc; exact Hne|].
    split; [|discriminate].
    apply Forall_app in Hplain. destruct Hplain as [_ Hb]. inversion Hb; assumption.
  - rewrite (split_plain p Hs). cbn. auto.
Qed.

(** ** [join] *)

Lemma filter_all_nonempty (xs : list string) :
  Forall (fun x => nonempty x = true) (List.filter nonempty xs).
Proof.
  induction xs as [|x xs IH]; simpl; [constructor|].
  destruct (nonempty x) eqn:Hx; [constructor; assumption|assumption].
Qed.

Lemma filter_id (xs : list string) :
  Forall (fun x => nonempty x = true) xs -> List.filter nonempty xs = xs.
Proof.
  induction 1 as [|x xs Hx _ IH]; simpl; [reflexivity|]. rewrite Hx, IH. reflexivity.
Qed.

Lemma nonempty_app_l (s1 s2 : string) : nonempty s1 = true -> nonempty (s1 +:+ s2) = true.
Proof. destruct s1; [discriminate|reflexivity]. Qed.

Lemma concat_nonempty (xs : list string) :
  xs <> [] -> Forall (fun x => nonempty x = true) xs ->
  nonempty (String.concat sep xs) = true.
Proof.
  intros Hne Hall. destruct Hall as [|x xs Hx Hxs]; [congruence|].
  destruct xs; [exact Hx|].
  rewrite concat_cons by congruence. apply nonempty_app_l. exact Hx.
Qed.

Lemma concat_app (xs ys : list string) :
  xs <> [] -> ys <> [] ->
  String.concat sep (xs ++ ys) = String.concat sep xs +:+ sep +:+ String.concat sep ys.
Proof.
  intros Hx Hy. induction xs as [|x xs IH]; [congruence|].
  destruct xs as [|x' xs'].
  - simpl app. rewrite concat_cons by exact Hy. reflexivity.
  - change ((x :: x' :: xs') ++ ys) with (x :: ((x' :: xs') ++ ys)).
    rewrite concat_cons by (simpl; congruence).
    rewrite IH by congruence.
    rewrite (concat_cons x (x' :: xs')) by congruence.
    rewrite !app_assoc. reflexivity.
Qed.

Lemma join_eq (xs : list string) :
  join xs = String.concat sep (List.filter nonempty xs).
Proof. reflexivity. Qed.

Lemma nonempty_false (s : string) : nonempty s = false -> s = "".
Proof. destruct s; [reflexivity|discriminate]. Qed.

(** X2.  [join] ignores empty parts and composes: joining two lists of
    parts one after the other is joining their two joins; a single part is
    returned as it is; and the result starts with a slash exactly when the
    first non-empty part does. *)
Theorem join_composes :
  forall (xs ys : list string) (x : string),
    join (xs ++ ys) = join [join xs; join ys]
    /\ join (List.filter nonempty xs) = join xs
    /\ join [x] = x
    /\ join ("" :: xs) = join xs
    /\ (nonempty x = true -> isAbsolute (join (x :: xs)) = isAbsolute x).
Proof.
  intros xs ys x.
  split.
  { rewrite !join_eq, List.filter_app.
    pose proof (filter_all_nonempty xs) as Hxs.
    pose proof (filter_all_nonempty ys) as Hys.
    destruct (List.filter nonempty xs) as [|a xs'] eqn:Ex;
      destruct (List.filter nonempty ys) as [|b ys'] eqn:Ey.
    - reflexivity.
    - change ([] ++ b :: ys') with (b :: ys').
      change (List.filter nonempty [String.concat sep []; String.concat sep (b :: ys')])
        with (if nonempty (String.concat sep (b :: ys'))
              then [String.concat sep (b :: ys')] else []).
      rewrite (concat_nonempty (b :: ys')) by (congruence || assumption).
      reflexivity.
    - rewrite List.app_nil_r. cbn [List.filter].
      rewrite (concat_nonempty (a :: xs')) by (congruence || assumption).
      change (nonempty (String.concat sep [])) with false. reflexivity.
    - cbn [List.filter].
      rewrite (concat_nonempty (a :: xs')) by (congruence || assumption).
      rewrite (concat_nonempty (b :: ys')) by (congruence || assumption).
      rewrite concat_app by congruence. reflexivity. }
  split.
  { rewrite !join_eq. rewrite filter_id by apply filter_all_nonempty. reflexivity. }
  split.
  { rewrite join_eq. cbn [List.filter]. destruct (nonempty x) eqn:Hx; [reflexivity|].
    symmetry. apply nonempty_false. exact Hx. }
  split; [reflexivity|].
  intros Hx. rewrite join_eq. cbn [List.filter]. rewrite Hx.
  destruct (List.filter nonempty xs) as [|y ys'].
  - reflexivity.
  - rewrite concat_cons by congruence. destruct x; [discriminate|reflexivity].
Qed.

(** ** [basename] with an extension *)

Lemma has_slash_app (s1 s2 : string) :
  has_slash (s1 +:+ s2) = has_slash s1 || has_slash s2.
Proof.
  induction s1 as [|a s IH]; [reflexivity|]. rewrite app_cons. simpl.
  rewrite IH, orb_assoc. reflexivity.
Qed.

Lemma last_split_app (dir base : string) :
  has_slash base = false ->
  List.last (split slash (dir +:+ sep +:+ base)) "" = base.
Proof.
  intros H. rewrite split_app, (split_plain base H). apply last_last.
Qed.

Lemma endsWith_app (stem e : string) : endsWith (stem +:+ e) e = true.
Proof.
  unfold endsWith. rewrite length_app.
  replace (String.length stem + String.length e - String.length e)%nat
    with (String.length stem) by lia.
  rewrite substring_suffix, String.eqb_refl.
  replace (String.length e <=? String.length stem + String.length e)%nat with true
    by (symmetry; apply Nat.leb_le; lia).
  reflexivity.
Qed.

Lemma strip_suffix (stem e : string) :
  String.substring 0 (String.length (stem +:+ e) - String.length e) (stem +:+ e) = stem.
Proof.
  rewrite length_app.
  replace (String.length stem + String.length e - String.length e)%nat
    with (String.length stem) by lia.
  apply substring_prefix.
Qed.

(** X3.  For a file name [stem ++ e] without slashes and a non-empty
    [e], [basename] with the extension [e] returns [stem], with or
    without a directory in front; an empty extension changes nothing. *)
Theorem basename_strips_extension :
  forall dir stem e : string,
    nonempty e = true ->
    has_slash stem = false ->
    has_slash e = false ->
    basename (dir +:+ sep +:+ stem +:+ e) (Some e) = stem
    /\ basename (stem +:+ e) (Some e) = stem
    /\ basename (dir +:+ sep +:+ stem +:+ e) None = stem +:+ e
    /\ basename (dir +:+ sep +:+ stem +:+ e) (Some "") = stem +:+ e.
Proof.
  intros dir stem e He Hs Hse.
  assert (Hb : has_slash (stem +:+ e) = false)
    by (rewrite has_slash_app, Hs, Hse; reflexivity).
  unfold basename.
  rewrite (last_split_app dir (stem +:+ e) Hb), (split_plain _ Hb).
  cbn [List.last]. rewrite He, endsWith_app. cbn [andb].
  rewrite strip_suffix. repeat split; reflexivity.
Qed.

Lemma basename_strips_extension_witness :
  nonempty ".txt" = true
  /\ has_slash "notes" = false
  /\ has_slash ".txt" = false
  /\ basename "/home/me/notes.txt" (Some ".txt") = "notes".
Proof.
  do 3 (split; [reflexivity|]).
  exact (proj1 (basename_strips_extension "/home/me" "notes" ".txt"
                  eq_refl eq_refl eq_refl)).
Defined.

(** ** [extname] *)

Lemma plain_app_dot (s1 s2 : string) : plain (s1 +:+ String dot s2) = false.
Proof.
  induction s1 as [|a s IH].
  - rewrite app_nil_l. reflexivity.
  - rewrite app_cons. cbn [plain]. rewrite IH, andb_false_r. reflexivity.
Qed.

Lemma extname_after_last_dot (pre w : string) :
  nonempty w = true -> plain w = true ->
  extname (pre +:+ String dot w) = String dot w.
Proof.
  intros Hw Hp. induction pre as [|a pre IH].
  - rewrite app_nil_l. cbn [extname]. rewrite Hw, Hp. reflexivity.
  - rewrite app_cons. cbn [extname].
    rewrite plain_app_dot, andb_false_r. exact IH.
Qed.

Lemma extname_shape (p : string) :
  extname p = ""
  \/ exists pre w, p = pre +:+ String dot w /\ nonempty w = true /\ plain w = true
                  /\ extname p = String dot w.
Proof.
  induction p as [|a rest IH]; [left; reflexivity|]. cbn [extname].
  destruct (Ascii.eqb_spec a dot) as [->|Ha]; cbn [andb].
  - destruct (nonempty rest) eqn:Hn; cbn [andb];
      [destruct (plain rest) eqn:Hp|].
    + right. exists "", rest. auto.
    + destruct IH as [IH | (pre & w & -> & Hw & Hp' & He)]; [left; exact IH|].
      right. exists (String dot pre), w. rewrite He. auto.
    + destruct IH as [IH | (pre & w & -> & Hw & Hp' & He)]; [left; exact IH|].
      right. exists (String dot pre), w. rewrite He. auto.
  - destruct IH as [IH | (pre & w & -> & Hw & Hp' & He)]; [left; exact IH|].
    right. exists (String a pre), w. rewrite He. auto.
Qed.

(** X4.  [extname] returns the part of the path from its last dot on
    whenever that part is longer than the dot and holds no slash; this
    includes a name that begins with its only dot, which is returned
    whole.  In every other case (no dot, a dot at the very end, a slash
    after the last dot) it returns the empty string. *)
Theorem extname_is_last_dot_suffix :
  forall p : string,
    (forall pre w, nonempty w = true -> plain w = true ->
       extname (pre +:+ String dot w) = String dot w)
    /\ (forall w, nonempty w = true -> plain w = true ->
          extname (String dot w) = String dot w)
    /\ (extname p = ""
        \/ exists pre w, p = pre +:+ String dot w /\ nonempty w = true
                        /\ plain w = true /\ extname p = String dot w)
    /\ (plain p = true -> extname p = "")
    /\ extname (p +:+ String dot "") = ""
    /\ (forall w, has_slash w = true -> plain p = true ->
          extname (p +:+ String dot w) = extname w).
Proof.
  intros p.
  split; [intros pre w; apply extname_after_last_dot|].
  split; [intros w Hw Hp; exact (extname_after_last_dot "" w Hw Hp)|].
  split; [apply extname_shape|].
  assert (Hplain : forall q, plain q = true -> extname q = "").
  { intros q. induction q as [|a q IH]; [reflexivity|]. simpl.
    destruct (Ascii.eqb a dot); [discriminate|]. simpl.
    destruct (Ascii.eqb a slash); [discriminate|]. simpl. exact IH. }
  split; [apply Hplain|].
  assert (Hskip : forall q tail, plain q = true ->
            extname (q +:+ String dot tail)
            = if nonempty tail && plain tail then String dot tail else extname tail).
  { intros q tail. induction q as [|a q IH].
    - intros _. rewrite app_nil_l. reflexivity.
    - rewrite app_cons. simpl.
      destruct (Ascii.eqb a dot); [discriminate|]. simpl.
      destruct (Ascii.eqb a slash); [discriminate|]. simpl. exact IH. }
  split.
  - destruct (extname_shape (p +:+ String dot "")) as [H | (pre & w & Heq & Hw & Hp & _)];
      [exact H|].
    exfalso. revert pre Heq. induction p as [|a p IHp]; intros pre Heq.
    + rewrite app_nil_l in Heq. destruct pre as [|b pre].
      * rewrite app_nil_l in Heq. injection Heq as <-. discriminate.
      * rewrite app_cons in Heq. injection Heq as _ Heq.
        destruct pre; [rewrite app_nil_l in Heq|rewrite app_cons in Heq]; discriminate.
    + rewrite app_cons in Heq. destruct pre as [|b pre].
      * rewrite app_nil_l in Heq. injection Heq as _ <-.
        rewrite plain_app_dot in Hp. discriminate.
      * rewrite app_cons in Heq. injection Heq as _ Heq. exact (IHp pre Heq).
  - intros w Hw Hp. rewrite (Hskip p w Hp).
    assert (Hpw : plain w = false).
    { clear -Hw. induction w as [|a w IH]; [discriminate|]. simpl in *.
      destruct (Ascii.eqb a slash); [rewrite andb_false_r; reflexivity|].
      simpl in Hw. rewrite (IH Hw), !andb_false_r. reflexivity. }
    rewrite Hpw, andb_false_r. reflexivity.
Qed.

End PathStubProps.

(* ================================================================== *)
(** * Properties of the smart calculator *)
(* ================================================================== *)

Module WordsProps.
Import JS Calculator StringFacts.

(** The largest number [numberToWords] spells. *)
Definition max_spelled : Z := 999999999999.

(** The words of one group of three digits with its scale, or nothing for
    a group that is zero. *)
Definition group (d : Z) (scale : string) : list string :=
  if (0 <? d)%Z then [chunk d +:+ scale] else [].

(** The groups of a positive number below 1000^4, highest first. *)
Definition groups (z : Z) : list string :=
  group (z / 1000000000) " Billion"
  ++ group (z / 1000000 mod 1000) " Million"
  ++ group (z / 1000 mod 1000) " Thousand"
  ++ group (z mod 1000) "".

Lemma words_loop_step (fuel : nat) (remaining : Z) (i : nat) (parts : list string) :
  words_loop (S fuel) remaining i parts =
  if (0 <? remaining)%Z
  then words_loop fuel (remaining / 1000) (S i)
         (group (remaining mod 1000) (nth i scales "undefined") ++ parts)
  else Some parts.
Proof.
  unfold group. simpl.
  destruct (0 <? remaining)%Z; [|reflexivity].
  destruct (0 <? remaining mod 1000)%Z; reflexivity.
Qed.

Lemma words_loop_done (fuel : nat) (remaining : Z) (i : nat) (parts : list string) :
  (remaining <= 0)%Z -> words_loop fuel remaining i parts = Some parts.
Proof.
  intros H. destruct fuel; simpl;
    replace (0 <? remaining)%Z with false by (symmetry; apply Z.ltb_ge; lia);
    reflexivity.
Qed.

Lemma group_zero (scale : string) : group 0 scale = [].
Proof. reflexivity. Qed.

(** Four turns of the loop spell every number the guard lets through. *)
Lemma words_loop_groups (z : Z) :
  (0 < z <= max_spelled)%Z -> words_loop 4 z 0 [] = Some (groups z).
Proof.
  unfold max_spelled. intros Hz. unfold groups.
  assert (H0 : (z mod 1000 = z - 1000 * (z / 1000))%Z) by (rewrite Z.mod_eq; lia).
  rewrite words_loop_step.
  replace (0 <? z)%Z with true by (symmetry; apply Z.ltb_lt; lia).
  change (nth 0 scales "undefined") with "".
  rewrite List.app_nil_r.
  set (g0 := group (z mod 1000) "").
  assert (E1 : (z / 1000 / 1000 = z / 1000000)%Z)
    by (rewrite Z.div_div by lia; reflexivity).
  assert (E2 : (z / 1000000 / 1000 = z / 1000000000)%Z)
    by (rewrite Z.div_div by lia; reflexivity).
  destruct (Z.ltb_spec 0 (z / 1000)) as [H1|H1].
  2:{ rewrite words_loop_done by lia.
      assert (z / 1000 = 0)%Z by (pose proof (Z.div_pos z 1000); lia).
      assert (z / 1000000 = 0)%Z by (rewrite <- E1; replace (z / 1000)%Z with 0%Z; reflexivity).
      assert (z / 1000000000 = 0)%Z by (rewrite <- E2; replace (z / 1000000)%Z with 0%Z; reflexivity).
      replace (z / 1000)%Z with 0%Z. replace (z / 1000000)%Z with 0%Z.
      replace (z / 1000000000)%Z with 0%Z. reflexivity. }
  rewrite words_loop_step.
  replace (0 <? z / 1000)%Z with true by (symmetry; apply Z.ltb_lt; lia).
  change (nth 1 scales "undefined") with " Thousand".
  rewrite E1.
  destruct (Z.ltb_spec 0 (z / 1000000)) as [H2|H2].
  2:{ rewrite words_loop_done by lia.
      assert (z / 1000000 = 0)%Z by (pose proof (Z.div_pos z 1000000); lia).
      assert (z / 1000000000 = 0)%Z by (rewrite <- E2; replace (z / 1000000)%Z with 0%Z; reflexivity).
      replace (z / 1000000)%Z with 0%Z. replace (z / 1000000000)%Z with 0%Z.
      reflexivity. }
  rewrite words_loop_step.
  replace (0 <? z / 1000000)%Z with true by (symmetry; apply Z.ltb_lt; lia).
  change (nth 2 scales "undefined") with " Million".
  rewrite E2.
  assert (Hb : (z / 1000000000 < 1000)%Z) by (apply Z.div_lt_upper_bound; lia).
  destruct (Z.ltb_spec 0 (z / 1000000000)) as [H3|H3].
  2:{ rewrite words_loop_done by lia.
      assert (z / 1000000000 = 0)%Z by (pose proof (Z.div_pos z 1000000000); lia).
      replace (z / 1000000000)%Z with 0%Z. reflexivity. }
  rewrite words_loop_step.
  replace (0 <? z / 1000000000)%Z with true by (symmetry; apply Z.ltb_lt; lia).
  change (nth 3 scales "undefined") with " Billion".
  rewrite (Z.mod_small (z / 1000000000) 1000) by lia.
  rewrite words_loop_done
    by (apply Z.lt_succ_r; apply Z.div_lt_upper_bound; lia).
  reflexivity.
Qed.

Lemma integer_of_Z (z : Z) : integer_value (Finite (QArith_base.Qmake z 1)) = Some z.
Proof.
  unfold integer_value. cbn [QArith_base.Qnum QArith_base.Qden].
  rewrite Z.mod_1_r, Z.div_1_r. reflexivity.
Qed.

Lemma chunk_nonempty (d : Z) :
  (0 < d < 1000)%Z -> PathStub.nonempty (chunk d) = true.
Proof.
  intros Hd.
  assert (H : forallb (fun k => PathStub.nonempty (chunk (Z.of_nat k))) (seq 1 999) = true)
    by (vm_compute; reflexivity).
  rewrite forallb_forall in H.
  specialize (H (Z.to_nat d)). rewrite Z2Nat.id in H by lia.
  apply H. apply in_seq. lia.
Qed.

Lemma nonempty_append_l (s t : string) :
  PathStub.nonempty s = true -> PathStub.nonempty (s +:+ t) = true.
Proof. destruct s; [discriminate|]. intros _. reflexivity. Qed.

Lemma group_parts (d : Z) (scale : string) :
  (0 <= d < 1000)%Z -> Forall (fun part => PathStub.nonempty part = true) (group d scale).
Proof.
  intros Hd. unfold group. destruct (Z.ltb_spec 0 d); constructor; [|constructor].
  apply nonempty_append_l, chunk_nonempty. lia.
Qed.

Lemma groups_parts (z : Z) :
  (0 < z <= max_spelled)%Z ->
  groups z <> [] /\ Forall (fun part => PathStub.nonempty part = true) (groups z).
Proof.
  unfold max_spelled. intros Hz.
  assert (Hb : (0 <= z / 1000000000 < 1000)%Z)
    by (split; [apply Z.div_pos; lia | apply Z.div_lt_upper_bound; lia]).
  split.
  - unfold groups, group. intros H.
    pose proof (Z.div_mod z 1000 ltac:(lia)) as D0.
    pose proof (Z.div_mod (z / 1000) 1000 ltac:(lia)) as D1.
    pose proof (Z.div_mod (z / 1000000) 1000 ltac:(lia)) as D2.
    rewrite Z.div_div in D1 by lia. rewrite Z.div_div in D2 by lia.
    change (1000 * 1000)%Z with 1000000%Z in D1.
    change (1000000 * 1000)%Z with 1000000000%Z in D2.
    pose proof (Z.mod_pos_bound z 1000 ltac:(lia)).
    pose proof (Z.mod_pos_bound (z / 1000) 1000 ltac:(lia)).
    pose proof (Z.mod_pos_bound (z / 1000000) 1000 ltac:(lia)).
    destruct (Z.ltb_spec 0 (z / 1000000000)); [discriminate H|].
    destruct (Z.ltb_spec 0 (z / 1000000 mod 1000)); [discriminate H|].
    destruct (Z.ltb_spec 0 (z / 1000 mod 1000)); [discriminate H|].
    destruct (Z.ltb_spec 0 (z mod 1000)); [discriminate H|].
    lia.
  - unfold groups. repeat apply Forall_app_2; apply group_parts;
      solve [lia | apply Z.mod_pos_bound; lia].
Qed.

Lemma concat_parts_nonempty (parts : list string) :
  parts <> [] -> Forall (fun part => PathStub.nonempty part = true) parts ->
  PathStub.nonempty (String.concat " " parts) = true.
Proof.
  intros Hne Hall. destruct parts as [|x xs]; [congruence|].
  inversion Hall as [|? ? Hx _]; subst.
  destruct xs as [|y ys]; [exact Hx|].
  change (String.concat " " (x :: y :: ys)) with (x +:+ " " +:+ String.concat " " (y :: ys)).
  apply nonempty_append_l, Hx.
Qed.

(** X5. [numberToWords] spells a non-zero integer of at most twelve digits
    group by group: the loop ends within four turns, and the result is the
    optional prefix "Negative " followed by the words of the billions,
    millions, thousands and units, each present exactly when its three
    digits are not all zero, joined by single spaces. *)
Theorem numberToWords_by_groups (n : number) (z : Z) :
  integer_value n = Some z -> z <> 0%Z -> (Z.abs z <= max_spelled)%Z ->
  numberToWords n =
  Some ((if (z <? 0)%Z then "Negative " else "")
        +:+ String.concat " " (groups (Z.abs z))).
Proof.
  unfold max_spelled. intros Hn Hz Hmax. unfold numberToWords. rewrite Hn.
  replace (999999999999 <? Z.abs z)%Z with false by (symmetry; apply Z.ltb_ge; lia).
  replace (Z.abs z =? 0)%Z with false by (symmetry; apply Z.eqb_neq; lia).
  rewrite words_loop_groups by (unfold max_spelled; lia).
  reflexivity.
Qed.

Lemma numberToWords_by_groups_witness :
  numberToWords (Finite (QArith_base.Qmake (-1002003) 1)) =
  Some "Negative One Million Two Thousand Three".
Proof.
  rewrite (numberToWords_by_groups (Finite (QArith_base.Qmake (-1002003) 1)) (-1002003)).
  - vm_compute. reflexivity.
  - apply integer_of_Z.
  - lia.
  - unfold max_spelled. lia.
Defined.

(** X6. [numberToWords] always returns, and returns the empty string
    exactly for the inputs its first line rejects: a number that is not an
    integer (NaN and the infinities included) or whose absolute value
    exceeds 999,999,999,999.  Every other number gets words. *)
Theorem numberToWords_empty_iff_rejected (n : number) :
  exists s, numberToWords n = Some s /\
    (s = "" <->
     match integer_value n with
     | None => True
     | Some z => (max_spelled < Z.abs z)%Z
     end).
Proof.
  unfold numberToWords, max_spelled.
  destruct (integer_value n) as [z|] eqn:Hn.
  2:{ exists "". split; [reflexivity|]. split; trivial. }
  destruct (Z.ltb_spec 999999999999 (Z.abs z)) as [Hbig|Hsmall].
  { exists "". split; [reflexivity|]. split; trivial. }
  destruct (Z.eqb_spec (Z.abs z) 0) as [H0|H0].
  { exists "Zero". split; [reflexivity|]. split; [discriminate|lia]. }
  rewrite words_loop_groups by (unfold max_spelled; lia).
  eexists. split; [reflexivity|]. split; [|lia].
  intros Hempty. exfalso.
  destruct (groups_parts (Z.abs z)) as [Hne Hall]; [unfold max_spelled; lia|].
  pose proof (concat_parts_nonempty _ Hne Hall) as Hc.
  destruct (z <? 0)%Z.
  - rewrite app_cons in Hempty. discriminate Hempty.
  - rewrite app_nil_l in Hempty. rewrite Hempty in Hc. discriminate Hc.
Qed.

End WordsProps.

Module UnitsProps.
Import JS Calculator.

Section Units.

Variable toLowerCase : string -> string.
Variable num : Type.
Variable add sub mul div : num -> num -> num.
Variable lit : QArith_base.Q -> num.

Lemma includes_In (xs : list string) (x : string) :
  includes xs x = true <-> In x xs.
Proof.
  unfold includes. rewrite existsb_exists. split.
  - intros [y [Hy E]]. apply String.eqb_eq in E. subst. exact Hy.
  - intros H. exists x. split; [exact H | apply String.eqb_refl].
Qed.

Lemma find_in_units_sound (cat : UnitCategory) (us : list UnitDef) (lower : string) :
  match find_in_units cat us lower with
  | Some (c, u) => c = cat /\ In u us /\ In lower (names u)
  | None => forall u, In u us -> ~ In lower (names u)
  end.
Proof.
  induction us as [|u us IH]; simpl.
  - intros u [].
  - destruct (includes (names u) lower) eqn:E.
    + apply includes_In in E. auto.
    + destruct (find_in_units cat us lower) as [[c u']|].
      * destruct IH as (-> & Hin & Hn). auto.
      * intros u' [<-|Hu'].
        -- intros Hn. apply includes_In in Hn. congruence.
        -- apply IH, Hu'.
Qed.

Lemma find_in_categories_sound (cats : list UnitCategory) (lower : string) :
  match find_in_categories cats lower with
  | Some (c, u) => In c cats /\ In u (units c) /\ In lower (names u)
  | None => forall c u, In c cats -> In u (units c) -> ~ In lower (names u)
  end.
Proof.
  induction cats as [|cat cats IH]; simpl.
  - intros c u [].
  - pose proof (find_in_units_sound cat (units cat) lower) as Hu.
    destruct (find_in_units cat (units cat) lower) as [[c u]|].
    + destruct Hu as (-> & Hin & Hn). auto.
    + destruct (find_in_categories cats lower) as [[c u]|].
      * destruct IH as (Hc & Hin & Hn). auto.
      * intros c u [<-|Hc]; [apply Hu | apply IH, Hc].
Qed.

(** X7. [findUnit] finds a unit exactly by the names the table lists, after
    lowercasing: a hit is a unit of the table that lists the lowercased
    name, a miss means no unit lists it, and, because no name occurs twice
    in the whole table, every unit is found under each of its names, in
    its own category (no entry is shadowed by an earlier one). *)
Theorem findUnit_finds_each_listed_name (x : string) :
  match findUnit toLowerCase x with
  | Some (cat, u) =>
      In cat UNIT_CATEGORIES /\ In u (units cat) /\ In (toLowerCase x) (names u)
  | None =>
      forall cat u, In cat UNIT_CATEGORIES -> In u (units cat) ->
                    ~ In (toLowerCase x) (names u)
  end
  /\ (forall cat u,
        In cat UNIT_CATEGORIES -> In u (units cat) -> In (toLowerCase x) (names u) ->
        findUnit toLowerCase x = Some (cat, u)).
Proof.
  split.
  - apply find_in_categories_sound.
  - intros cat u Hc Hu Hn. unfold findUnit.
    unfold UNIT_CATEGORIES in Hc. simpl in Hc.
    repeat destruct Hc as [Hc|Hc]; try contradiction; subst cat;
      simpl in Hu; repeat destruct Hu as [Hu|Hu]; try contradiction; subst u;
      simpl in Hn; repeat destruct Hn as [Hn|Hn]; try contradiction;
      rewrite <- Hn; reflexivity.
Qed.

(** The names [TEMP_UNITS[name]] is truthy for: its six keys and the
    members every object literal inherits. *)
Definition temperature_names : list string :=
  map fst TEMP_UNITS ++ object_prototype_keys.

Lemma temp_known_names (s : string) :
  temp_known s = true <-> In s temperature_names.
Proof.
  assert (E : temp_known s = existsb (String.eqb s) temperature_names).
  { unfold temp_known, temperature_names, TEMP_UNITS. cbn [own_label map fst app existsb].
    repeat (destruct (String.eqb s _); [reflexivity|]).
    reflexivity. }
  rewrite E, existsb_exists. split.
  - intros [y [Hy Heq]]. apply String.eqb_eq in Heq. subst. exact Hy.
  - intros H. exists s. split; [exact H | apply String.eqb_refl].
Qed.

Lemma temp_key_known (s : string) :
  temp_key s = None <-> ~ In s temperature_names.
Proof.
  rewrite <- temp_known_names. unfold temp_key.
  destruct (temp_known s) eqn:E.
  - destruct s as [|c s'].
    + vm_compute in E. discriminate E.
    + split; [discriminate | congruence].
  - split; [congruence | reflexivity].
Qed.

(** X8. [convertTemp] looks its unit names up in an object literal and then
    reads only their first letter.  A lowercased name is accepted exactly
    when it is one of the six keys of [TEMP_UNITS] or the name of a member
    inherited from [Object.prototype]; the result is [null] exactly when a
    name is not accepted or both names begin with the same letter; two
    calls whose accepted names begin alike agree.  So [constructor] is
    taken for Celsius. *)
Theorem convertTemp_reads_first_letter (value : num) (from to from' to' : string) :
  (convertTemp toLowerCase num add sub mul div lit value from to = None <->
   ~ In (toLowerCase from) temperature_names
   \/ ~ In (toLowerCase to) temperature_names
   \/ temp_key (toLowerCase from) = temp_key (toLowerCase to))
  /\ (temp_key (toLowerCase from) = temp_key (toLowerCase from') ->
      temp_key (toLowerCase to) = temp_key (toLowerCase to') ->
      convertTemp toLowerCase num add sub mul div lit value from to =
      convertTemp toLowerCase num add sub mul div lit value from' to')
  /\ (toLowerCase from = "constructor" -> toLowerCase from' = "celsius" ->
      convertTemp toLowerCase num add sub mul div lit value from to =
      convertTemp toLowerCase num add sub mul div lit value from' to).
Proof.
  split; [|split].
  - rewrite <- !temp_key_known. unfold convertTemp.
    destruct (temp_key (toLowerCase from)) as [a|] eqn:Ea;
      destruct (temp_key (toLowerCase to)) as [b|] eqn:Eb.
    2-4: split; auto.
    destruct (Ascii.eqb_spec a b) as [->|Hab].
    + split; auto.
    + split.
      * destruct (Ascii.eqb b letter_c); [discriminate|].
        destruct (Ascii.eqb b letter_f); discriminate.
      * intros [H|[H|H]]; try discriminate H. congruence.
  - intros Hf Ht. unfold convertTemp. rewrite Hf, Ht. reflexivity.
  - intros Hf Hf'. unfold convertTemp. rewrite Hf, Hf'. reflexivity.
Qed.

End Units.

End UnitsProps.

Module ParserProps.
Import Calculator.

(** ** The grammar the parser reads

    One type for each parsing function; an operator chain is nested to the
    left, as the loops build it. *)

Inductive numchar : Type :=
| Digit0 | Digit1 | Digit2 | Digit3 | Digit4
| Digit5 | Digit6 | Digit7 | Digit8 | Digit9
| Point.

Definition code (c : numchar) : N :=
  match c with
  | Digit0 => 48 | Digit1 => 49 | Digit2 => 50 | Digit3 => 51 | Digit4 => 52
  | Digit5 => 53 | Digit6 => 54 | Digit7 => 55 | Digit8 => 56 | Digit9 => 57
  | Point => 46
  end%N.

Inductive powop : Type := Caret | StarStar.
Inductive mulop : Type := Times | Over | Modulo.
Inductive addop : Type := Plus | Minus.

Inductive atom_expr : Type :=
| Lit (c : numchar) (cs : list numchar)
| Paren (e : sum_expr)
with unary_expr : Type :=
| UAtom (a : atom_expr)
| UMinus (u : unary_expr)
| UPlus (u : unary_expr)
with power_expr : Type :=
| PUnary (u : unary_expr)
| PPow (p : power_expr) (op : powop) (u : unary_expr)
with product_expr : Type :=
| MPower (p : power_expr)
| MOp (m : product_expr) (op : mulop) (p : power_expr)
with sum_expr : Type :=
| AProduct (m : product_expr)
| AOp (s : sum_expr) (op : addop) (m : product_expr).

Scheme atom_expr_mut := Induction for atom_expr Sort Prop
  with unary_expr_mut := Induction for unary_expr Sort Prop
  with power_expr_mut := Induction for power_expr Sort Prop
  with product_expr_mut := Induction for product_expr Sort Prop
  with sum_expr_mut := Induction for sum_expr Sort Prop.

Combined Scheme grammar_ind from
  atom_expr_mut, unary_expr_mut, power_expr_mut, product_expr_mut, sum_expr_mut.

Definition print_powop (op : powop) : list N :=
  match op with
  | Caret => [c_caret]
  | StarStar => [c_star; c_star]
  end.

Definition print_mulop (op : mulop) : N :=
  match op with
  | Times => c_star
  | Over => c_slash
  | Modulo => c_percent
  end.

Definition print_addop (op : addop) : N :=
  match op with
  | Plus => c_plus
  | Minus => c_minus
  end.

(** The text of an expression, without spaces. *)
Fixpoint print_atom (a : atom_expr) : list N :=
  match a with
  | Lit c cs => map code (c :: cs)
  | Paren e => c_lparen :: print_sum e ++ [c_rparen]
  end
with print_unary (u : unary_expr) : list N :=
  match u with
  | UAtom a => print_atom a
  | UMinus u' => c_minus :: print_unary u'
  | UPlus u' => c_plus :: print_unary u'
  end
with print_power (p : power_expr) : list N :=
  match p with
  | PUnary u => print_unary u
  | PPow p' op u => print_power p' ++ print_powop op ++ print_unary u
  end
with print_product (m : product_expr) : list N :=
  match m with
  | MPower p => print_power p
  | MOp m' op p => print_product m' ++ print_mulop op :: print_power p
  end
with print_sum (s : sum_expr) : list N :=
  match s with
  | AProduct m => print_product m
  | AOp s' op m => print_sum s' ++ print_addop op :: print_product m
  end.

(** Whether the head of the input satisfies [p]; [false] at the end. *)
Definition head_is (p : N -> bool) (rest : list N) : bool :=
  match rest with
  | c :: _ => p c
  | [] => false
  end.

(** What follows cannot extend a number. *)
Definition ends_number (rest : list N) : bool := negb (head_is num_char rest).

(** The conditions of the three [while] loops. *)
Definition power_continues (rest : list N) : bool :=
  match rest with
  | c :: rest' => (c =? c_caret)%N || ((c =? c_star)%N && head_is (fun c' => c' =? c_star)%N rest')
  | [] => false
  end.

Definition product_continues (rest : list N) : bool :=
  head_is (fun c => (c =? c_star) || (c =? c_slash) || (c =? c_percent))%N rest.

Definition sum_continues (rest : list N) : bool :=
  head_is (fun c => (c =? c_plus) || (c =? c_minus))%N rest.

(** What follows an expression ends it: no loop goes on and no number is
    extended. *)
Definition ends_expression (rest : list N) : bool :=
  ends_number rest && negb (power_continues rest)
  && negb (product_continues rest) && negb (sum_continues rest).

Lemma atom_head (a : atom_expr) :
  exists c tl, print_atom a = c :: tl
    /\ (c =? c_minus)%N = false /\ (c =? c_plus)%N = false.
Proof.
  destruct a as [c cs|e].
  - exists (code c), (map code cs). destruct c; repeat split; reflexivity.
  - eexists _, _. repeat split; reflexivity.
Qed.

(** A binary operator, as written. *)
Inductive binop : Type :=
| BPow (op : powop)
| BMul (op : mulop)
| BAdd (op : addop).

Definition print_binop (op : binop) : list N :=
  match op with
  | BPow op' => print_powop op'
  | BMul op' => [print_mulop op']
  | BAdd op' => [print_addop op']
  end.

(** After any signs, the input does not go on with a digit, a point or a
    parenthesis. *)
Fixpoint lacks_operand (rest : list N) : bool :=
  match rest with
  | c :: rest' =>
      if ((c =? c_minus) || (c =? c_plus))%N then lacks_operand rest'
      else negb (num_char c || (c =? c_lparen)%N)
  | [] => true
  end.

(** The text of an expression with the closing parentheses that end it
    left out. *)
Fixpoint open_atom (a : atom_expr) : list N :=
  match a with
  | Lit c cs => map code (c :: cs)
  | Paren e => c_lparen :: open_sum e
  end
with open_unary (u : unary_expr) : list N :=
  match u with
  | UAtom a => open_atom a
  | UMinus u' => c_minus :: open_unary u'
  | UPlus u' => c_plus :: open_unary u'
  end
with open_power (p : power_expr) : list N :=
  match p with
  | PUnary u => open_unary u
  | PPow p' op u => print_power p' ++ print_powop op ++ open_unary u
  end
with open_product (m : product_expr) : list N :=
  match m with
  | MPower p => open_power p
  | MOp m' op p => print_product m' ++ print_mulop op :: open_power p
  end
with open_sum (s : sum_expr) : list N :=
  match s with
  | AProduct m => open_product m
  | AOp s' op m => print_sum s' ++ print_addop op :: open_product m
  end.

Lemma repeat_snoc (c : N) (k : nat) : repeat c k ++ [c] = c :: repeat c k.
Proof. induction k as [|k IH]; [reflexivity|]. cbn [repeat app]. rewrite IH. reflexivity. Qed.

Lemma print_closes_open :
  (forall a, exists k, print_atom a = open_atom a ++ repeat c_rparen k)
  /\ (forall u, exists k, print_unary u = open_unary u ++ repeat c_rparen k)
  /\ (forall p, exists k, print_power p = open_power p ++ repeat c_rparen k)
  /\ (forall m, exists k, print_product m = open_product m ++ repeat c_rparen k)
  /\ (forall s, exists k, print_sum s = open_sum s ++ repeat c_rparen k).
Proof.
  apply grammar_ind.
  - intros c cs. exists 0. cbn [repeat]. rewrite List.app_nil_r. reflexivity.
  - intros e [k IH]. exists (S k). cbn [print_atom open_atom]. rewrite IH.
    rewrite <- List.app_assoc, repeat_snoc. reflexivity.
  - intros a [k IH]. exists k. exact IH.
  - intros u [k IH]. exists k. cbn [print_unary open_unary]. rewrite IH. reflexivity.
  - intros u [k IH]. exists k. cbn [print_unary open_unary]. rewrite IH. reflexivity.
  - intros u [k IH]. exists k. exact IH.
  - intros p _ op u [k IH]. exists k. cbn [print_power open_power]. rewrite IH.
    rewrite <- !List.app_assoc. reflexivity.
  - intros p [k IH]. exists k. exact IH.
  - intros m _ op p [k IH]. exists k. cbn [print_product open_product]. rewrite IH.
    rewrite <- List.app_assoc. reflexivity.
  - intros m [k IH]. exists k. exact IH.
  - intros s _ op m [k IH]. exists k. cbn [print_sum open_sum]. rewrite IH.
    rewrite <- List.app_assoc. reflexivity.
Qed.

Lemma strip_spaces_app (x y : list N) :
  strip_spaces (x ++ y) = strip_spaces x ++ strip_spaces y.
Proof. apply List.filter_app. Qed.

Lemma strip_spaces_cons (c : N) (x : list N) :
  is_space c = false -> strip_spaces (c :: x) = c :: strip_spaces x.
Proof. intros H. unfold strip_spaces. cbn [List.filter]. rewrite H. reflexivity. Qed.

Lemma strip_spaces_literal (cs : list numchar) :
  strip_spaces (map code cs) = map code cs.
Proof.
  induction cs as [|c cs IH]; [reflexivity|].
  cbn [map]. rewrite strip_spaces_cons by (destruct c; reflexivity).
  rewrite IH. reflexivity.
Qed.

Lemma print_no_spaces :
  (forall a, strip_spaces (print_atom a) = print_atom a)
  /\ (forall u, strip_spaces (print_unary u) = print_unary u)
  /\ (forall p, strip_spaces (print_power p) = print_power p)
  /\ (forall m, strip_spaces (print_product m) = print_product m)
  /\ (forall s, strip_spaces (print_sum s) = print_sum s).
Proof.
  apply grammar_ind.
  - intros c cs. apply (strip_spaces_literal (c :: cs)).
  - intros e IH. cbn [print_atom]. rewrite strip_spaces_cons by reflexivity.
    rewrite strip_spaces_app, IH. reflexivity.
  - intros a IH. exact IH.
  - intros u IH. cbn [print_unary]. rewrite strip_spaces_cons by reflexivity.
    rewrite IH. reflexivity.
  - intros u IH. cbn [print_unary]. rewrite strip_spaces_cons by reflexivity.
    rewrite IH. reflexivity.
  - intros u IH. exact IH.
  - intros p IHp op u IHu. cbn [print_power].
    rewrite !strip_spaces_app, IHp, IHu. destruct op; reflexivity.
  - intros p IH. exact IH.
  - intros m IHm op p IHp. cbn [print_product].
    rewrite strip_spaces_app, strip_spaces_cons by (destruct op; reflexivity).
    rewrite IHm, IHp. reflexivity.
  - intros m IH. exact IH.
  - intros s IHs op m IHm. cbn [print_sum].
    rewrite strip_spaces_app, strip_spaces_cons by (destruct op; reflexivity).
    rewrite IHs, IHm. reflexivity.
Qed.

Lemma open_atom_head (a : atom_expr) :
  exists c tl, open_atom a = c :: tl
    /\ (c =? c_minus)%N = false /\ (c =? c_plus)%N = false.
Proof.
  destruct a as [c cs|e].
  - exists (code c), (map code cs). destruct c; repeat split; reflexivity.
  - eexists _, _. repeat split; reflexivity.
Qed.

Lemma num_char_code (c : numchar) : num_char (code c) = true.
Proof. destruct c; reflexivity. Qed.

Lemma scan_number_literal (cs : list numchar) (rest : list N) :
  ends_number rest = true ->
  scan_number (map code cs ++ rest) = (map code cs, rest).
Proof.
  intros Hrest. induction cs as [|c cs IH].
  - destruct rest as [|r rest]; [reflexivity|].
    cbn [map app scan_number]. unfold ends_number, head_is in Hrest.
    destruct (num_char r); [discriminate Hrest | reflexivity].
  - cbn [map app scan_number]. rewrite num_char_code.
    cbn [map] in IH. rewrite IH. reflexivity.
Qed.

(** An operand begins with a digit, a point, a parenthesis or a sign. *)
Definition operand_start (c : N) : bool :=
  (num_char c || (c =? c_lparen) || (c =? c_minus) || (c =? c_plus))%N.

Lemma operand_not_star (c : N) : operand_start c = true -> (c =? c_star)%N = false.
Proof.
  intros H. destruct (N.eqb_spec c c_star) as [->|]; [|reflexivity].
  vm_compute in H. discriminate H.
Qed.

Definition begins_operand (text : list N) : Prop :=
  exists c tl, text = c :: tl /\ operand_start c = true.

Lemma begins_operand_app (text more : list N) :
  begins_operand text -> begins_operand (text ++ more).
Proof. intros (c & tl & -> & Hc). exists c, (tl ++ more). split; [reflexivity | exact Hc]. Qed.

Lemma print_begins_operand :
  (forall a, begins_operand (print_atom a))
  /\ (forall u, begins_operand (print_unary u))
  /\ (forall p, begins_operand (print_power p))
  /\ (forall m, begins_operand (print_product m))
  /\ (forall s, begins_operand (print_sum s)).
Proof.
  apply grammar_ind; intros; cbn [print_atom print_unary print_power print_product print_sum];
    try assumption; try (apply begins_operand_app; assumption).
  - exists (code c), (map code cs). split; [reflexivity|].
    unfold operand_start. rewrite num_char_code. reflexivity.
  - eexists _, _. split; reflexivity.
  - eexists _, _. split; reflexivity.
  - eexists _, _. split; reflexivity.
Qed.

Lemma print_begins_operand_power (p : power_expr) : begins_operand (print_power p).
Proof. apply print_begins_operand. Qed.

Lemma print_begins_operand_product (m : product_expr) : begins_operand (print_product m).
Proof. apply print_begins_operand. Qed.

Lemma print_begins_operand_sum (s : sum_expr) : begins_operand (print_sum s).
Proof. apply print_begins_operand. Qed.

Lemma open_begins_operand :
  (forall a, begins_operand (open_atom a))
  /\ (forall u, begins_operand (open_unary u))
  /\ (forall p, begins_operand (open_power p))
  /\ (forall m, begins_operand (open_product m))
  /\ (forall s, begins_operand (open_sum s)).
Proof.
  assert (Hlit : forall c cs, begins_operand (map code (c :: cs))).
  { intros c cs. exists (code c), (map code cs). split; [reflexivity|].
    unfold operand_start. destruct c; reflexivity. }
  assert (Hhead : forall c tl, operand_start c = true -> begins_operand (c :: tl)).
  { intros c tl H. exists c, tl. split; [reflexivity | exact H]. }
  repeat split.
  - intros [c cs|e]; [apply Hlit | apply Hhead; reflexivity].
  - intros [[c cs|e]|u|u]; first [apply Hlit | apply Hhead; reflexivity].
  - intros [[[c cs|e]|u|u]|p op u]; cbn [open_power open_unary open_atom];
      first [apply Hlit | apply Hhead; reflexivity
            | apply begins_operand_app, print_begins_operand_power].
  - intros [[[[c cs|e]|u|u]|p op u]|m op p];
      cbn [open_product open_power open_unary open_atom];
      first [apply Hlit | apply Hhead; reflexivity
            | apply begins_operand_app, print_begins_operand_power
            | apply begins_operand_app, print_begins_operand_product].
  - intros [[[[[c cs|e]|u|u]|p op u]|m op p]|s op m];
      cbn [open_sum open_product open_power open_unary open_atom];
      first [apply Hlit | apply Hhead; reflexivity
            | apply begins_operand_app, print_begins_operand_power
            | apply begins_operand_app, print_begins_operand_product
            | apply begins_operand_app, print_begins_operand_sum].
Qed.


Section Parser.

Variable num : Type.
Variable add sub mul div rem pow : num -> num -> num.
Variable neg : num -> num.
Variable parseFloat : list N -> num.

Let PA := parseAddSub num add sub mul div rem pow neg parseFloat.
Let atom := parseAtom num parseFloat.
Let unary := parseUnary num neg parseFloat.
Let ploop := power_loop num pow neg parseFloat.
Let power := parsePower num pow neg parseFloat.
Let mloop := muldiv_loop num mul div rem pow neg parseFloat.
Let muldiv := parseMulDiv num mul div rem pow neg parseFloat.
Let aloop := addsub_loop num add sub mul div rem pow neg parseFloat.
Let level := parseAddSub_level num add sub mul div rem pow neg parseFloat.

(** ** Every call consumes input, so the loops end *)

(** A call that returns has moved [pos] forward. *)
Definition shorter (input : list N) (r : parsed num) : Prop :=
  match r with
  | Value _ _ rest => length rest < length input
  | Unexpected _ => True
  | OutOfFuel _ => False
  end.

(** A loop that returns has not moved [pos] back. *)
Definition no_longer (input : list N) (r : parsed num) : Prop :=
  match r with
  | Value _ _ rest => length rest <= length input
  | Unexpected _ => True
  | OutOfFuel _ => False
  end.

Lemma scan_number_length (input : list N) :
  length (fst (scan_number input)) + length (snd (scan_number input)) = length input.
Proof.
  induction input as [|c rest IH]; [reflexivity|].
  cbn [scan_number]. destruct (num_char c); [|reflexivity].
  destruct (scan_number rest) as [digits rest']. cbn [fst snd length] in *. lia.
Qed.

Section Level.

Variable rec : list N -> parsed num.
Variable n : nat.
Hypothesis Hrec : forall rest, length rest < n -> shorter rest (rec rest).

Lemma atom_shorter (input : list N) :
  length input <= n -> shorter input (atom rec input).
Proof.
  intros Hlen. destruct input as [|c rest]; [exact I|].
  unfold atom, parseAtom. cbn [length] in Hlen.
  destruct (c =? c_lparen)%N.
  - pose proof (Hrec rest ltac:(lia)) as Hr.
    destruct (rec rest) as [v rest'| |]; cbn [shorter] in *; trivial.
    destruct rest' as [|c' rest'']; cbn [shorter length] in *; [lia|].
    destruct (c' =? c_rparen)%N; cbn [shorter length]; lia.
  - pose proof (scan_number_length (c :: rest)) as Hs.
    destruct (scan_number (c :: rest)) as [digits rest'].
    cbn [fst snd] in Hs.
    destruct digits; cbn [shorter length] in *; [exact I | lia].
Qed.

Lemma unary_shorter (input : list N) :
  length input <= n -> shorter input (unary rec input).
Proof.
  unfold unary. induction input as [|c rest IH]; intros Hlen; [exact I|].
  cbn [parseUnary]. cbn [length] in Hlen.
  destruct (c =? c_minus)%N; [|destruct (c =? c_plus)%N].
  - specialize (IH ltac:(lia)).
    destruct (parseUnary num neg parseFloat rec rest); cbn [shorter length] in *;
      trivial; lia.
  - specialize (IH ltac:(lia)).
    destruct (parseUnary num neg parseFloat rec rest); cbn [shorter length] in *;
      trivial; lia.
  - apply atom_shorter. cbn [length]. lia.
Qed.

Lemma ploop_no_longer (fuel : nat) :
  forall base input,
    length input <= n -> length input <= fuel ->
    no_longer input (ploop rec fuel base input).
Proof.
  unfold ploop. induction fuel as [|fuel IH]; intros base input Hn Hf.
  - destruct input; cbn [length] in Hf; [|lia]. cbn. lia.
  - assert (Hturn : forall rest, length rest < length input ->
              no_longer input
                match parseUnary num neg parseFloat rec rest with
                | Value _ exp rest' =>
                    power_loop num pow neg parseFloat rec fuel (pow base exp) rest'
                | failure => failure
                end).
    { intros rest Hr.
      pose proof (unary_shorter rest ltac:(lia)) as Hu. unfold unary in Hu.
      destruct (parseUnary num neg parseFloat rec rest) as [e rest'| |];
        cbn [shorter] in Hu; trivial.
      specialize (IH (pow base e) rest' ltac:(lia) ltac:(lia)).
      destruct (power_loop num pow neg parseFloat rec fuel (pow base e) rest');
        cbn [no_longer] in *; trivial; lia. }
    destruct input as [|c rest]; [cbn; lia|].
    cbn [power_loop]. cbn [length] in *.
    destruct (c =? c_caret)%N; [apply Hturn; lia|].
    destruct (c =? c_star)%N; [|cbn; lia].
    destruct rest as [|c' rest']; [cbn; lia|].
    destruct (c' =? c_star)%N; [apply Hturn; cbn [length]; lia | cbn; lia].
Qed.

Lemma power_shorter (fuel : nat) (input : list N) :
  length input <= n -> length input <= fuel ->
  shorter input (power rec fuel input).
Proof.
  intros Hn Hf. unfold power, parsePower.
  pose proof (unary_shorter input Hn) as Hu. unfold unary in Hu.
  destruct (parseUnary num neg parseFloat rec input) as [b rest| |];
    cbn [shorter] in *; trivial.
  pose proof (ploop_no_longer fuel b rest ltac:(lia) ltac:(lia)) as Hl.
  unfold ploop in Hl.
  destruct (power_loop num pow neg parseFloat rec fuel b rest);
    cbn [no_longer shorter] in *; trivial; lia.
Qed.

Lemma mloop_no_longer (fuel : nat) :
  forall lhs input,
    length input <= n -> length input <= fuel ->
    no_longer input (mloop rec fuel lhs input).
Proof.
  unfold mloop. induction fuel as [|fuel IH]; intros lhs input Hn Hf.
  - destruct input; cbn [length] in Hf; [|lia]. cbn. lia.
  - destruct input as [|c rest]; [cbn; lia|].
    cbn [muldiv_loop]. cbn [length] in *.
    destruct ((c =? c_star) || (c =? c_slash) || (c =? c_percent))%N; [|cbn; lia].
    pose proof (power_shorter fuel rest ltac:(lia) ltac:(lia)) as Hp. unfold power in Hp.
    destruct (parsePower num pow neg parseFloat rec fuel rest) as [rhs rest'| |];
      cbn [shorter] in Hp; trivial.
    match goal with
    | |- no_longer _ (muldiv_loop _ _ _ _ _ _ _ _ _ ?v _) =>
        specialize (IH v rest' ltac:(lia) ltac:(lia));
        destruct (muldiv_loop num mul div rem pow neg parseFloat rec fuel v rest')
    end; cbn [no_longer length] in *; trivial; lia.
Qed.

Lemma muldiv_shorter (fuel : nat) (input : list N) :
  length input <= n -> length input <= fuel ->
  shorter input (muldiv rec fuel input).
Proof.
  intros Hn Hf. unfold muldiv, parseMulDiv.
  pose proof (power_shorter fuel input Hn Hf) as Hp. unfold power in Hp.
  destruct (parsePower num pow neg parseFloat rec fuel input) as [lhs rest| |];
    cbn [shorter] in *; trivial.
  pose proof (mloop_no_longer fuel lhs rest ltac:(lia) ltac:(lia)) as Hl.
  unfold mloop in Hl.
  destruct (muldiv_loop num mul div rem pow neg parseFloat rec fuel lhs rest);
    cbn [no_longer shorter] in *; trivial; lia.
Qed.

Lemma aloop_no_longer (fuel : nat) :
  forall lhs input,
    length input <= n -> length input <= fuel ->
    no_longer input (aloop rec fuel lhs input).
Proof.
  unfold aloop. induction fuel as [|fuel IH]; intros lhs input Hn Hf.
  - destruct input; cbn [length] in Hf; [|lia]. cbn. lia.
  - destruct input as [|c rest]; [cbn; lia|].
    cbn [addsub_loop]. cbn [length] in *.
    destruct ((c =? c_plus) || (c =? c_minus))%N; [|cbn; lia].
    pose proof (muldiv_shorter fuel rest ltac:(lia) ltac:(lia)) as Hp. unfold muldiv in Hp.
    destruct (parseMulDiv num mul div rem pow neg parseFloat rec fuel rest)
      as [rhs rest'| |]; cbn [shorter] in Hp; trivial.
    match goal with
    | |- no_longer _ (addsub_loop _ _ _ _ _ _ _ _ _ _ _ ?v _) =>
        specialize (IH v rest' ltac:(lia) ltac:(lia));
        destruct (addsub_loop num add sub mul div rem pow neg parseFloat rec fuel v rest')
    end; cbn [no_longer length] in *; trivial; lia.
Qed.

Lemma level_shorter (fuel : nat) (input : list N) :
  length input <= n -> length input <= fuel ->
  shorter input (level rec fuel input).
Proof.
  intros Hn Hf. unfold level, parseAddSub_level.
  pose proof (muldiv_shorter fuel input Hn Hf) as Hp. unfold muldiv in Hp.
  destruct (parseMulDiv num mul div rem pow neg parseFloat rec fuel input)
    as [lhs rest| |]; cbn [shorter] in *; trivial.
  pose proof (aloop_no_longer fuel lhs rest ltac:(lia) ltac:(lia)) as Hl.
  unfold aloop in Hl.
  destruct (addsub_loop num add sub mul div rem pow neg parseFloat rec fuel lhs rest);
    cbn [no_longer shorter] in *; trivial; lia.
Qed.

End Level.

Lemma PA_shorter (fuel : nat) :
  forall input, length input < fuel -> shorter input (PA fuel input).
Proof.
  unfold PA. induction fuel as [|fuel IH]; intros input Hlen; [lia|].
  cbn [parseAddSub].
  apply (level_shorter (parseAddSub num add sub mul div rem pow neg parseFloat fuel)
           fuel IH fuel input); lia.
Qed.

(** ** The fuel does not matter *)

Section Agree.

Variable rec1 rec2 : list N -> parsed num.
Variable n : nat.
Hypothesis Hrec : forall rest, length rest < n -> shorter rest (rec1 rest).
Hypothesis Hagree : forall rest, length rest < n -> rec1 rest = rec2 rest.

Lemma atom_agree (input : list N) :
  length input <= n -> atom rec1 input = atom rec2 input.
Proof.
  intros Hlen. destruct input as [|c rest]; [reflexivity|].
  unfold atom, parseAtom. cbn [length] in Hlen.
  destruct (c =? c_lparen)%N; [|reflexivity].
  rewrite (Hagree rest) by lia. reflexivity.
Qed.

Lemma unary_agree (input : list N) :
  length input <= n -> unary rec1 input = unary rec2 input.
Proof.
  unfold unary. induction input as [|c rest IH]; intros Hlen; [reflexivity|].
  cbn [parseUnary]. cbn [length] in Hlen.
  destruct (c =? c_minus)%N; [|destruct (c =? c_plus)%N].
  - rewrite IH by lia. reflexivity.
  - apply IH. lia.
  - apply atom_agree. cbn [length]. lia.
Qed.

Lemma ploop_agree (f1 : nat) :
  forall f2 base input,
    length input <= n -> length input <= f1 -> length input <= f2 ->
    ploop rec1 f1 base input = ploop rec2 f2 base input.
Proof.
  unfold ploop. induction f1 as [|f1 IH]; intros f2 base input Hn H1 H2.
  - destruct input; cbn [length] in H1; [|lia]. destruct f2; reflexivity.
  - destruct input as [|c rest]; [destruct f2; reflexivity|].
    destruct f2 as [|f2]; [cbn [length] in H2; lia|].
    assert (Hturn : forall rest0, length rest0 < length (c :: rest) ->
              match parseUnary num neg parseFloat rec1 rest0 with
              | Value _ exp rest' =>
                  power_loop num pow neg parseFloat rec1 f1 (pow base exp) rest'
              | failure => failure
              end =
              match parseUnary num neg parseFloat rec2 rest0 with
              | Value _ exp rest' =>
                  power_loop num pow neg parseFloat rec2 f2 (pow base exp) rest'
              | failure => failure
              end).
    { intros rest0 Hr.
      pose proof (unary_agree rest0 ltac:(lia)) as Hu. unfold unary in Hu.
      pose proof (unary_shorter rec1 n Hrec rest0 ltac:(lia)) as Hs. unfold unary in Hs.
      rewrite <- Hu.
      destruct (parseUnary num neg parseFloat rec1 rest0) as [e rest'| |];
        cbn [shorter] in Hs; try reflexivity.
      apply IH; lia. }
    cbn [power_loop]. cbn [length] in *.
    destruct (c =? c_caret)%N; [apply Hturn; lia|].
    destruct (c =? c_star)%N; [|reflexivity].
    destruct rest as [|c' rest']; [reflexivity|].
    destruct (c' =? c_star)%N; [apply Hturn; cbn [length]; lia | reflexivity].
Qed.

Lemma power_agree (f1 f2 : nat) (input : list N) :
  length input <= n -> length input <= f1 -> length input <= f2 ->
  power rec1 f1 input = power rec2 f2 input.
Proof.
  intros Hn H1 H2. unfold power, parsePower.
  pose proof (unary_agree input Hn) as Hu. unfold unary in Hu.
  pose proof (unary_shorter rec1 n Hrec input Hn) as Hs. unfold unary in Hs.
  rewrite <- Hu.
  destruct (parseUnary num neg parseFloat rec1 input) as [b rest| |];
    cbn [shorter] in Hs; try reflexivity.
  apply ploop_agree; lia.
Qed.

Lemma mloop_agree (f1 : nat) :
  forall f2 lhs input,
    length input <= n -> length input <= f1 -> length input <= f2 ->
    mloop rec1 f1 lhs input = mloop rec2 f2 lhs input.
Proof.
  unfold mloop. induction f1 as [|f1 IH]; intros f2 lhs input Hn H1 H2.
  - destruct input; cbn [length] in H1; [|lia]. destruct f2; reflexivity.
  - destruct input as [|c rest]; [destruct f2; reflexivity|].
    destruct f2 as [|f2]; [cbn [length] in H2; lia|].
    cbn [muldiv_loop]. cbn [length] in *.
    destruct ((c =? c_star) || (c =? c_slash) || (c =? c_percent))%N; [|reflexivity].
    pose proof (power_agree f1 f2 rest ltac:(lia) ltac:(lia) ltac:(lia)) as Hp.
    pose proof (power_shorter rec1 n Hrec f1 rest ltac:(lia) ltac:(lia)) as Hs.
    unfold power in Hp, Hs. rewrite <- Hp.
    destruct (parsePower num pow neg parseFloat rec1 f1 rest) as [rhs rest'| |];
      cbn [shorter] in Hs; try reflexivity.
    apply IH; lia.
Qed.

Lemma muldiv_agree (f1 f2 : nat) (input : list N) :
  length input <= n -> length input <= f1 -> length input <= f2 ->
  muldiv rec1 f1 input = muldiv rec2 f2 input.
Proof.
  intros Hn H1 H2. unfold muldiv, parseMulDiv.
  pose proof (power_agree f1 f2 input Hn H1 H2) as Hp.
  pose proof (power_shorter rec1 n Hrec f1 input Hn H1) as Hs.
  unfold power in Hp, Hs. rewrite <- Hp.
  destruct (parsePower num pow neg parseFloat rec1 f1 input) as [lhs rest| |];
    cbn [shorter] in Hs; try reflexivity.
  apply mloop_agree; lia.
Qed.

Lemma aloop_agree (f1 : nat) :
  forall f2 lhs input,
    length input <= n -> length input <= f1 -> length input <= f2 ->
    aloop rec1 f1 lhs input = aloop rec2 f2 lhs input.
Proof.
  unfold aloop. induction f1 as [|f1 IH]; intros f2 lhs input Hn H1 H2.
  - destruct input; cbn [length] in H1; [|lia]. destruct f2; reflexivity.
  - destruct input as [|c rest]; [destruct f2; reflexivity|].
    destruct f2 as [|f2]; [cbn [length] in H2; lia|].
    cbn [addsub_loop]. cbn [length] in *.
    destruct ((c =? c_plus) || (c =? c_minus))%N; [|reflexivity].
    pose proof (muldiv_agree f1 f2 rest ltac:(lia) ltac:(lia) ltac:(lia)) as Hp.
    pose proof (muldiv_shorter rec1 n Hrec f1 rest ltac:(lia) ltac:(lia)) as Hs.
    unfold muldiv in Hp, Hs. rewrite <- Hp.
    destruct (parseMulDiv num mul div rem pow neg parseFloat rec1 f1 rest)
      as [rhs rest'| |]; cbn [shorter] in Hs; try reflexivity.
    apply IH; lia.
Qed.

Lemma level_agree (f1 f2 : nat) (input : list N) :
  length input <= n -> length input <= f1 -> length input <= f2 ->
  level rec1 f1 input = level rec2 f2 input.
Proof.
  intros Hn H1 H2. unfold level, parseAddSub_level.
  pose proof (muldiv_agree f1 f2 input Hn H1 H2) as Hp.
  pose proof (muldiv_shorter rec1 n Hrec f1 input Hn H1) as Hs.
  unfold muldiv in Hp, Hs. rewrite <- Hp.
  destruct (parseMulDiv num mul div rem pow neg parseFloat rec1 f1 input)
    as [lhs rest| |]; cbn [shorter] in Hs; try reflexivity.
  apply aloop_agree; lia.
Qed.

End Agree.

Lemma PA_agree (f1 : nat) :
  forall f2 input,
    length input < f1 -> length input < f2 -> PA f1 input = PA f2 input.
Proof.
  unfold PA. induction f1 as [|f1 IH]; intros f2 input H1 H2; [lia|].
  destruct f2 as [|f2]; [lia|].
  cbn [parseAddSub].
  apply (level_agree (parseAddSub num add sub mul div rem pow neg parseFloat f1)
           (parseAddSub num add sub mul div rem pow neg parseFloat f2)
           (Nat.min f1 f2)).
  - intros rest Hr. apply PA_shorter. lia.
  - intros rest Hr. apply IH; lia.
  - lia.
  - lia.
  - lia.
Qed.

(** ** The parsing functions, free of fuel

    With the fuel [parseExpression] gives, the model satisfies the
    recursive equations of the source functions. *)

Definition parse_addsub (input : list N) : parsed num :=
  parseAddSub num add sub mul div rem pow neg parseFloat (S (length input)) input.

Definition parse_atom : list N -> parsed num :=
  parseAtom num parseFloat parse_addsub.

Definition parse_unary : list N -> parsed num :=
  parseUnary num neg parseFloat parse_addsub.

Definition power_tail (base : num) (input : list N) : parsed num :=
  power_loop num pow neg parseFloat parse_addsub (length input) base input.

Definition parse_power (input : list N) : parsed num :=
  parsePower num pow neg parseFloat parse_addsub (length input) input.

Definition muldiv_tail (lhs : num) (input : list N) : parsed num :=
  muldiv_loop num mul div rem pow neg parseFloat parse_addsub (length input) lhs input.

Definition parse_muldiv (input : list N) : parsed num :=
  parseMulDiv num mul div rem pow neg parseFloat parse_addsub (length input) input.

Definition addsub_tail (lhs : num) (input : list N) : parsed num :=
  addsub_loop num add sub mul div rem pow neg parseFloat parse_addsub (length input) lhs input.

Lemma parse_addsub_shorter (k : nat) (input : list N) :
  length input < k -> shorter input (parse_addsub input).
Proof. intros _. apply PA_shorter. lia. Qed.

Lemma parse_unary_shorter (input : list N) : shorter input (parse_unary input).
Proof.
  apply (unary_shorter parse_addsub (length input) (parse_addsub_shorter (length input))).
  lia.
Qed.

Lemma parse_power_shorter (input : list N) : shorter input (parse_power input).
Proof.
  apply (power_shorter parse_addsub (length input) (parse_addsub_shorter (length input)));
    lia.
Qed.

Lemma parse_muldiv_shorter (input : list N) : shorter input (parse_muldiv input).
Proof.
  apply (muldiv_shorter parse_addsub (length input) (parse_addsub_shorter (length input)));
    lia.
Qed.

Lemma power_tail_fuel (fuel : nat) (base : num) (input : list N) :
  length input <= fuel ->
  power_loop num pow neg parseFloat parse_addsub fuel base input = power_tail base input.
Proof.
  intros H.
  apply (ploop_agree parse_addsub parse_addsub (length input)
           (parse_addsub_shorter (length input)) (fun _ _ => eq_refl)); lia.
Qed.

Lemma muldiv_tail_fuel (fuel : nat) (lhs : num) (input : list N) :
  length input <= fuel ->
  muldiv_loop num mul div rem pow neg parseFloat parse_addsub fuel lhs input
  = muldiv_tail lhs input.
Proof.
  intros H.
  apply (mloop_agree parse_addsub parse_addsub (length input)
           (parse_addsub_shorter (length input)) (fun _ _ => eq_refl)); lia.
Qed.

Lemma addsub_tail_fuel (fuel : nat) (lhs : num) (input : list N) :
  length input <= fuel ->
  addsub_loop num add sub mul div rem pow neg parseFloat parse_addsub fuel lhs input
  = addsub_tail lhs input.
Proof.
  intros H.
  apply (aloop_agree parse_addsub parse_addsub (length input)
           (parse_addsub_shorter (length input)) (fun _ _ => eq_refl)); lia.
Qed.

(** [parseAtom] *)
Lemma parse_atom_eq (input : list N) :
  parse_atom input =
  match input with
  | c :: rest =>
      if (c =? c_lparen)%N then
        match parse_addsub rest with
        | Value _ result rest' =>
            match rest' with
            | c' :: rest'' =>
                if (c' =? c_rparen)%N then Value num result rest''
                else Value num result rest'
            | [] => Value num result rest'
            end
        | failure => failure
        end
      else
        match scan_number input with
        | ([], _) => Unexpected num
        | (digits, rest') => Value num (parseFloat digits) rest'
        end
  | [] => Unexpected num
  end.
Proof. destruct input; reflexivity. Qed.

(** [parseUnary] *)
Lemma parse_unary_eq (input : list N) :
  parse_unary input =
  match input with
  | c :: rest =>
      if (c =? c_minus)%N then
        match parse_unary rest with
        | Value _ v rest' => Value num (neg v) rest'
        | failure => failure
        end
      else if (c =? c_plus)%N then parse_unary rest
      else parse_atom input
  | [] => parse_atom input
  end.
Proof. destruct input; reflexivity. Qed.

(** One turn of the loop of [parsePower]. *)
Definition power_turn (base : num) (rest : list N) : parsed num :=
  match parse_unary rest with
  | Value _ exp rest' => power_tail (pow base exp) rest'
  | failure => failure
  end.

Lemma power_turn_fuel (base : num) (fuel : nat) (rest : list N) :
  length rest <= fuel ->
  match parse_unary rest with
  | Value _ exp rest' =>
      power_loop num pow neg parseFloat parse_addsub fuel (pow base exp) rest'
  | failure => failure
  end = power_turn base rest.
Proof.
  intros H. unfold power_turn.
  pose proof (parse_unary_shorter rest) as Hs.
  destruct (parse_unary rest) as [e rest'| |]; cbn [shorter] in Hs; try reflexivity.
  apply power_tail_fuel. lia.
Qed.

(** The loop of [parsePower] *)
Lemma power_tail_eq (base : num) (input : list N) :
  power_tail base input =
  match input with
  | c :: rest =>
      if (c =? c_caret)%N then power_turn base rest
      else if (c =? c_star)%N then
        match rest with
        | c' :: rest' =>
            if (c' =? c_star)%N then power_turn base rest' else Value num base input
        | [] => Value num base input
        end
      else Value num base input
  | [] => Value num base input
  end.
Proof.
  destruct input as [|c rest]; [reflexivity|].
  unfold power_tail. cbn [length power_loop].
  fold parse_unary.
  destruct (c =? c_caret)%N; [apply power_turn_fuel; lia|].
  destruct (c =? c_star)%N; [|reflexivity].
  destruct rest as [|c' rest']; [reflexivity|].
  destruct (c' =? c_star)%N; [|reflexivity].
  apply power_turn_fuel. cbn [length]. lia.
Qed.

(** [parsePower] *)
Lemma parse_power_eq (input : list N) :
  parse_power input =
  match parse_unary input with
  | Value _ base rest => power_tail base rest
  | failure => failure
  end.
Proof.
  unfold parse_power, parsePower. fold parse_unary.
  pose proof (parse_unary_shorter input) as Hs.
  destruct (parse_unary input) as [b rest| |]; cbn [shorter] in Hs; try reflexivity.
  apply power_tail_fuel. lia.
Qed.

(** The loop of [parseMulDiv] *)
Lemma muldiv_tail_eq (lhs : num) (input : list N) :
  muldiv_tail lhs input =
  match input with
  | c :: rest =>
      if ((c =? c_star) || (c =? c_slash) || (c =? c_percent))%N then
        match parse_power rest with
        | Value _ rhs rest' =>
            muldiv_tail
              (if (c =? c_star)%N then mul lhs rhs
               else if (c =? c_slash)%N then div lhs rhs
               else rem lhs rhs)
              rest'
        | failure => failure
        end
      else Value num lhs input
  | [] => Value num lhs input
  end.
Proof.
  destruct input as [|c rest]; [reflexivity|].
  unfold muldiv_tail. cbn [length muldiv_loop].
  fold (parse_power rest).
  destruct ((c =? c_star) || (c =? c_slash) || (c =? c_percent))%N; [|reflexivity].
  pose proof (parse_power_shorter rest) as Hs.
  destruct (parse_power rest) as [rhs rest'| |]; cbn [shorter] in Hs; try reflexivity.
  apply muldiv_tail_fuel. lia.
Qed.

(** [parseMulDiv] *)
Lemma parse_muldiv_eq (input : list N) :
  parse_muldiv input =
  match parse_power input with
  | Value _ lhs rest => muldiv_tail lhs rest
  | failure => failure
  end.
Proof.
  unfold parse_muldiv, parseMulDiv. fold (parse_power input).
  pose proof (parse_power_shorter input) as Hs.
  destruct (parse_power input) as [lhs rest| |]; cbn [shorter] in Hs; try reflexivity.
  apply muldiv_tail_fuel. lia.
Qed.

(** The loop of [parseAddSub] *)
Lemma addsub_tail_eq (lhs : num) (input : list N) :
  addsub_tail lhs input =
  match input with
  | c :: rest =>
      if ((c =? c_plus) || (c =? c_minus))%N then
        match parse_muldiv rest with
        | Value _ rhs rest' =>
            addsub_tail (if (c =? c_plus)%N then add lhs rhs else sub lhs rhs) rest'
        | failure => failure
        end
      else Value num lhs input
  | [] => Value num lhs input
  end.
Proof.
  destruct input as [|c rest]; [reflexivity|].
  unfold addsub_tail. cbn [length addsub_loop].
  fold (parse_muldiv rest).
  destruct ((c =? c_plus) || (c =? c_minus))%N; [|reflexivity].
  pose proof (parse_muldiv_shorter rest) as Hs.
  destruct (parse_muldiv rest) as [rhs rest'| |]; cbn [shorter] in Hs; try reflexivity.
  apply addsub_tail_fuel. lia.
Qed.

(** [parseAddSub] *)
Lemma parse_addsub_eq (input : list N) :
  parse_addsub input =
  match parse_muldiv input with
  | Value _ lhs rest => addsub_tail lhs rest
  | failure => failure
  end.
Proof.
  unfold parse_addsub at 1. cbn [parseAddSub].
  rewrite (level_agree
             (parseAddSub num add sub mul div rem pow neg parseFloat (length input))
             parse_addsub (length input)) with (f2 := length input) (input := input).
  - unfold level, parseAddSub_level. fold (parse_muldiv input).
    pose proof (parse_muldiv_shorter input) as Hs.
    destruct (parse_muldiv input) as [lhs rest| |]; cbn [shorter] in Hs; try reflexivity.
    apply addsub_tail_fuel. lia.
  - intros rest Hr. apply PA_shorter. exact Hr.
  - intros rest Hr. apply PA_agree; lia.
  - lia.
  - lia.
  - lia.
Qed.

(** ** The parser computes the value of the grammar *)

Fixpoint eval_atom (a : atom_expr) : num :=
  match a with
  | Lit c cs => parseFloat (map code (c :: cs))
  | Paren e => eval_sum e
  end
with eval_unary (u : unary_expr) : num :=
  match u with
  | UAtom a => eval_atom a
  | UMinus u' => neg (eval_unary u')
  | UPlus u' => eval_unary u'
  end
with eval_power (p : power_expr) : num :=
  match p with
  | PUnary u => eval_unary u
  | PPow p' _ u => pow (eval_power p') (eval_unary u)
  end
with eval_product (m : product_expr) : num :=
  match m with
  | MPower p => eval_power p
  | MOp m' Times p => mul (eval_product m') (eval_power p)
  | MOp m' Over p => div (eval_product m') (eval_power p)
  | MOp m' Modulo p => rem (eval_product m') (eval_power p)
  end
with eval_sum (s : sum_expr) : num :=
  match s with
  | AProduct m => eval_product m
  | AOp s' Plus m => add (eval_sum s') (eval_product m)
  | AOp s' Minus m => sub (eval_sum s') (eval_product m)
  end.

Lemma power_tail_stop (base : num) (rest : list N) :
  power_continues rest = false -> power_tail base rest = Value num base rest.
Proof.
  intros H. rewrite power_tail_eq. destruct rest as [|c rest']; [reflexivity|].
  unfold power_continues in H.
  destruct (c =? c_caret)%N; [discriminate H|].
  destruct (c =? c_star)%N; [|reflexivity].
  destruct rest' as [|c' rest'']; [reflexivity|].
  cbn [orb andb head_is] in H. rewrite H. reflexivity.
Qed.

Lemma muldiv_tail_stop (lhs : num) (rest : list N) :
  product_continues rest = false -> muldiv_tail lhs rest = Value num lhs rest.
Proof.
  intros H. rewrite muldiv_tail_eq. destruct rest as [|c rest']; [reflexivity|].
  unfold product_continues, head_is in H. rewrite H. reflexivity.
Qed.

Lemma addsub_tail_stop (lhs : num) (rest : list N) :
  sum_continues rest = false -> addsub_tail lhs rest = Value num lhs rest.
Proof.
  intros H. rewrite addsub_tail_eq. destruct rest as [|c rest']; [reflexivity|].
  unfold sum_continues, head_is in H. rewrite H. reflexivity.
Qed.

Lemma power_continues_operand (text : list N) :
  begins_operand text -> power_continues (c_star :: text) = false.
Proof.
  intros (c & tl & -> & Hc). unfold power_continues. cbn [head_is].
  rewrite (operand_not_star c Hc). reflexivity.
Qed.

(** Each parsing function reads the text of its expression and leaves the
    loop above it to go on with what follows. *)
Lemma parse_print :
  (forall a rest, ends_number rest = true ->
     parse_atom (print_atom a ++ rest) = Value num (eval_atom a) rest)
  /\ (forall u rest, ends_number rest = true ->
     parse_unary (print_unary u ++ rest) = Value num (eval_unary u) rest)
  /\ (forall p rest, ends_number rest = true ->
     parse_power (print_power p ++ rest) = power_tail (eval_power p) rest)
  /\ (forall m rest, ends_number rest = true -> power_continues rest = false ->
     parse_muldiv (print_product m ++ rest) = muldiv_tail (eval_product m) rest)
  /\ (forall s rest, ends_number rest = true -> power_continues rest = false ->
     product_continues rest = false ->
     parse_addsub (print_sum s ++ rest) = addsub_tail (eval_sum s) rest).
Proof.
  apply grammar_ind.
  - (* Lit *)
    intros c cs rest Hrest. rewrite parse_atom_eq.
    cbn [print_atom map app].
    replace (code c =? c_lparen)%N with false by (destruct c; reflexivity).
    change (scan_number (code c :: map code cs ++ rest))
      with (scan_number (map code (c :: cs) ++ rest)).
    rewrite scan_number_literal by exact Hrest. reflexivity.
  - (* Paren *)
    intros e IH rest _. rewrite parse_atom_eq.
    cbn [print_atom app]. rewrite <- List.app_assoc. cbn [app].
    rewrite N.eqb_refl.
    rewrite IH by reflexivity.
    rewrite addsub_tail_stop by reflexivity.
    rewrite N.eqb_refl. reflexivity.
  - (* UAtom *)
    intros a IH rest Hrest. rewrite parse_unary_eq. cbn [print_unary eval_unary].
    destruct (atom_head a) as (c & tl & E & Hm & Hp).
    rewrite <- (IH rest Hrest). rewrite E. cbn [app]. rewrite Hm, Hp. reflexivity.
  - (* UMinus *)
    intros u IH rest Hrest. rewrite parse_unary_eq. cbn [print_unary eval_unary app].
    rewrite N.eqb_refl. rewrite (IH rest Hrest). reflexivity.
  - (* UPlus *)
    intros u IH rest Hrest. rewrite parse_unary_eq. cbn [print_unary eval_unary app].
    change (c_plus =? c_minus)%N with false. rewrite N.eqb_refl. cbv iota.
    apply IH, Hrest.
  - (* PUnary *)
    intros u IH rest Hrest. rewrite parse_power_eq. cbn [print_power eval_power].
    rewrite (IH rest Hrest). reflexivity.
  - (* PPow *)
    intros p IHp op u IHu rest Hrest. cbn [print_power eval_power].
    rewrite <- !List.app_assoc.
    rewrite IHp by (destruct op; reflexivity).
    rewrite power_tail_eq.
    destruct op; cbn [print_powop app].
    + rewrite N.eqb_refl. unfold power_turn. rewrite (IHu rest Hrest). reflexivity.
    + change (c_star =? c_caret)%N with false. rewrite N.eqb_refl. cbv iota.
      unfold power_turn. rewrite (IHu rest Hrest). reflexivity.
  - (* MPower *)
    intros p IH rest Hrest Hpow. rewrite parse_muldiv_eq. cbn [print_product eval_product].
    rewrite (IH rest Hrest). rewrite (power_tail_stop _ _ Hpow). reflexivity.
  - (* MOp *)
    intros m IHm op p IHp rest Hrest Hpow. cbn [print_product].
    rewrite <- List.app_assoc. cbn [app].
    assert (Hnext : power_continues (print_mulop op :: print_power p ++ rest) = false).
    { destruct op; try reflexivity.
      apply power_continues_operand, begins_operand_app, print_begins_operand. }
    rewrite IHm by (try exact Hnext; destruct op; reflexivity).
    rewrite muldiv_tail_eq.
    rewrite (IHp rest Hrest). rewrite (power_tail_stop _ _ Hpow).
    destruct op; reflexivity.
  - (* AProduct *)
    intros m IH rest Hrest Hpow Hmul. rewrite parse_addsub_eq.
    cbn [print_sum eval_sum].
    rewrite (IH rest Hrest Hpow). rewrite (muldiv_tail_stop _ _ Hmul). reflexivity.
  - (* AOp *)
    intros s IHs op m IHm rest Hrest Hpow Hmul. cbn [print_sum].
    rewrite <- List.app_assoc. cbn [app].
    rewrite IHs by (destruct op; reflexivity).
    rewrite addsub_tail_eq.
    rewrite (IHm rest Hrest Hpow). rewrite (muldiv_tail_stop _ _ Hmul).
    destruct op; reflexivity.
Qed.

Lemma parseExpression_eq (input : list N) :
  parseExpression num add sub mul div rem pow neg parseFloat input =
  match parse_addsub (strip_spaces input) with
  | Value _ result [] => Number num result
  | Value _ _ (_ :: _) => Null num
  | Unexpected _ => ThrowsUnexpected num
  | OutOfFuel _ => Unfinished num
  end.
Proof. reflexivity. Qed.

Lemma parse_sum_text (s : sum_expr) (rest : list N) :
  ends_expression rest = true ->
  parse_addsub (print_sum s ++ rest) = Value num (eval_sum s) rest.
Proof.
  unfold ends_expression. intros H.
  apply andb_prop in H as [H Hsum]. apply andb_prop in H as [H Hmul].
  apply andb_prop in H as [Hnum Hpow].
  apply negb_true_iff in Hsum, Hmul, Hpow.
  destruct parse_print as (_ & _ & _ & _ & HS).
  rewrite (HS s rest Hnum Hpow Hmul). apply addsub_tail_stop, Hsum.
Qed.

Lemma parse_open :
  (forall a, parse_atom (open_atom a) = Value num (eval_atom a) [])
  /\ (forall u, parse_unary (open_unary u) = Value num (eval_unary u) [])
  /\ (forall p, parse_power (open_power p) = Value num (eval_power p) [])
  /\ (forall m, parse_muldiv (open_product m) = Value num (eval_product m) [])
  /\ (forall s, parse_addsub (open_sum s) = Value num (eval_sum s) []).
Proof.
  destruct parse_print as (HA & HU & HP & HM & HS).
  apply grammar_ind.
  - intros c cs. pose proof (HA (Lit c cs) [] eq_refl) as H.
    rewrite List.app_nil_r in H. exact H.
  - intros e IH. rewrite parse_atom_eq. cbn [open_atom eval_atom].
    rewrite N.eqb_refl, IH. reflexivity.
  - intros a IH. rewrite parse_unary_eq. cbn [open_unary eval_unary].
    destruct (open_atom_head a) as (c & tl & E & Hm & Hp).
    rewrite <- IH. rewrite E. rewrite Hm, Hp. reflexivity.
  - intros u IH. rewrite parse_unary_eq. cbn [open_unary eval_unary].
    rewrite N.eqb_refl, IH. reflexivity.
  - intros u IH. rewrite parse_unary_eq. cbn [open_unary eval_unary].
    change (c_plus =? c_minus)%N with false. rewrite N.eqb_refl. cbv iota. exact IH.
  - intros u IH. rewrite parse_power_eq. cbn [open_power eval_power].
    rewrite IH. reflexivity.
  - intros p _ op u IH. cbn [open_power eval_power].
    rewrite HP by (destruct op; reflexivity).
    rewrite power_tail_eq.
    destruct op; cbn [print_powop app].
    + rewrite N.eqb_refl. unfold power_turn. rewrite IH. reflexivity.
    + change (c_star =? c_caret)%N with false. rewrite N.eqb_refl. cbv iota.
      unfold power_turn. rewrite IH. reflexivity.
  - intros p IH. rewrite parse_muldiv_eq. cbn [open_product eval_product].
    rewrite IH. reflexivity.
  - intros m _ op p IH. cbn [open_product].
    assert (Hnext : power_continues (print_mulop op :: open_power p) = false).
    { destruct op; try reflexivity.
      apply power_continues_operand, open_begins_operand. }
    rewrite HM by (try exact Hnext; destruct op; reflexivity).
    rewrite muldiv_tail_eq. rewrite IH.
    destruct op; reflexivity.
  - intros m IH. rewrite parse_addsub_eq. cbn [open_sum eval_sum].
    rewrite IH. reflexivity.
  - intros s _ op m IH. cbn [open_sum].
    rewrite HS by (destruct op; reflexivity).
    rewrite addsub_tail_eq. rewrite IH.
    destruct op; reflexivity.
Qed.

Lemma lacks_operand_unexpected (rest : list N) :
  lacks_operand rest = true -> parse_unary rest = Unexpected num.
Proof.
  induction rest as [|c rest IH]; intros H; [reflexivity|].
  rewrite parse_unary_eq. cbn [lacks_operand] in H.
  destruct (c =? c_minus)%N; [rewrite (IH H); reflexivity|].
  destruct (c =? c_plus)%N; [exact (IH H)|].
  cbn [orb] in H. apply negb_true_iff, orb_false_elim in H as [Hn Hl].
  rewrite parse_atom_eq, Hl. cbn [scan_number]. rewrite Hn. reflexivity.
Qed.

Lemma lacks_operand_power (rest : list N) :
  lacks_operand rest = true -> parse_power rest = Unexpected num.
Proof. intros H. rewrite parse_power_eq, (lacks_operand_unexpected rest H). reflexivity. Qed.

Lemma lacks_operand_muldiv (rest : list N) :
  lacks_operand rest = true -> parse_muldiv rest = Unexpected num.
Proof. intros H. rewrite parse_muldiv_eq, (lacks_operand_power rest H). reflexivity. Qed.

(** A failure of the loop of [parsePower] after a power fails the sum. *)
Lemma fail_after_power (s : sum_expr) (rest : list N) :
  ends_number rest = true ->
  (forall v, power_tail v rest = Unexpected num) ->
  parse_addsub (print_sum s ++ rest) = Unexpected num.
Proof.
  intros Hnum Hfail.
  destruct parse_print as (_ & _ & HP & HM & HS).
  assert (FP : forall p, parse_power (print_power p ++ rest) = Unexpected num).
  { intros p. rewrite (HP p rest Hnum). apply Hfail. }
  assert (FM : forall m, parse_muldiv (print_product m ++ rest) = Unexpected num).
  { intros [p|m op p].
    - rewrite parse_muldiv_eq. cbn [print_product]. rewrite FP. reflexivity.
    - cbn [print_product]. rewrite <- List.app_assoc. cbn [app].
      assert (Hnext : power_continues (print_mulop op :: print_power p ++ rest) = false).
      { destruct op; try reflexivity.
        apply power_continues_operand, begins_operand_app, print_begins_operand. }
      rewrite HM by (try exact Hnext; destruct op; reflexivity).
      rewrite muldiv_tail_eq, FP. destruct op; reflexivity. }
  destruct s as [m|s op m].
  - rewrite parse_addsub_eq. cbn [print_sum]. rewrite FM. reflexivity.
  - cbn [print_sum]. rewrite <- List.app_assoc. cbn [app].
    rewrite HS by (destruct op; reflexivity).
    rewrite addsub_tail_eq, FM. destruct op; reflexivity.
Qed.

(** A failure of the loop of [parseMulDiv] after a product fails the sum. *)
Lemma fail_after_product (s : sum_expr) (rest : list N) :
  ends_number rest = true -> power_continues rest = false ->
  (forall v, muldiv_tail v rest = Unexpected num) ->
  parse_addsub (print_sum s ++ rest) = Unexpected num.
Proof.
  intros Hnum Hpow Hfail.
  destruct parse_print as (_ & _ & _ & HM & HS).
  assert (FM : forall m, parse_muldiv (print_product m ++ rest) = Unexpected num).
  { intros m. rewrite (HM m rest Hnum Hpow). apply Hfail. }
  destruct s as [m|s op m].
  - rewrite parse_addsub_eq. cbn [print_sum]. rewrite FM. reflexivity.
  - cbn [print_sum]. rewrite <- List.app_assoc. cbn [app].
    rewrite HS by (destruct op; reflexivity).
    rewrite addsub_tail_eq, FM. destruct op; reflexivity.
Qed.

(** X9. The parser always comes to an end: every parsing function that
    returns has consumed at least one character, so [parseExpression]
    returns a number, returns [null] or throws, and the model's answer does
    not depend on the fuel as soon as there is more fuel than input. *)
Theorem parser_always_finishes (input : list N) (fuel : nat) :
  match parseExpression num add sub mul div rem pow neg parseFloat input with
  | Unfinished _ => False
  | _ => True
  end
  /\ (length input < fuel ->
      parseAddSub num add sub mul div rem pow neg parseFloat fuel input
      = parseAddSub num add sub mul div rem pow neg parseFloat (S (length input)) input
      /\ shorter input (parseAddSub num add sub mul div rem pow neg parseFloat fuel input)).
Proof.
  split.
  - rewrite parseExpression_eq.
    pose proof (parse_addsub_shorter (S (length (strip_spaces input)))
                  (strip_spaces input) ltac:(lia)) as H.
    destruct (parse_addsub (strip_spaces input)) as [v [|c rest]| |];
      cbn [shorter] in H; trivial.
  - intros Hfuel. split.
    + apply PA_agree; lia.
    + apply PA_shorter, Hfuel.
Qed.

(** X10. The parser computes the value of the grammar: when the input,
    spaces removed, is the text of an expression followed by something
    that cannot continue it (the end, a closing parenthesis, a letter),
    [parseExpression] returns the value of the expression if nothing
    follows and [null] otherwise.  The value takes powers before products
    before sums, every operator chain from left to right, and a sign
    before the power it stands in front of. *)
Theorem parseExpression_computes_grammar (s : sum_expr) (rest input : list N) :
  strip_spaces input = print_sum s ++ rest ->
  ends_expression rest = true ->
  parseExpression num add sub mul div rem pow neg parseFloat input =
  match rest with
  | [] => Number num (eval_sum s)
  | _ :: _ => Null num
  end.
Proof.
  intros Htext Hrest. rewrite parseExpression_eq, Htext.
  rewrite (parse_sum_text s rest Hrest). reflexivity.
Qed.

(** X11. Powers are taken from left to right and after the sign: for
    operands [a], [b] and [c] the text [-a^b^c] has the value
    [((-a)^b)^c], and [**] is read as [^]. *)
Theorem power_chains_left_after_sign (a b c : atom_expr) :
  parseExpression num add sub mul div rem pow neg parseFloat
    (c_minus :: print_atom a ++ c_caret :: print_atom b ++ c_caret :: print_atom c)
  = Number num (pow (pow (neg (eval_atom a)) (eval_atom b)) (eval_atom c))
  /\ parseExpression num add sub mul div rem pow neg parseFloat
       (print_atom a ++ c_star :: c_star :: print_atom b)
     = parseExpression num add sub mul div rem pow neg parseFloat
         (print_atom a ++ c_caret :: print_atom b).
Proof.
  pose (tree := AProduct (MPower
          (PPow (PPow (PUnary (UMinus (UAtom a))) Caret (UAtom b)) Caret (UAtom c)))).
  pose (stars := AProduct (MPower (PPow (PUnary (UAtom a)) StarStar (UAtom b)))).
  pose (caret := AProduct (MPower (PPow (PUnary (UAtom a)) Caret (UAtom b)))).
  destruct print_no_spaces as (_ & _ & _ & _ & Hs).
  assert (Htext : forall t, parseExpression num add sub mul div rem pow neg parseFloat
                              (print_sum t) = Number num (eval_sum t)).
  { intros t. rewrite parseExpression_eq, Hs.
    rewrite <- (List.app_nil_r (print_sum t)).
    rewrite (parse_sum_text t [] eq_refl). reflexivity. }
  split.
  - replace (c_minus :: print_atom a ++ c_caret :: print_atom b ++ c_caret :: print_atom c)
      with (print_sum tree)
      by (unfold tree; cbn [print_sum print_product print_power print_unary print_powop];
          rewrite <- !List.app_assoc; reflexivity).
    apply Htext.
  - replace (print_atom a ++ c_star :: c_star :: print_atom b) with (print_sum stars)
      by reflexivity.
    replace (print_atom a ++ c_caret :: print_atom b) with (print_sum caret)
      by reflexivity.
    rewrite !Htext. reflexivity.
Qed.

(** X12. The closing parentheses that end an expression may be left out:
    the text without them differs from the full text only by closing
    parentheses at the end, and [parseExpression] gives it the same
    value. *)
Theorem closing_parentheses_optional (s : sum_expr) :
  (exists k, print_sum s = open_sum s ++ repeat c_rparen k)
  /\ parseExpression num add sub mul div rem pow neg parseFloat (print_sum s)
     = Number num (eval_sum s)
  /\ (forall input, strip_spaces input = open_sum s ->
      parseExpression num add sub mul div rem pow neg parseFloat input
      = Number num (eval_sum s)).
Proof.
  split; [apply print_closes_open|]. split.
  - destruct print_no_spaces as (_ & _ & _ & _ & Hs).
    rewrite parseExpression_eq, Hs.
    rewrite <- (List.app_nil_r (print_sum s)).
    rewrite (parse_sum_text s [] eq_refl). reflexivity.
  - intros input Htext. rewrite parseExpression_eq, Htext.
    destruct parse_open as (_ & _ & _ & _ & HS). rewrite HS. reflexivity.
Qed.

(** X13. An operand is required at the start and after every binary
    operator: when the input, spaces removed, has after any signs no
    digit, point or opening parenthesis (the empty input included), or is
    an expression and an operator followed by such a text,
    [parseExpression] throws.  ([*] followed by [*] is the operator
    [**].) *)
Theorem operator_needs_operand (input : list N) :
  (lacks_operand (strip_spaces input) = true ->
   parseExpression num add sub mul div rem pow neg parseFloat input
   = ThrowsUnexpected num)
  /\ (forall s op rest,
        strip_spaces input = print_sum s ++ print_binop op ++ rest ->
        lacks_operand rest = true ->
        (op = BMul Times -> head_is (fun c => c =? c_star)%N rest = false) ->
        parseExpression num add sub mul div rem pow neg parseFloat input
        = ThrowsUnexpected num).
Proof.
  split.
  - intros H. rewrite parseExpression_eq, parse_addsub_eq.
    rewrite (lacks_operand_muldiv _ H). reflexivity.
  - intros s op rest Htext Hrest Hstar.
    rewrite parseExpression_eq, Htext.
    assert (Hturn : forall v, power_turn v rest = Unexpected num).
    { intros v. unfold power_turn. rewrite (lacks_operand_unexpected rest Hrest).
      reflexivity. }
    destruct op as [[|]|op|op]; cbn [print_binop print_powop app].
    + rewrite fail_after_power; [reflexivity | reflexivity |].
      intros v. rewrite power_tail_eq, N.eqb_refl. apply Hturn.
    + rewrite fail_after_power; [reflexivity | reflexivity |].
      intros v. rewrite power_tail_eq.
      change (c_star =? c_caret)%N with false. rewrite N.eqb_refl. cbv iota.
      apply Hturn.
    + rewrite fail_after_product; [reflexivity | destruct op; reflexivity | |].
      * destruct op; try reflexivity.
        specialize (Hstar eq_refl). unfold power_continues.
        cbn [print_mulop]. rewrite Hstar. reflexivity.
      * intros v. rewrite muldiv_tail_eq, (lacks_operand_power rest Hrest).
        destruct op; reflexivity.
    + destruct parse_print as (_ & _ & _ & _ & HS).
      rewrite HS by (destruct op; reflexivity).
      rewrite addsub_tail_eq, (lacks_operand_muldiv rest Hrest).
      destruct op; reflexivity.
Qed.

End Parser.

(** Decimal digits read as an integer, to run the parser on examples
    without a point. *)
Definition decimal (digits : list N) : Z :=
  fold_left (fun acc d => (10 * acc + (Z.of_N d - 48))%Z) digits 0%Z.

Lemma parseExpression_computes_grammar_witness :
  parseExpression Z Z.add Z.sub Z.mul Z.div Z.rem Z.pow Z.opp decimal
    (units_of "1 + 2 * (3 - 4)")
  = Number Z (-1)%Z.
Proof.
  exact (parseExpression_computes_grammar Z Z.add Z.sub Z.mul Z.div Z.rem Z.pow Z.opp
           decimal
           (AOp (AProduct (MPower (PUnary (UAtom (Lit Digit1 [])))))
                Plus
                (MOp (MPower (PUnary (UAtom (Lit Digit2 []))))
                     Times
                     (PUnary (UAtom (Paren
                        (AOp (AProduct (MPower (PUnary (UAtom (Lit Digit3 [])))))
                             Minus
                             (MPower (PUnary (UAtom (Lit Digit4 []))))))))))
           [] (units_of "1 + 2 * (3 - 4)") eq_refl eq_refl).
Defined.

End ParserProps.

(* ================================================================== *)
(** * Further properties of the extension runner *)
(* ================================================================== *)

Module DiscoveryProps.
Import Runner.

Section Discovery.

Variable path_join : list string -> string.
Variable path_extname : string -> string.
Variable toLowerCase : string -> string.
Variable base64 : string -> string.
Variable JSON_parse : string -> result json.
Variable userData : string.

Lemma lower_keywords_length (xs : list json) (ks : list string) :
  lower_keywords toLowerCase xs = Ok ks -> length ks <= length xs.
Proof.
  revert ks. induction xs as [|x xs IH]; intros ks H.
  - injection H as <-. reflexivity.
  - cbn [lower_keywords] in H. cbn [length].
    destruct (jtruthy (Some x)).
    + destruct x; try discriminate H.
      destruct (lower_keywords toLowerCase xs) as [ks'|]; [|discriminate H].
      injection H as <-. cbn [length]. specialize (IH ks' eq_refl). lia.
    + specialize (IH ks H). lia.
Qed.

Lemma lower_keywords_keeps (xs : list json) (ks : list string) (s : string) :
  lower_keywords toLowerCase xs = Ok ks ->
  In (JStr s) xs -> String.eqb s "" = false -> In (toLowerCase s) ks.
Proof.
  revert ks. induction xs as [|x xs IH]; intros ks H Hin Hs; [destruct Hin|].
  cbn [lower_keywords] in H.
  destruct Hin as [-> | Hin].
  - cbn [jtruthy] in H. rewrite Hs in H. cbn [negb] in H.
    destruct (lower_keywords toLowerCase xs) as [ks'|]; [|discriminate H].
    injection H as <-. left. reflexivity.
  - destruct (jtruthy (Some x)).
    + destruct x; try discriminate H.
      destruct (lower_keywords toLowerCase xs) as [ks'|]; [|discriminate H].
      injection H as <-. right. exact (IH ks' eq_refl Hin Hs).
    + exact (IH ks H Hin Hs).
Qed.

Lemma jor_truthy (v : option json) (d : json) :
  jtruthy (Some d) = true -> jtruthy (Some (jor v d)) = true.
Proof.
  intros Hd. unfold jor. destruct v as [j|]; [|exact Hd].
  destruct (jtruthy (Some j)) eqn:E; [exact E | exact Hd].
Qed.

(** What went into a descriptor that was pushed. *)
Lemma command_info_inversion (dir : string) (pkg : json) (icon : option string)
    (cmd : json) (info : ExtensionCommandInfo) :
  command_info toLowerCase dir pkg icon cmd = Ok (Some info) ->
  exists s t ctitle cdesc cmode ptitle ks,
    jget cmd "name" = Ok (Some (JStr s)) /\ String.eqb s "" = false
    /\ jget cmd "title" = Ok ctitle /\ jor ctitle (JStr s) = JStr t
    /\ String.eqb t "" = false
    /\ jget cmd "description" = Ok cdesc
    /\ jget cmd "mode" = Ok cmode
    /\ jget pkg "title" = Ok ptitle
    /\ lower_keywords toLowerCase
         [ JStr dir; jor ptitle (JStr ""); JStr s; jor ctitle (JStr "");
           jor cdesc (JStr "") ] = Ok ks
    /\ info = mkInfo ("ext-" +:+ dir +:+ "-" +:+ s) t dir s (text (jor cdesc (JStr "")))
                     (jor cmode (JStr "view")) ks icon.
Proof.
  unfold command_info.
  destruct (jget cmd "name") as [name|] eqn:Hname; [|discriminate].
  destruct (jtruthy name) eqn:Ht; cbn [negb]; [|discriminate].
  destruct (jget cmd "title") as [ctitle|]; [|discriminate].
  destruct (jget cmd "description") as [cdesc|]; [|discriminate].
  destruct (jget cmd "mode") as [cmode|]; [|discriminate].
  destruct (jget pkg "title") as [ptitle|]; [|discriminate].
  cbv zeta.
  match goal with
  | |- context [lower_keywords toLowerCase ?l] =>
      destruct (lower_keywords toLowerCase l) as [ks|] eqn:Hk; [|discriminate]
  end.
  intros [= <-].
  destruct name as [j|]; [|discriminate Ht].
  assert (Hj : jor (Some j) JNull = j) by (unfold jor; rewrite Ht; reflexivity).
  rewrite Hj in *.
  destruct (RunnerProps.lower_keywords_strings toLowerCase _ _ Hk j) as [s ->];
    [cbn; auto | exact Ht |].
  cbn [text].
  assert (Hs : String.eqb s "" = false)
    by (cbn in Ht; destruct (String.eqb s ""); [discriminate Ht | reflexivity]).
  assert (Htitle : exists t, jor ctitle (JStr s) = JStr t /\ String.eqb t "" = false).
  { unfold jor. destruct ctitle as [c|]; [|eauto].
    destruct (jtruthy (Some c)) eqn:Hc; [|eauto].
    destruct (RunnerProps.lower_keywords_strings toLowerCase _ _ Hk (jor (Some c) (JStr "")))
      as [t Et].
    - cbn. auto.
    - unfold jor. rewrite Hc. exact Hc.
    - unfold jor in Et. rewrite Hc in Et. subst c. exists t. split; [reflexivity|].
      cbn in Hc. destruct (String.eqb t ""); [discriminate Hc | reflexivity]. }
  destruct Htitle as (t & Et & Hne).
  exists s, t, ctitle, cdesc, cmode, ptitle, ks.
  rewrite Et. cbn [text]. repeat split; auto.
Qed.

(** X14. Every descriptor discovery pushes is complete.  It carries the
    directory name, the icon of its extension and the id
    [ext-<dir>-<name>]; its command name is the non-empty string the
    manifest declares; its title is the declared title, or the command
    name when that is missing or empty, and is never empty; its mode is
    the declared mode or ["view"] and is never falsy; and its keywords, at
    most five, hold the lowercased command name and, for a non-empty
    directory name, the lowercased directory name. *)
Theorem descriptor_is_complete (dir : string) (pkg : json) (icon : option string)
    (cmd : json) (info : ExtensionCommandInfo) :
  command_info toLowerCase dir pkg icon cmd = Ok (Some info) ->
  extName info = dir
  /\ iconDataUrl info = icon
  /\ id info = "ext-" +:+ dir +:+ "-" +:+ cmdName info
  /\ jget cmd "name" = Ok (Some (JStr (cmdName info)))
  /\ String.eqb (cmdName info) "" = false
  /\ (exists ctitle, jget cmd "title" = Ok ctitle
        /\ JStr (title info) = jor ctitle (JStr (cmdName info)))
  /\ String.eqb (title info) "" = false
  /\ (exists cmode, jget cmd "mode" = Ok cmode
        /\ mode info = jor cmode (JStr "view"))
  /\ jtruthy (Some (mode info)) = true
  /\ length (keywords info) <= 5
  /\ In (toLowerCase (cmdName info)) (keywords info)
  /\ (String.eqb dir "" = false -> In (toLowerCase dir) (keywords info)).
Proof.
  intros H.
  destruct (command_info_inversion _ _ _ _ _ H)
    as (s & t & ctitle & cdesc & cmode & ptitle & ks
        & Hname & Hs & Htitle & Et & Hne & _ & Hmode & _ & Hk & ->).
  cbn [extName iconDataUrl id cmdName title mode keywords].
  repeat split; auto.
  - exists ctitle. split; [exact Htitle | symmetry; exact Et].
  - exists cmode. split; [exact Hmode | reflexivity].
  - apply jor_truthy. reflexivity.
  - apply (lower_keywords_length _ _ Hk).
  - apply (lower_keywords_keeps _ _ s Hk); [cbn; auto | exact Hs].
  - intros Hdir. apply (lower_keywords_keeps _ _ dir Hk); [cbn; auto | exact Hdir].
Qed.

(** [icon_at] yields a URL exactly for a readable file of at least 50
    bytes. *)
Lemma icon_at_spec (fs : gmap string node) (p : string) :
  match icon_at path_extname toLowerCase base64 fs p with
  | Some url =>
      exists data,
        readFileSync fs p = Ok data /\ 50 <= String.length data
        /\ url = "data:" +:+ mime_of (toLowerCase (path_extname p))
                 +:+ ";base64," +:+ base64 data
  | None => forall data, readFileSync fs p = Ok data -> String.length data < 50
  end.
Proof.
  unfold icon_at, existsSync, readFileSync.
  destruct (fs !! p) as [[m [data|]|m names]|]; cbn [negb]; try discriminate.
  destruct (Nat.ltb_spec (String.length data) 50) as [Hlt|Hge].
  - intros data' [= <-]. exact Hlt.
  - exists data. repeat split. exact Hge.
Qed.

Lemma mime_of_cases (ext : string) :
  In (mime_of ext) ["image/svg+xml"; "image/jpeg"; "image/png"].
Proof.
  unfold mime_of. destruct (String.eqb ext ".svg"); [left; reflexivity|].
  destruct (String.eqb ext ".jpg" || String.eqb ext ".jpeg");
    [right; left; reflexivity | right; right; left; reflexivity].
Qed.

(** X15. The icon of an extension is read from the first usable
    candidate: [assets/<icon>] before [<icon>], where a candidate is
    usable when it can be read and holds at least 50 bytes.  The result is
    a [data:] URL of that file's bytes whose media type is one of
    [image/svg+xml], [image/jpeg] and [image/png]; there is no icon
    exactly when neither candidate is usable; and only an icon name that
    is not a string makes the function throw. *)
Theorem icon_is_first_usable_candidate (fs : gmap string node) (extPath : string)
    (iconFile : json) :
  match getExtensionIconDataUrl path_join path_extname toLowerCase base64 fs extPath
          iconFile with
  | Thrown => forall icon, iconFile = JStr icon -> False
  | Ok found =>
      exists icon,
        iconFile = JStr icon
        /\ match found with
           | Some url =>
               exists p data mime,
                 readFileSync fs p = Ok data /\ 50 <= String.length data
                 /\ In mime ["image/svg+xml"; "image/jpeg"; "image/png"]
                 /\ url = "data:" +:+ mime +:+ ";base64," +:+ base64 data
                 /\ (p = path_join [extPath; "assets"; icon]
                     \/ (p = path_join [extPath; icon]
                         /\ forall data',
                              readFileSync fs (path_join [extPath; "assets"; icon])
                              = Ok data' ->
                              String.length data' < 50))
           | None =>
               forall p data,
                 In p [path_join [extPath; "assets"; icon]; path_join [extPath; icon]] ->
                 readFileSync fs p = Ok data -> String.length data < 50
           end
  end.
Proof.
  destruct iconFile as [| | |icon| |]; cbn [getExtensionIconDataUrl];
    try (intros icon; discriminate).
  exists icon. split; [reflexivity|].
  cbn [first_icon].
  pose proof (icon_at_spec fs (path_join [extPath; "assets"; icon])) as H1.
  pose proof (icon_at_spec fs (path_join [extPath; icon])) as H2.
  destruct (icon_at path_extname toLowerCase base64 fs (path_join [extPath; "assets"; icon]))
    as [url|].
  - destruct H1 as (data & Hr & Hl & ->).
    exists (path_join [extPath; "assets"; icon]), data,
      (mime_of (toLowerCase (path_extname (path_join [extPath; "assets"; icon])))).
    repeat split; auto. apply mime_of_cases.
  - destruct (icon_at path_extname toLowerCase base64 fs (path_join [extPath; icon]))
      as [url|].
    + destruct H2 as (data & Hr & Hl & ->).
      exists (path_join [extPath; icon]), data,
        (mime_of (toLowerCase (path_extname (path_join [extPath; icon])))).
      repeat split; auto. apply mime_of_cases.
    + intros p data [<- | [<- | []]]; auto.
Qed.

(** The icon file name discovery looks for: [pkg.icon || 'icon.png'] of
    the manifest, when the manifest can be read and parsed and the name is
    a string. *)
Definition icon_name (fs : gmap string node) (dir : string) : option string :=
  match readFileSync fs (RunnerProps.pkgPath_of path_join userData dir) with
  | Ok source =>
      match JSON_parse source with
      | Ok pkg =>
          match jget pkg "icon" with
          | Ok icon =>
              match jor icon (JStr "icon.png") with
              | JStr file => Some file
              | _ => None
              end
          | Thrown => None
          end
      | Thrown => None
      end
  | Thrown => None
  end.

(** The paths discovery reads for one entry of the root: its directory,
    its manifest, and the two candidates of the icon the manifest names. *)
Definition paths_read (fs : gmap string node) (dir : string) : list string :=
  [ RunnerProps.extPath_of path_join userData dir;
    RunnerProps.pkgPath_of path_join userData dir ]
  ++ match icon_name fs dir with
     | Some file =>
         [ path_join [RunnerProps.extPath_of path_join userData dir; "assets"; file];
           path_join [RunnerProps.extPath_of path_join userData dir; file] ]
     | None => []
     end.

Lemma icon_at_local (fs fs' : gmap string node) (p : string) :
  fs !! p = fs' !! p ->
  icon_at path_extname toLowerCase base64 fs p
  = icon_at path_extname toLowerCase base64 fs' p.
Proof.
  intros H. unfold icon_at, existsSync, readFileSync. rewrite H. reflexivity.
Qed.

(** X16. What discovery lists for one entry of the root is determined by
    at most four paths: the entry itself, its [package.json], and the two
    icon candidates [path.join(extPath, 'assets', icon)] and
    [path.join(extPath, icon)] for the icon name the manifest gives
    ([icon.png] by default).  Two file systems that agree on these paths
    give the same descriptors and the same four paths.  (Where the
    candidates lie is up to [path.join] and the icon name; they need not
    lie inside the extension's directory.) *)
Theorem descriptors_depend_on_paths_read (fs fs' : gmap string node) (dir : string) :
  (forall p, In p (paths_read fs dir) -> fs !! p = fs' !! p) ->
  RunnerProps.commands_of path_join path_extname toLowerCase base64 JSON_parse
    userData fs dir
  = RunnerProps.commands_of path_join path_extname toLowerCase base64 JSON_parse
      userData fs' dir
  /\ paths_read fs' dir = paths_read fs dir.
Proof.
  intros Hsame.
  assert (Hext : fs !! RunnerProps.extPath_of path_join userData dir
                 = fs' !! RunnerProps.extPath_of path_join userData dir)
    by (apply Hsame; left; reflexivity).
  assert (Hpkg : fs !! RunnerProps.pkgPath_of path_join userData dir
                 = fs' !! RunnerProps.pkgPath_of path_join userData dir)
    by (apply Hsame; right; left; reflexivity).
  assert (Hname : icon_name fs' dir = icon_name fs dir)
    by (unfold icon_name, readFileSync; rewrite Hpkg; reflexivity).
  split; [|unfold paths_read; rewrite Hname; reflexivity].
  unfold RunnerProps.commands_of, extension_commands, statSync, existsSync.
  fold (RunnerProps.extDir path_join userData).
  fold (RunnerProps.extPath_of path_join userData dir).
  fold (RunnerProps.pkgPath_of path_join userData dir).
  rewrite <- Hext, <- Hpkg.
  destruct (fs !! RunnerProps.extPath_of path_join userData dir) as [n|]; [|reflexivity].
  destruct (negb (isDirectory n)); [reflexivity|].
  destruct (fs !! RunnerProps.pkgPath_of path_join userData dir) as [n0|] eqn:Hn0;
    cbn [negb]; [|reflexivity].
  unfold paths_read, icon_name in Hsame.
  unfold manifest_commands. unfold readFileSync in Hsame |- * .
  rewrite <- Hpkg. rewrite Hn0 in Hsame |- * .
  destruct n0 as [m [source|]|m names]; try reflexivity.
  destruct (JSON_parse source) as [pkg|]; [|reflexivity].
  destruct (jget pkg "icon") as [icon|]; [|reflexivity].
  destruct (jget pkg "commands") as [commands|]; [|reflexivity].
  unfold getExtensionIconDataUrl.
  destruct (jor icon (JStr "icon.png")) as [| | |file| |]; try reflexivity.
  cbn [first_icon].
  rewrite (icon_at_local fs fs'
             (path_join [RunnerProps.extPath_of path_join userData dir; "assets"; file]))
    by (apply Hsame; right; right; left; reflexivity).
  rewrite (icon_at_local fs fs'
             (path_join [RunnerProps.extPath_of path_join userData dir; file]))
    by (apply Hsame; right; right; right; left; reflexivity).
  reflexivity.
Qed.

End Discovery.

Lemma descriptor_is_complete_witness :
  command_info (fun s => s) "good" RunnerProps.manifest_G None
    (JObj [ ("name", JStr "foo"); ("mode", JStr "no-view") ])
  = Ok (Some (mkInfo "ext-good-foo" "foo" "good" "foo" "" (JStr "no-view")
                     ["good"; "tools"; "foo"] None))
  /\ String.eqb (title (mkInfo "ext-good-foo" "foo" "good" "foo" "" (JStr "no-view")
                              ["good"; "tools"; "foo"] None)) "" = false.
Proof.
  split; [reflexivity|].
  exact (proj1 (proj2 (proj2 (proj2 (proj2 (proj2 (proj2
           (descriptor_is_complete (fun s => s) "good" RunnerProps.manifest_G None
              (JObj [ ("name", JStr "foo"); ("mode", JStr "no-view") ])
              _ eq_refl)))))))).
Defined.

(** The concrete disk with a file added outside the extension [good]. *)
Definition disk_with_stranger : gmap string node :=
  <["/u/extensions/other/package.json" := NFile 0 (Some "{}")]> RunnerProps.disk.

Lemma descriptors_depend_on_paths_read_witness :
  paths_read RunnerProps.join RunnerProps.parse_G "/u" RunnerProps.disk "good"
  = [ "/u/extensions/good"; "/u/extensions/good/package.json";
      "/u/extensions/good/assets/icon.png"; "/u/extensions/good/icon.png" ]
  /\ RunnerProps.commands_of RunnerProps.join (fun p => "") (fun s => s) (fun s => s)
       RunnerProps.parse_G "/u" RunnerProps.disk "good"
     = RunnerProps.commands_of RunnerProps.join (fun p => "") (fun s => s) (fun s => s)
         RunnerProps.parse_G "/u" disk_with_stranger "good".
Proof.
  split; [reflexivity|].
  apply (descriptors_depend_on_paths_read RunnerProps.join (fun p => "") (fun s => s)
           (fun s => s) RunnerProps.parse_G "/u" RunnerProps.disk disk_with_stranger
           "good").
  intros p Hp. unfold disk_with_stranger. symmetry. apply lookup_insert_ne.
  change (In p [ "/u/extensions/good"; "/u/extensions/good/package.json";
                 "/u/extensions/good/assets/icon.png"; "/u/extensions/good/icon.png" ])
    in Hp.
  destruct Hp as [<- | [<- | [<- | [<- | []]]]]; discriminate.
Defined.

End DiscoveryProps.

Module BuildProps.
Import Runner.

Section Build.

Variable path_join : list string -> string.
Variable JSON_parse : string -> result json.
Variable userData : string.
Variable npm_install : string -> gmap string node -> gmap string node * bool.
Variable esbuild_build : gmap string node -> string -> list string -> result string.

Let build := RunnerProps.build path_join JSON_parse userData npm_install esbuild_build.
Let ensure := ensureDepsInstalled path_join JSON_parse npm_install.
Let outFile_of := RunnerProps.outFile_of path_join userData.

Definition extPath_of (extName : string) : string :=
  path_join [getExtensionsDir path_join userData; extName].

Definition buildDir_of (extName : string) : string :=
  path_join [getExtensionsDir path_join userData; extName; ".sc-build"].

(** The candidates of [resolveEntryFile], in its order. *)
Definition candidates (extPath cmdName : string) : list string :=
  [ path_join [extPath; "src"; cmdName +:+ ".tsx"];
    path_join [extPath; "src"; cmdName +:+ ".ts"];
    path_join [extPath; "src"; cmdName +:+ ".jsx"];
    path_join [extPath; "src"; cmdName +:+ ".js"];
    path_join [extPath; "src"; "index.tsx"];
    path_join [extPath; "src"; "index.ts"] ].

(** Whether [ensureDepsInstalled] gets as far as [npm install]. *)
Definition needs_install (extPath : string) (w : world) : bool :=
  negb (existsSync (files w) (path_join [extPath; "node_modules"]))
  && existsSync (files w) (path_join [extPath; "package.json"])
  && match readFileSync (files w) (path_join [extPath; "package.json"]) with
     | Ok source =>
         match JSON_parse source with
         | Ok pkg =>
             match hasDeps pkg with
             | Ok true => true
             | _ => false
             end
         | Thrown => false
         end
     | Thrown => false
     end.

Lemma ensure_cases (extPath : string) (w : world) :
  (needs_install extPath w = false /\ ensure extPath w = w)
  \/ (needs_install extPath w = true
      /\ ensure extPath w =
         mkWorld (fst (npm_install extPath (files w))) (clock w) (builds w)
           (installs w ++ [extPath])
           (console w ++
            [ "Installing dependencies for extension at " +:+ extPath;
              if snd (npm_install extPath (files w))
              then "Dependencies installed for " +:+ extPath
              else "Failed to install deps for " +:+ extPath ])).
Proof.
  unfold ensure, ensureDepsInstalled, needs_install.
  destruct (existsSync (files w) (path_join [extPath; "node_modules"])); [left; auto|].
  destruct (existsSync (files w) (path_join [extPath; "package.json"])); [|left; auto].
  cbn [negb andb].
  destruct (readFileSync (files w) (path_join [extPath; "package.json"])) as [source|];
    [|left; auto].
  destruct (JSON_parse source) as [pkg|]; [|left; auto].
  destruct (hasDeps pkg) as [[|]|]; try (left; auto; fail).
  right. split; [reflexivity|].
  destruct (npm_install extPath (files w)) as [fs' ok]. reflexivity.
Qed.

(** Whether a manifest entry has something to install:
    [v && Object.keys(v).length > 0] holds of an object with a key, of an
    array with an element and of a string with a character, and of
    nothing else. *)
Definition has_keys (v : option json) : bool :=
  match v with
  | Some (JObj (_ :: _)) | Some (JArr (_ :: _)) | Some (JStr (String _ _)) => true
  | _ => false
  end.

(** A parsed manifest that lists something under [dependencies] or under
    [devDependencies]. *)
Definition lists_dependencies (pkg : json) : bool :=
  match pkg with
  | JObj fields =>
      has_keys (lookup_field "dependencies" fields)
      || has_keys (lookup_field "devDependencies" fields)
  | _ => false
  end.

Lemma declares_has_keys (fields : list (string * json)) (k : string) :
  declares (JObj fields) k = Ok (has_keys (lookup_field k fields)).
Proof.
  unfold declares. cbn [jget].
  destruct (lookup_field k fields) as [[|b|q|[|c s]|[|x xs]|[|f fs]]|];
    cbn [jtruthy jor keys_length has_keys length String.length Nat.ltb Nat.leb andb negb];
    try reflexivity.
  - destruct b; reflexivity.
  - unfold jor. cbn [jtruthy].
    destruct (negb (QArith_base.Qnum q =? 0)%Z); reflexivity.
Qed.

Lemma hasDeps_lists (pkg : json) :
  match hasDeps pkg with
  | Ok b => b = lists_dependencies pkg
  | Thrown => pkg = JNull
  end.
Proof.
  destruct pkg as [| | | | |fields]; try reflexivity.
  unfold hasDeps. rewrite !declares_has_keys. cbn [lists_dependencies].
  destruct (has_keys (lookup_field "dependencies" fields)); reflexivity.
Qed.

(** X17. [ensureDepsInstalled] runs [npm install] exactly when
    [node_modules] is missing and the manifest can be read, parses, and
    lists something under [dependencies] or [devDependencies] (an object
    with at least one key; an empty object, a number, [true] or [null]
    there does not count).  Then it runs it once, in the extension
    directory, takes over the files npm leaves and logs two lines, whether
    npm succeeded or not.  In every other case it changes nothing.  It
    never touches the clock or the list of bundler runs. *)
Theorem ensureDepsInstalled_installs_when_needed (extPath : string) (w : world) :
  clock (ensure extPath w) = clock w
  /\ builds (ensure extPath w) = builds w
  /\ (installs (ensure extPath w) = installs w ++ [extPath]
      <-> (existsSync (files w) (path_join [extPath; "node_modules"]) = false
           /\ exists source pkg,
                readFileSync (files w) (path_join [extPath; "package.json"]) = Ok source
                /\ JSON_parse source = Ok pkg
                /\ lists_dependencies pkg = true))
  /\ (installs (ensure extPath w) = installs w ++ [extPath] ->
      files (ensure extPath w) = fst (npm_install extPath (files w))
      /\ length (console (ensure extPath w)) = length (console w) + 2)
  /\ (installs (ensure extPath w) <> installs w ++ [extPath] -> ensure extPath w = w).
Proof.
  assert (Hneed : needs_install extPath w = true <->
            (existsSync (files w) (path_join [extPath; "node_modules"]) = false
             /\ exists source pkg,
                  readFileSync (files w) (path_join [extPath; "package.json"]) = Ok source
                  /\ JSON_parse source = Ok pkg
                  /\ lists_dependencies pkg = true)).
  { unfold needs_install.
    destruct (existsSync (files w) (path_join [extPath; "node_modules"])); cbn [negb andb].
    { split; [discriminate | intros [H _]; discriminate H]. }
    assert (Hex : forall source,
              readFileSync (files w) (path_join [extPath; "package.json"]) = Ok source ->
              existsSync (files w) (path_join [extPath; "package.json"]) = true).
    { unfold readFileSync, existsSync. intros source.
      destruct (files w !! path_join [extPath; "package.json"]); [reflexivity|discriminate]. }
    destruct (readFileSync (files w) (path_join [extPath; "package.json"])) as [source|].
    2:{ rewrite andb_false_r.
        split; [discriminate | intros [_ (? & ? & H & _)]; discriminate H]. }
    rewrite (Hex source eq_refl). cbn [andb].
    destruct (JSON_parse source) as [pkg|] eqn:Hparse.
    2:{ split; [discriminate|].
        intros [_ (s' & pkg & [= <-] & H & _)]. rewrite Hparse in H. discriminate H. }
    pose proof (hasDeps_lists pkg) as Hd.
    destruct (hasDeps pkg) as [[|]|].
    - split; [|reflexivity]. intros _. split; [reflexivity|]. exists source, pkg. auto.
    - split; [discriminate|].
      intros [_ (s' & pkg' & [= <-] & H & Hl)]. rewrite Hparse in H.
      injection H as <-. rewrite <- Hd in Hl. discriminate Hl.
    - subst pkg. split; [discriminate|].
      intros [_ (s' & pkg' & [= <-] & H & Hl)]. rewrite Hparse in H.
      injection H as <-. discriminate Hl. }
  destruct (ensure_cases extPath w) as [[Hn Hw] | [Hn Hw]]; rewrite Hw.
  - assert (Hno : installs w <> installs w ++ [extPath])
      by (intros E; symmetry in E; exact (RunnerProps.snoc_neq _ _ E)).
    split; [reflexivity|]. split; [reflexivity|]. split; [|split].
    + split; [intros E; exfalso; exact (Hno E)|].
      intros H. apply Hneed in H. congruence.
    + intros E. exfalso. exact (Hno E).
    + intros _. reflexivity.
  - cbn [clock builds installs files console].
    split; [reflexivity|]. split; [reflexivity|]. split; [|split].
    + split; [intros _; apply Hneed, Hn | intros _; reflexivity].
    + intros _. split; [reflexivity|]. rewrite length_app. reflexivity.
    + intros H. exfalso. apply H. reflexivity.
Qed.

Lemma ensure_frame (extPath : string) (w : world) :
  clock (ensure extPath w) = clock w
  /\ builds (ensure extPath w) = builds w
  /\ (installs (ensure extPath w) = installs w
      \/ installs (ensure extPath w) = installs w ++ [extPath])
  /\ exists more, console (ensure extPath w) = console w ++ more.
Proof.
  destruct (ensure_cases extPath w) as [[_ Hw] | [_ Hw]]; rewrite Hw.
  - repeat split; auto. exists []. rewrite List.app_nil_r. reflexivity.
  - cbn [clock builds installs console]. repeat split; auto. eexists. reflexivity.
Qed.

Lemma getBuildDir_frame (extName : string) (w : world) :
  getBuildDir path_join userData extName w
  = (buildDir_of extName,
     snd (getBuildDir path_join userData extName w))
  /\ clock (snd (getBuildDir path_join userData extName w)) = clock w
  /\ builds (snd (getBuildDir path_join userData extName w)) = builds w
  /\ installs (snd (getBuildDir path_join userData extName w)) = installs w
  /\ console (snd (getBuildDir path_join userData extName w)) = console w
  /\ existsSync (files (snd (getBuildDir path_join userData extName w)))
       (buildDir_of extName) = true
  /\ (forall p, p <> buildDir_of extName ->
        files (snd (getBuildDir path_join userData extName w)) !! p = files w !! p)
  /\ (existsSync (files w) (buildDir_of extName) = true ->
      snd (getBuildDir path_join userData extName w) = w).
Proof.
  unfold getBuildDir. fold (buildDir_of extName).
  destruct (existsSync (files w) (buildDir_of extName)) eqn:E; cbn [negb fst snd].
  - repeat split; auto.
  - cbn [clock builds installs console files]. repeat split; auto.
    + unfold existsSync. rewrite lookup_insert_eq. reflexivity.
    + intros p Hp. apply lookup_insert_ne. congruence.
    + discriminate.
Qed.

(** The build, with the world at each step named. *)
Lemma build_cases (extName cmdName : string) (w : world) :
  let extPath := extPath_of extName in
  let w1 := ensure extPath w in
  let w2 := snd (getBuildDir path_join userData extName w1) in
  let outFile := outFile_of extName cmdName in
  let nodePaths :=
    if existsSync (files w2) (path_join [extPath; "node_modules"])
    then [path_join [extPath; "node_modules"]] else [] in
  build extName cmdName w =
  if negb (existsSync (files w) extPath) then (None, w)
  else
    match resolveEntryFile path_join (files w1) extPath cmdName with
    | None =>
        (None, mkWorld (files w1) (clock w1) (builds w1) (installs w1)
                 (console w1 ++
                  ["No entry file found for extension " +:+ extName +:+ "/" +:+ cmdName]))
    | Some entryFile =>
        match cached_build (files w2) entryFile outFile with
        | Some text => (Some text, w2)
        | None =>
            match esbuild_build (files w2) entryFile nodePaths with
            | Thrown =>
                (None, mkWorld (files w2) (clock w2) (builds w2 ++ [entryFile])
                         (installs w2)
                         (console w2 ++
                          ["esbuild failed for " +:+ extName +:+ "/" +:+ cmdName]))
            | Ok bundle =>
                (Some bundle,
                 mkWorld (<[outFile := NFile (clock w2) (Some bundle)]> (files w2))
                   (clock w2) (builds w2 ++ [entryFile]) (installs w2) (console w2))
            end
        end
    end.
Proof.
  intros extPath w1 w2 outFile nodePaths.
  unfold build, RunnerProps.build, buildExtensionCommand.
  fold (extPath_of extName). fold extPath. fold (ensure extPath w). fold w1.
  destruct (negb (existsSync (files w) extPath)); [reflexivity|].
  destruct (resolveEntryFile path_join (files w1) extPath cmdName) as [entryFile|];
    [|reflexivity].
  destruct (getBuildDir_frame extName w1) as (Hg & _).
  rewrite Hg. fold w2. cbv beta iota zeta. unfold buildDir_of.
  fold (RunnerProps.outFile_of path_join userData extName cmdName).
  fold (outFile_of extName cmdName). fold outFile.
  destruct (cached_build (files w2) entryFile outFile); [reflexivity|].
  unfold run_esbuild. fold nodePaths.
  destruct (esbuild_build (files w2) entryFile nodePaths) as [bundle|]; [|reflexivity].
  unfold existsSync, readFileSync. rewrite lookup_insert_eq. reflexivity.
Qed.

Lemma cached_build_reads (fs : gmap string node) (entryFile outFile text : string) :
  cached_build fs entryFile outFile = Some text -> readFileSync fs outFile = Ok text.
Proof.
  unfold cached_build.
  destruct (existsSync fs outFile); [|discriminate].
  destruct (statSync fs entryFile) as [src|]; [|discriminate].
  destruct (statSync fs outFile) as [out|]; [|discriminate].
  destruct (node_mtime src <? node_mtime out)%Z; [|discriminate].
  destruct (readFileSync fs outFile); [|discriminate].
  congruence.
Qed.

(** X18. What a build can do to the machine.  [buildExtensionCommand]
    never moves the clock and only adds to the console; it runs
    [npm install] at most once, in the extension directory, and the bundler
    at most once, on the entry file that was resolved; when it returns a
    text, the cache file holds exactly that text afterwards; and when the
    extension directory is missing it returns [null] and changes
    nothing. *)
Theorem build_effects (extName cmdName : string) (w : world) :
  clock (snd (build extName cmdName w)) = clock w
  /\ (exists more, console (snd (build extName cmdName w)) = console w ++ more)
  /\ (installs (snd (build extName cmdName w)) = installs w
      \/ installs (snd (build extName cmdName w)) = installs w ++ [extPath_of extName])
  /\ (builds (snd (build extName cmdName w)) = builds w
      \/ exists entryFile,
           resolveEntryFile path_join (files (ensure (extPath_of extName) w))
             (extPath_of extName) cmdName = Some entryFile
           /\ builds (snd (build extName cmdName w)) = builds w ++ [entryFile])
  /\ (forall text,
        fst (build extName cmdName w) = Some text ->
        readFileSync (files (snd (build extName cmdName w))) (outFile_of extName cmdName)
        = Ok text)
  /\ (existsSync (files w) (extPath_of extName) = false ->
      build extName cmdName w = (None, w)).
Proof.
  rewrite build_cases. cbv zeta.
  destruct (ensure_frame (extPath_of extName) w) as (Hc & Hb & Hi & more & Hl).
  destruct (getBuildDir_frame extName (ensure (extPath_of extName) w))
    as (_ & Hc2 & Hb2 & Hi2 & Hl2 & _).
  set (w1 := ensure (extPath_of extName) w) in *.
  set (w2 := snd (getBuildDir path_join userData extName w1)) in *.
  destruct (existsSync (files w) (extPath_of extName)) eqn:Hext; cbn [negb].
  2:{ cbn [fst snd]. repeat split; auto; try discriminate.
      exists []. rewrite List.app_nil_r. reflexivity. }
  destruct (resolveEntryFile path_join (files w1) (extPath_of extName) cmdName)
    as [entryFile|] eqn:Hentry.
  2:{ cbn [fst snd clock console installs builds files].
      repeat split; auto; try discriminate.
      eexists. rewrite Hl, <- List.app_assoc. reflexivity. }
  destruct (cached_build (files w2) entryFile (outFile_of extName cmdName))
    as [text|] eqn:Hcache.
  { cbn [fst snd]. rewrite Hc2, Hb2, Hi2, Hl2.
    repeat split; eauto; try discriminate.
    intros text' [= <-]. exact (cached_build_reads _ _ _ _ Hcache). }
  destruct (esbuild_build (files w2) entryFile _) as [bundle|].
  - cbn [fst snd clock console installs builds files].
    rewrite Hc2, Hb2, Hi2, Hl2, Hb.
    repeat split; eauto; try discriminate.
    intros text' [= <-]. unfold readFileSync. rewrite lookup_insert_eq. reflexivity.
  - cbn [fst snd clock console installs builds files].
    rewrite Hc2, Hb2, Hi2, Hl2, Hb.
    repeat split; eauto; try discriminate.
    eexists. rewrite Hl, <- List.app_assoc. reflexivity.
Qed.

Lemma ensure_installed (extPath : string) (w : world) :
  existsSync (files w) (path_join [extPath; "node_modules"]) = true ->
  ensure extPath w = w.
Proof.
  intros H. unfold ensure, ensureDepsInstalled. rewrite H. reflexivity.
Qed.

Lemma resolveEntryFile_candidates (fs : gmap string node) (extPath cmdName : string) :
  resolveEntryFile path_join fs extPath cmdName
  = find (existsSync fs) (candidates extPath cmdName).
Proof. reflexivity. Qed.

Lemma find_same {A : Type} (f g : A -> bool) (xs : list A) :
  (forall x, In x xs -> f x = g x) -> find f xs = find g xs.
Proof.
  induction xs as [|x xs IH]; intros H; [reflexivity|].
  cbn [find]. rewrite (H x) by (left; reflexivity).
  rewrite IH by (intros y Hy; apply H; right; exact Hy). reflexivity.
Qed.

Lemma existsSync_insert (fs : gmap string node) (k p : string) (n : node) :
  existsSync fs p = true -> existsSync (<[k := n]> fs) p = true.
Proof.
  unfold existsSync. destruct (decide (k = p)) as [->|Hne].
  - rewrite lookup_insert_eq. reflexivity.
  - rewrite lookup_insert_ne by exact Hne. auto.
Qed.

(** A build on a machine where everything is in place and the cache is
    fresh returns the cached text and changes nothing. *)
Lemma build_on_settled (extName cmdName : string) (w : world)
    (entryFile text : string) :
  existsSync (files w) (extPath_of extName) = true ->
  existsSync (files w) (path_join [extPath_of extName; "node_modules"]) = true ->
  resolveEntryFile path_join (files w) (extPath_of extName) cmdName = Some entryFile ->
  existsSync (files w) (buildDir_of extName) = true ->
  cached_build (files w) entryFile (outFile_of extName cmdName) = Some text ->
  build extName cmdName w = (Some text, w).
Proof.
  intros Hext Hnm Hentry Hdir Hcache.
  rewrite build_cases. cbv zeta.
  rewrite (ensure_installed _ _ Hnm), Hext. cbn [negb]. rewrite Hentry.
  destruct (getBuildDir_frame extName w) as (_ & _ & _ & _ & _ & _ & _ & Hsame).
  rewrite (Hsame Hdir), Hcache. reflexivity.
Qed.

(** X19. A build that succeeds makes the next one a cache hit.  Let the
    dependencies be installed, let the build directory and the cache file
    be no source candidates, and let the entry file be older than the
    clock that stamps the cache file.  If the build returns a text, then
    building again on the machine it leaves returns the same text and
    changes nothing: no second bundler run, no write. *)
Theorem rebuild_hits_cache (extName cmdName : string) (w : world)
    (entryFile text : string) (src : node) :
  existsSync (files w) (path_join [extPath_of extName; "node_modules"]) = true ->
  resolveEntryFile path_join (files w) (extPath_of extName) cmdName = Some entryFile ->
  ~ In (buildDir_of extName) (candidates (extPath_of extName) cmdName) ->
  ~ In (outFile_of extName cmdName) (candidates (extPath_of extName) cmdName) ->
  files w !! entryFile = Some src ->
  (node_mtime src < clock w)%Z ->
  fst (build extName cmdName w) = Some text ->
  build extName cmdName (snd (build extName cmdName w))
  = (Some text, snd (build extName cmdName w)).
Proof.
  intros Hnm Hentry Hbd Hof Hsrc Hold Hres.
  assert (Hext : existsSync (files w) (extPath_of extName) = true).
  { destruct (existsSync (files w) (extPath_of extName)) eqn:E; [reflexivity|].
    rewrite build_cases in Hres. cbv zeta in Hres. rewrite E in Hres.
    discriminate Hres. }
  assert (Hcand : In entryFile (candidates (extPath_of extName) cmdName)).
  { rewrite resolveEntryFile_candidates in Hentry.
    apply (find_some _ _ Hentry). }
  assert (Hne1 : entryFile <> buildDir_of extName) by congruence.
  assert (Hne2 : entryFile <> outFile_of extName cmdName) by congruence.
  pose proof (build_cases extName cmdName w) as B. cbv zeta in B.
  rewrite (ensure_installed _ _ Hnm), Hext, Hentry in B. cbn [negb] in B.
  destruct (getBuildDir_frame extName w)
    as (_ & Hc2 & _ & _ & _ & Hdir2 & Hframe & _).
  set (w2 := snd (getBuildDir path_join userData extName w)) in *.
  assert (Hext2 : existsSync (files w2) (extPath_of extName) = true).
  { unfold existsSync in *. destruct (decide (extPath_of extName = buildDir_of extName))
      as [E|E]; [rewrite E; exact Hdir2 | rewrite (Hframe _ E); exact Hext]. }
  assert (Hnm2 : existsSync (files w2)
                   (path_join [extPath_of extName; "node_modules"]) = true).
  { unfold existsSync in *.
    destruct (decide (path_join [extPath_of extName; "node_modules"] = buildDir_of extName))
      as [E|E]; [rewrite E; exact Hdir2 | rewrite (Hframe _ E); exact Hnm]. }
  assert (Hentry2 : resolveEntryFile path_join (files w2) (extPath_of extName) cmdName
                    = Some entryFile).
  { rewrite <- Hentry, !resolveEntryFile_candidates. apply find_same.
    intros p Hp. unfold existsSync. rewrite Hframe; [reflexivity|].
    intros ->. exact (Hbd Hp). }
  destruct (cached_build (files w2) entryFile (outFile_of extName cmdName))
    as [text0|] eqn:Hcache.
  - rewrite B in *. cbn [fst snd] in *. injection Hres as <-.
    apply (build_on_settled extName cmdName w2 entryFile text0); assumption.
  - destruct (esbuild_build (files w2) entryFile _) as [bundle|];
      rewrite B in *; cbn [fst snd] in *; [|discriminate Hres].
    injection Hres as <-.
    apply (build_on_settled extName cmdName _ entryFile bundle); cbn [files].
    + apply existsSync_insert, Hext2.
    + apply existsSync_insert, Hnm2.
    + rewrite <- Hentry2, !resolveEntryFile_candidates. apply find_same.
      intros p Hp. unfold existsSync. rewrite lookup_insert_ne; [reflexivity|].
      intros <-. exact (Hof Hp).
    + apply existsSync_insert, Hdir2.
    + unfold cached_build, existsSync, statSync, readFileSync.
      rewrite lookup_insert_eq.
      rewrite lookup_insert_ne by congruence.
      rewrite (Hframe _ Hne1), Hsrc. cbn [node_mtime].
      rewrite Hc2.
      replace (node_mtime src <? clock w)%Z with true
        by (symmetry; apply Z.ltb_lt; exact Hold).
      reflexivity.
Qed.

End Build.

(** The concrete machine with a cache file older than the entry file. *)
Definition stale_machine : world :=
  mkWorld (<["/u/extensions/good/.sc-build/foo.js" := NFile 5 (Some "old bundle")]>
             RunnerProps.disk)
          30 [] [] [].

Lemma rebuild_hits_cache_witness :
  RunnerProps.build RunnerProps.join RunnerProps.parse_G "/u" RunnerProps.no_install
    RunnerProps.constant_bundler "good" "foo" stale_machine
  = (Some "fresh bundle",
     mkWorld (<["/u/extensions/good/.sc-build/foo.js" := NFile 30 (Some "fresh bundle")]>
                (files stale_machine))
             30 ["/u/extensions/good/src/foo.tsx"] [] [])
  /\ RunnerProps.build RunnerProps.join RunnerProps.parse_G "/u" RunnerProps.no_install
       RunnerProps.constant_bundler "good" "foo"
       (snd (RunnerProps.build RunnerProps.join RunnerProps.parse_G "/u"
               RunnerProps.no_install RunnerProps.constant_bundler "good" "foo"
               stale_machine))
     = (Some "fresh bundle",
        snd (RunnerProps.build RunnerProps.join RunnerProps.parse_G "/u"
               RunnerProps.no_install RunnerProps.constant_bundler "good" "foo"
               stale_machine)).
Proof.
  split; [reflexivity|].
  apply (rebuild_hits_cache RunnerProps.join RunnerProps.parse_G "/u"
           RunnerProps.no_install RunnerProps.constant_bundler "good" "foo"
           stale_machine "/u/extensions/good/src/foo.tsx" "fresh bundle"
           (NFile 10 (Some "export default ..."))).
  - reflexivity.
  - reflexivity.
  - cbn. intuition discriminate.
  - cbn. intuition discriminate.
  - reflexivity.
  - cbn. lia.
  - reflexivity.
Defined.

End BuildProps.

Module BundleProps.
Import Runner BundleHost.

Section Bundle.

Variable path_join : list string -> string.
Variable path_extname : string -> string.
Variable toLowerCase : string -> string.
Variable base64 : string -> string.
Variable JSON_parse : string -> result json.
Variable userData : string.
Variable npm_install : string -> gmap string node -> gmap string node * bool.
Variable esbuild_build : gmap string node -> string -> list string -> result string.

Lemma command_info_skipped (dir : string) (pkg : json) (icon : option string)
    (cmd : json) :
  command_info toLowerCase dir pkg icon cmd = Ok None ->
  exists name, jget cmd "name" = Ok name /\ jtruthy name = false.
Proof.
  unfold command_info.
  destruct (jget cmd "name") as [name|]; [|discriminate].
  destruct (jtruthy name) eqn:Ht; cbn [negb]; [|eauto].
  destruct (jget cmd "title"); [|discriminate].
  destruct (jget cmd "description"); [|discriminate].
  destruct (jget cmd "mode"); [|discriminate].
  destruct (jget pkg "title"); [|discriminate].
  cbv zeta.
  match goal with
  | |- context [lower_keywords toLowerCase ?l] =>
      destruct (lower_keywords toLowerCase l); discriminate
  end.
Qed.

(** [c.name === cmdName] is false for an entry discovery skips. *)
Lemma name_is_skipped (n : string) (cmd : json) (name : option json) :
  String.eqb n "" = false ->
  jget cmd "name" = Ok name -> jtruthy name = false ->
  name_is n cmd = Ok false.
Proof.
  intros Hn Hname Ht. unfold name_is. rewrite Hname.
  destruct name as [[| | |s| |]|]; try reflexivity.
  cbn in Ht. destruct (String.eqb_spec s "") as [->|]; [|discriminate Ht].
  rewrite String.eqb_sym. rewrite Hn. reflexivity.
Qed.

(** The first descriptor with a given command name comes from the entry
    [find] picks. *)
Lemma find_push_commands (dir : string) (pkg : json) (icon : option string)
    (n : string) (cmds : list json) (info : ExtensionCommandInfo) :
  find (fun i => String.eqb (cmdName i) n)
       (push_commands toLowerCase dir pkg icon cmds) = Some info ->
  exists cmd,
    find_command n cmds = Ok (Some cmd)
    /\ command_info toLowerCase dir pkg icon cmd = Ok (Some info).
Proof.
  intros Hfind.
  assert (Hn : String.eqb n "" = false).
  { destruct (find_some _ _ Hfind) as [Hin Heq].
    destruct (RunnerProps.push_commands_in toLowerCase _ _ _ _ _ Hin) as (c & _ & Hc).
    destruct (DiscoveryProps.command_info_inversion toLowerCase _ _ _ _ _ Hc)
      as (s & t & ? & ? & ? & ? & ? & _ & Hs & _ & _ & _ & _ & _ & _ & _ & ->).
    cbn [cmdName] in Heq. apply String.eqb_eq in Heq. subst n. exact Hs. }
  induction cmds as [|cmd cmds IH]; [discriminate Hfind|].
  cbn [push_commands] in Hfind. cbn [find_command].
  destruct (command_info toLowerCase dir pkg icon cmd) as [[i|]|] eqn:Hc.
  - destruct (DiscoveryProps.command_info_inversion toLowerCase _ _ _ _ _ Hc)
      as (s & t & ? & ? & ? & ? & ? & Hname & _ & _ & _ & _ & _ & _ & _ & _ & Ei).
    assert (Ecmd : cmdName i = s) by (rewrite Ei; reflexivity).
    unfold name_is. rewrite Hname.
    cbn [find] in Hfind. rewrite Ecmd in Hfind.
    destruct (String.eqb s n).
    + injection Hfind as <-. exists cmd. split; [reflexivity | exact Hc].
    + exact (IH Hfind).
  - destruct (command_info_skipped _ _ _ _ Hc) as (name & Hname & Ht).
    rewrite (name_is_skipped n cmd name Hn Hname Ht). exact (IH Hfind).
  - discriminate Hfind.
Qed.

Lemma push_characters (dir : string) (pkg : json) (icon : option string) (s : string) :
  push_commands toLowerCase dir pkg icon (characters s) = [].
Proof.
  induction s as [|c s IH]; [reflexivity|].
  cbn [characters push_commands]. unfold command_info. cbn [jget jtruthy negb].
  exact IH.
Qed.

Lemma find_command_object (n : string) (cmds : list json) (cmd : json) :
  find_command n cmds = Ok (Some cmd) ->
  exists s, jget cmd "name" = Ok (Some (JStr s)) /\ String.eqb s n = true.
Proof.
  induction cmds as [|c cmds IH]; [discriminate|].
  cbn [find_command]. unfold name_is.
  destruct (jget c "name") as [[[| | |s| |]|]|] eqn:Hname; try discriminate; try exact IH.
  destruct (String.eqb s n) eqn:E; [|exact IH].
  intros [= <-]. exists s. auto.
Qed.

(** X20. The bundle host and discovery agree.  For the first descriptor
    discovery lists for an extension under a command name,
    [getExtensionBundle] reads the same title and the same mode from the
    manifest (given that [path.join] gives the manifest the same path in
    both functions). *)
Theorem bundle_metadata_matches_discovery (fs : gmap string node) (dir n : string)
    (info : ExtensionCommandInfo) :
  path_join [getExtensionsDir path_join userData; dir; "package.json"]
  = RunnerProps.pkgPath_of path_join userData dir ->
  find (fun i => String.eqb (cmdName i) n)
       (RunnerProps.commands_of path_join path_extname toLowerCase base64 JSON_parse
          userData fs dir) = Some info ->
  bundle_metadata path_join JSON_parse userData fs dir n
  = (JStr (title info), mode info).
Proof.
  intros Hpath Hfind.
  unfold bundle_metadata. rewrite Hpath.
  unfold RunnerProps.commands_of, extension_commands in Hfind.
  fold (RunnerProps.extDir path_join userData) in Hfind.
  fold (RunnerProps.extPath_of path_join userData dir) in Hfind.
  fold (RunnerProps.pkgPath_of path_join userData dir) in Hfind.
  cbv zeta in Hfind.
  destruct (statSync fs (RunnerProps.extPath_of path_join userData dir)) as [nd|];
    [|discriminate Hfind].
  destruct (negb (isDirectory nd)); [discriminate Hfind|].
  destruct (negb (existsSync fs (RunnerProps.pkgPath_of path_join userData dir)));
    [discriminate Hfind|].
  unfold manifest_commands in Hfind.
  destruct (readFileSync fs (RunnerProps.pkgPath_of path_join userData dir))
    as [source|]; [|discriminate Hfind].
  destruct (JSON_parse source) as [pkg|]; [|discriminate Hfind].
  destruct (jget pkg "icon") as [icon|]; [|discriminate Hfind].
  unfold lookup_command.
  destruct (jget pkg "commands") as [commands|]; [|discriminate Hfind].
  destruct (getExtensionIconDataUrl _ _ _ _ _ _ _) as [url|]; [|discriminate Hfind].
  destruct (jor commands (JArr [])) as [| | |s|cmds|]; try discriminate Hfind.
  { cbn [iterate] in Hfind. rewrite push_characters in Hfind. discriminate Hfind. }
  cbn [iterate] in Hfind.
  destruct (find_push_commands _ _ _ _ _ _ Hfind) as (cmd & Hcmd & Hinfo).
  rewrite Hcmd.
  destruct (DiscoveryProps.command_info_inversion toLowerCase _ _ _ _ _ Hinfo)
    as (s & t & ctitle & cdesc & cmode & ptitle & ks
        & Hname & _ & Htitle & Et & _ & _ & Hmode & _ & _ & ->).
  destruct (find_command_object _ _ _ Hcmd) as (s' & Hname' & Es).
  rewrite Hname in Hname'. injection Hname' as <-.
  apply String.eqb_eq in Es. subst n.
  unfold optional_get. rewrite Htitle, Hmode. cbn [title mode].
  rewrite Et. reflexivity.
Qed.

(** X21. What [getExtensionBundle] resolves to.  A bundle is returned
    exactly when the build returns a non-empty text; its code is that text,
    its mode is never falsy, and its title is falsy only for the empty
    command name.  It is [null] when the build fails and when the build
    returns the empty text.  The machine is left as the build leaves
    it. *)
Theorem getExtensionBundle_fields (extName cmdName : string) (w : world) :
  match getExtensionBundle path_join JSON_parse userData npm_install esbuild_build
          extName cmdName w with
  | (Some b, w') =>
      RunnerProps.build path_join JSON_parse userData npm_install esbuild_build
        extName cmdName w = (Some (code b), w')
      /\ String.eqb (code b) "" = false
      /\ jtruthy (Some (bundle_mode b)) = true
      /\ (String.eqb cmdName "" = false -> jtruthy (Some (bundle_title b)) = true)
      /\ (bundle_title b, bundle_mode b)
         = bundle_metadata path_join JSON_parse userData (files w') extName cmdName
  | (None, w') =>
      RunnerProps.build path_join JSON_parse userData npm_install esbuild_build
        extName cmdName w = (None, w')
      \/ RunnerProps.build path_join JSON_parse userData npm_install esbuild_build
           extName cmdName w = (Some "", w')
  end.
Proof.
  unfold getExtensionBundle, RunnerProps.build.
  destruct (buildExtensionCommand path_join JSON_parse userData npm_install
              esbuild_build extName cmdName w) as [[text|] w'].
  2:{ left. reflexivity. }
  destruct (String.eqb_spec text "") as [->|Hne].
  { right. reflexivity. }
  assert (Hmeta : forall t m,
            bundle_metadata path_join JSON_parse userData (files w') extName cmdName
            = (t, m) ->
            jtruthy (Some m) = true
            /\ (String.eqb cmdName "" = false -> jtruthy (Some t) = true)).
  { unfold bundle_metadata. intros t m.
    destruct (readFileSync (files w') _) as [source|].
    2:{ intros [= <- <-]. split; [reflexivity|]. intros H. cbn. rewrite H. reflexivity. }
    destruct (JSON_parse source) as [pkg|].
    2:{ intros [= <- <-]. split; [reflexivity|]. intros H. cbn. rewrite H. reflexivity. }
    destruct (lookup_command pkg cmdName) as [cmd|].
    2:{ intros [= <- <-]. split; [reflexivity|]. intros H. cbn. rewrite H. reflexivity. }
    intros [= <- <-]. split.
    - apply DiscoveryProps.jor_truthy. reflexivity.
    - intros H. apply DiscoveryProps.jor_truthy. cbn. rewrite H. reflexivity. }
  destruct (bundle_metadata path_join JSON_parse userData (files w') extName cmdName)
    as [t m] eqn:E.
  destruct (Hmeta t m eq_refl) as [Hm Ht].
  cbn [code bundle_title bundle_mode].
  repeat split; auto.
  apply String.eqb_neq. exact Hne.
Qed.

End Bundle.

Lemma bundle_metadata_matches_discovery_witness :
  bundle_metadata RunnerProps.join RunnerProps.parse_G "/u" RunnerProps.disk "good" "foo"
  = (JStr "foo", JStr "no-view").
Proof.
  exact (bundle_metadata_matches_discovery RunnerProps.join (fun p => "") (fun s => s)
           (fun s => s) RunnerProps.parse_G "/u" RunnerProps.disk "good" "foo"
           (mkInfo "ext-good-foo" "foo" "good" "foo" "" (JStr "no-view")
                   ["good"; "tools"; "foo"] None)
           eq_refl eq_refl).
Defined.

End BundleProps.

(* ================================================================== *)
(** * Further properties of the command lifecycle and the loader *)
(* ================================================================== *)

Module LifecycleFacts.
Import JS Lifecycle.

(** ** The probe *)


(** ** Navigation *)

(** The depth of the stack after a run, from the depth before. *)
Fixpoint depth_after (depth : nat) (ops : list nav_op) : nat :=
  match ops with
  | [] => depth
  | Push _ :: rest => depth_after (S depth) rest
  | Pop :: rest => depth_after (Nat.pred depth) rest
  end.

(** The number of [pop]s of a run that meet an empty stack. *)
Fixpoint underflows (depth : nat) (ops : list nav_op) : nat :=
  match ops with
  | [] => 0
  | Push _ :: rest => underflows (S depth) rest
  | Pop :: rest =>
      match depth with
      | O => S (underflows 0 rest)
      | S d => underflows d rest
      end
  end.

Lemma removelast_length {A : Type} (l : list A) :
  length (removelast l) = Nat.pred (length l).
Proof.
  induction l as [|x l IH]; [reflexivity|].
  destruct l as [|y l]; [reflexivity|].
  cbn [removelast length] in *. rewrite IH. reflexivity.
Qed.

(** X23. The navigation callbacks close the session only at the root.
    [pop] calls [onClose] once each time it meets an empty stack and
    [push] never calls it: over any sequence of [push] and [pop], from any
    stack, the calls made by navigation number the pops that met an empty
    stack, and the depth of the stack follows the operations, a [pop] at
    depth zero leaving it at zero.  (What the view renders in between, and
    so how often the probe runs and what it detects, is not part of this
    statement.) *)
Theorem navigation_closes_at_root_only (ops : list nav_op) (v : view) :
  closes (nav_run ops v) = closes v + underflows (length (navStack v)) ops
  /\ length (navStack (nav_run ops v)) = depth_after (length (navStack v)) ops.
Proof.
  revert v. induction ops as [|op ops IH]; intros v.
  - cbn. split; [lia | reflexivity].
  - change (nav_run (op :: ops) v) with (nav_run ops (nav_step v op)).
    destruct (IH (nav_step v op)) as (Hc & Hd).
    rewrite Hc, Hd. clear IH Hc Hd.
    destruct op as [e|].
    + cbn [nav_step push closes navStack underflows depth_after].
      rewrite length_app. cbn [length].
      replace (length (navStack v) + 1) with (S (length (navStack v))) by lia.
      split; reflexivity.
    + destruct v as [m d stack c k]. cbn [nav_step]. unfold pop.
      cbn [navStack mode detectedNoView calls closes].
      destruct stack as [|x stack].
      * cbn. split; [lia | reflexivity].
      * cbn [length Nat.ltb Nat.leb].
        cbn [closes navStack underflows depth_after Nat.pred].
        rewrite removelast_length. cbn [length Nat.pred]. split; reflexivity.
Qed.

(** ** No-view execution *)

(** What holds of a [NoViewRunner] at every moment. *)
Definition consistent (r : runner) : Prop :=
  match status r with
  | running => timers r = [] /\ runner_closes r = 0
  | error => timers r = [] /\ runner_closes r = 0 /\ outstanding r = false
  | done =>
      outstanding r = false
      /\ ((timers r = [600] /\ runner_closes r = 0)
          \/ (timers r = [] /\ runner_closes r = 1))
  end.

Lemma consistent_start (call : outcome jsval) : consistent (effect_start call).
Proof. destruct call; cbn; auto. Qed.

Lemma consistent_step (r : runner) (ev : runner_event) :
  consistent r -> consistent (runner_step r ev).
Proof.
  destruct r as [st msg c o ts k]. unfold consistent. cbn [status timers runner_closes outstanding].
  intros H. destruct ev as [[v|e]| |]; cbn [runner_step].
  - cbn [outstanding]. destruct o; [|exact H].
    unfold on_resolved. cbn [cancelled status errorMsg timers runner_closes].
    destruct st; try (destruct H as (? & ? & ?); discriminate);
      try (destruct H as (? & ?); discriminate).
    destruct H as [-> ->]. destruct c; cbn; auto.
  - cbn [outstanding]. destruct o; [|exact H].
    unfold on_rejected. cbn [cancelled status errorMsg timers runner_closes].
    destruct st; try (destruct H as (? & ? & ?); discriminate);
      try (destruct H as (? & ?); discriminate).
    destruct H as [-> ->]. destruct c; cbn; auto.
  - cbn. exact H.
  - cbn [timers]. destruct ts as [|t ts]; [exact H|].
    cbn [status timers runner_closes outstanding].
    destruct st.
    + destruct H as [H _]. discriminate H.
    + destruct H as (Ho & [[Ht Hk] | [Ht _]]); [|discriminate Ht].
      injection Ht as _ ->. subst k. auto.
    + destruct H as (H & _). discriminate H.
Qed.

Lemma consistent_run (evs : list runner_event) (r : runner) :
  consistent r -> consistent (runner_run evs r).
Proof.
  revert r. induction evs as [|ev evs IH]; intros r H; [exact H|].
  apply (IH (runner_step r ev)), consistent_step, H.
Qed.

(** X24. [NoViewRunner] closes the session at most once, and only after
    success.  Whatever the entry function does and in whatever order the
    settlement, the teardown and the timer arrive: while the status is
    [running] or [error] no close has happened and none is scheduled; with
    the status [done] exactly one close is scheduled (after 600 ms) or has
    happened.  A close that is scheduled is not called off by the
    teardown. *)
Theorem no_view_runner_closes_once (call : outcome jsval) (evs : list runner_event) :
  consistent (runner_run evs (effect_start call))
  /\ runner_closes (runner_run evs (effect_start call)) <= 1
  /\ (timers (runner_run evs (effect_start call)) = [600] ->
      runner_closes
        (runner_run [Teardown; TimerFires] (runner_run evs (effect_start call))) = 1).
Proof.
  pose proof (consistent_run evs _ (consistent_start call)) as H.
  split; [exact H|].
  destruct (runner_run evs (effect_start call)) as [st msg c o ts k].
  unfold consistent in H. cbn [status timers runner_closes outstanding] in *.
  split.
  - destruct st; [destruct H as [_ ->]; lia | | destruct H as (_ & -> & _); lia].
    destruct H as (_ & [[_ ->] | [_ ->]]); lia.
  - intros ->. cbn.
    destruct st; [destruct H as [H _]; discriminate H | | destruct H as (H & _); discriminate H].
    destruct H as (_ & [[_ ->] | [H _]]); [reflexivity | discriminate H].
Qed.

End LifecycleFacts.

Module LoaderFacts.
Import JS Loader.

Section Resolution.

Variable builtin : string -> jsval.
Variable import_ : string -> jsval.

(** Whether a [require] of the name is answered without a warning. *)
Definition provided (name : string) : bool :=
  match snd (fakeRequire builtin import_ name) with
  | [] => true
  | _ :: _ => false
  end.

(** X25. The build and the loader against each other.  Of the module
    names the build keeps external, the loader provides all but
    [react-dom] and [http2], which it answers with an empty object and a
    warning.  Of the names the loader's table answers, the build keeps all
    external but ten [node:] spellings.  And the name of every member of
    [Object.prototype] is answered, without a warning, with that member. *)
Theorem loader_against_build_externals :
  List.filter (fun name => negb (provided name)) Runner.external
  = ["react-dom"; "http2"]
  /\ List.filter (fun key => negb (existsb (String.eqb key) Runner.external))
       (map fst (nodeBuiltinStubs builtin))
     = [ "node:stream/promises"; "node:tls"; "node:dns"; "node:dgram";
         "node:cluster"; "node:tty"; "node:v8"; "node:readline";
         "node:perf_hooks"; "node:string_decoder" ]
  /\ Forall (fun name =>
               exists member,
                 inherited_member name = Some member
                 /\ fakeRequire builtin import_ name = (Returns member, []))
            object_prototype_keys.
Proof.
  split; [vm_compute; reflexivity|].
  split; [vm_compute; reflexivity|].
  unfold object_prototype_keys.
  repeat (constructor; [eexists; split; vm_compute; reflexivity|]).
  constructor.
Qed.

End Resolution.

End LoaderFacts.
